(** * kube-burner: template helpers, template rendering, service latency
      measurement and job-summary indexing.

    A shallow embedding of
      - pkg/util (template rendering helpers): [GetSubnet24], [GetIPAddress],
        [AddRenderingFunction], [RenderTemplate];
      - pkg/measurements/service_latency.go: [handleCreateSvc], [index];
      - pkg/burner (job summary): [IndexJobSummary].

    Go values are modelled as follows: [int] is a 64-bit two's complement
    integer carried in [Z] with the wrap-around written out ([Go.int_wrap]);
    [byte(x)] keeps the low eight bits; strings are [string]; maps are
    [gmap]; instants and durations are nanoseconds in [Z]. *)

From Stdlib Require Import ZArith String Ascii List Lia.
From Stdlib Require Import DecimalString DecimalPos DecimalN.
From stdpp Require Import gmap strings list fin_maps.

Local Open Scope string_scope.
Local Open Scope list_scope.
Local Open Scope Z_scope.

(* ===================================================================== *)
(** ** Go primitives used by the embedded code                            *)
(* ===================================================================== *)

Module Go.

(** Bounds of Go's [int] on the 64-bit targets kube-burner is built for. *)
Definition min_int : Z := - 2 ^ 63.
Definition max_int : Z := 2 ^ 63 - 1.

Definition is_int (z : Z) : Prop := min_int <= z <= max_int.

(** Result of an [int] operation: the mathematical result wrapped into
    [min_int .. max_int]. *)
Definition int_wrap (z : Z) : Z := (z + 2 ^ 63) mod 2 ^ 64 - 2 ^ 63.

Definition int_add (a b : Z) : Z := int_wrap (a + b).
Definition int_mul (a b : Z) : Z := int_wrap (a * b).
(** [a >> k] on a signed int is an arithmetic shift. *)
Definition int_shr (a : Z) (k : Z) : Z := Z.shiftr a k.

(** The conversion [byte(x)]: the low eight bits of [x]. *)
Definition byte_of_int (z : Z) : Z := Z.land z 255.

(** A run-time panic. *)
Inductive panic : Type :=
| IndexOutOfRange (idx : Z) (len : nat).

Inductive result (A : Type) : Type :=
| Ok (a : A)
| Panic (p : panic).
Arguments Ok {A} a.
Arguments Panic {A} p.

(** Slice indexing [s[i]]: panics unless [0 <= i < len(s)]. *)
Definition at_index {A : Type} (s : list A) (i : Z) : result A :=
  if i <? 0 then Panic (IndexOutOfRange i (length s))
  else match s !! Z.to_nat i with
       | Some a => Ok a
       | None => Panic (IndexOutOfRange i (length s))
       end.

(** [strconv.Itoa] on a non-negative number (the only case used here). *)
Definition itoa (z : Z) : string :=
  NilZero.string_of_uint (N.to_uint (Z.to_N z)).

(** The [%d]/[%v] rendering of a signed integer. *)
Definition format_int (z : Z) : string :=
  NilZero.string_of_int (Z.to_int z).

(** [strings.Split(s, " ")]: the substrings between the spaces, in order;
    [k] separators give [k+1] (possibly empty) substrings. *)
Fixpoint Split_space (s : string) : list string :=
  match s with
  | EmptyString => [EmptyString]
  | String c rest =>
      match Split_space rest with
      | [] => [String c EmptyString]
      | w :: ws =>
          if Ascii.eqb c " "%char then EmptyString :: w :: ws
          else String c w :: ws
      end
  end.

(** [strings.Join(elems, sep)]. *)
Fixpoint Join (elems : list string) (sep : string) : string :=
  match elems with
  | [] => EmptyString
  | [x] => x
  | x :: rest => x +:+ sep +:+ Join rest sep
  end.

(** A string without the character ['.']. *)
Fixpoint dot_free (s : string) : bool :=
  match s with
  | EmptyString => true
  | String c rest => negb (Ascii.eqb c "."%char) && dot_free rest
  end.

End Go.

(* ===================================================================== *)
(** ** pkg/util: the helpers registered in [funcMap] by [init]            *)
(* ===================================================================== *)

Module Util.
Import Go.

(** [netip.AddrFrom4([4]byte{a, b, c, d}).String()]: dotted decimal. *)
Definition AddrFrom4_String (a b c d : Z) : string :=
  itoa a +:+ "." +:+ itoa b +:+ "." +:+ itoa c +:+ "." +:+ itoa d.

(** [funcMap["GetSubnet24"]]:
    [netip.AddrFrom4([4]byte{byte(subnetIdx>>16 + 1), byte(subnetIdx >> 8),
                             byte(subnetIdx), 0}).String() + "/24"].
    In Go [>>] binds tighter than [+], so the first octet is
    [(subnetIdx >> 16) + 1]. *)
Definition GetSubnet24 (subnetIdx : Z) : string :=
  AddrFrom4_String
    (byte_of_int (int_add (int_shr subnetIdx 16) 1))
    (byte_of_int (int_shr subnetIdx 8))
    (byte_of_int subnetIdx)
    0
  +:+ "/24".

(** The body of the [for i := 0; i < addressesPerIteration; i++] loop of
    [GetIPAddress]; [k] counts the iterations that remain. *)
Fixpoint GetIPAddress_loop (addrSlice : list string)
    (iteration addressesPerIteration : Z)
    (k : nat) (i : Z) (retAddrs : list string) : result (list string) :=
  match k with
  | O => Ok retAddrs
  | S k' =>
      match at_index addrSlice
              (int_add (int_mul iteration addressesPerIteration) i) with
      | Panic p => Panic p
      | Ok a =>
          GetIPAddress_loop addrSlice iteration addressesPerIteration
            k' (int_add i 1) (retAddrs ++ [a])
      end
  end.

(** [funcMap["GetIPAddress"]]. *)
Definition GetIPAddress (Addresses : string)
    (iteration addressesPerIteration : Z) : result string :=
  let addrSlice := Split_space Addresses in
  match GetIPAddress_loop addrSlice iteration addressesPerIteration
          (Z.to_nat addressesPerIteration) 0 [] with
  | Panic p => Panic p
  | Ok retAddrs => Ok (Join retAddrs " ")
  end.

(** The dotted form written in the specification, with the three
    quantities taken as they stand: ["(i>>16+1).(i>>8).i.0/24"]. *)
Definition subnetFor24_spec (i : Z) : string :=
  itoa (Z.shiftr i 16 + 1) +:+ "." +:+ itoa (Z.shiftr i 8) +:+ "." +:+ itoa i
  +:+ ".0/24".

End Util.

(* ===================================================================== *)
(** ** Types read by the service latency measurement                      *)
(* ===================================================================== *)

(** The logger (logrus): an entry is a level and a message.  [log.Fatal]
    writes its entry and then ends the process with [os.Exit(1)]. *)
Module logrus.
Inductive Level : Type :=
| DebugLevel | InfoLevel | WarnLevel | ErrorLevel | FatalLevel.
Record Entry : Type := { Level_of : Level; Message : string }.
#[global] Instance Level_eq_dec : EqDecision Level.
Proof. solve_decision. Defined.
End logrus.

(** The fields of k8s.io/api/core/v1 objects that the measurement reads.
    [ServiceType] and [Protocol] are string types in Go. *)
Module corev1.
Definition ServiceTypeClusterIP : string := "ClusterIP".
Definition ServiceTypeNodePort : string := "NodePort".
Definition ServiceTypeLoadBalancer : string := "LoadBalancer".
Definition ProtocolTCP : string := "TCP".
Definition ProtocolUDP : string := "UDP".
(** The value of [spec.clusterIP] that marks a headless service. *)
Definition ClusterIPNone : string := "None".

Record ServicePort : Type :=
  { Protocol : string; Port : Z; NodePort : Z }.
Record LoadBalancerIngress : Type :=
  { IP : string; Hostname : string }.
Record Service : Type :=
  { Namespace : string;
    Name : string;
    UID : string;
    CreationTimestamp : Z;
    Spec_Type : string;
    Spec_ClusterIP : string;
    Spec_ClusterIPs : list string;
    Spec_Ports : list ServicePort;
    Status_LoadBalancer_Ingress : list LoadBalancerIngress }.
Record EndpointSubset : Type := { Addresses : list string }.
Record Endpoints : Type := { Subsets : list EndpointSubset }.
End corev1.

(** [config.Job]: the two fields used by the code at hand. *)
Module config.
Record Job : Type := { Name : string; SkipIndexing : bool }.
End config.

(** A binary64 value, carried as its bit pattern; never computed on here. *)
Definition float64 : Type := Z.

(** An error value: its message. *)
Definition error : Type := string.

(* ===================================================================== *)
(** ** pkg/burner: the job summary document                               *)
(* ===================================================================== *)

Module burner_types.
Record JobSummary : Type :=
  { Timestamp : Z;
    EndTimestamp : Z;
    ChurnStartTimestamp : option Z;
    ChurnEndTimestamp : option Z;
    ElapsedTime : float64;
    UUID : string;
    MetricName : string;
    JobConfig : config.Job;
    Metadata : list (string * string);
    Version : string;
    Passed : bool;
    ExecutionErrors : string;
    ObservedQPS : float64;
    RequestsSent : Z }.
Definition jobSummaryMetric : string := "jobSummary".
End burner_types.

(* ===================================================================== *)
(** ** pkg/measurements/service_latency.go                                *)
(* ===================================================================== *)

Module measurements.
Import Go.
Import logrus.

Definition svcLatencyMetric : string := "svcLatencyMeasurement".
Definition svcLatencyQuantilesMeasurement : string :=
  "svcLatencyQuantilesMeasurement".

Definition Millisecond : Z := 1000000.

(** [types.Measurement]: the fields used by the service latency code. *)
Record Measurement : Type :=
  { ServiceTimeout : Z; ServiceLatencyMetrics : string }.

Record svcMetric : Type :=
  { Timestamp : Z;
    IPAssignedLatency : Z;
    ReadyLatency : Z;
    MetricName : string;
    JobConfig : config.Job;
    UUID : string;
    Namespace : string;
    Name : string;
    Metadata : list (string * string);
    ServiceType : string }.

(** [metrics.LatencyQuantiles], the summary document built at stop time. *)
Record LatencyQuantiles : Type :=
  { QuantileName : string;
    Q_UUID : string;
    P99 : Z; P95 : Z; P50 : Z; Max : Z; Avg : Z;
    Q_Timestamp : Z;
    Q_MetricName : string;
    Q_JobConfig : config.Job;
    Q_Metadata : list (string * string) }.

(** The values that travel as [interface{}] documents to the indexer. *)
Inductive document : Type :=
| DocSvcMetric (m : svcMetric)
| DocLatencyQuantiles (q : LatencyQuantiles)
| DocJobSummary (j : burner_types.JobSummary).

(** [indexers.IndexingOpts]. *)
Record IndexingOpts : Type := { Opts_MetricName : string }.

(** The [indexers.Indexer] interface: [Index] returns a message and an
    error. *)
Definition Indexer : Type :=
  list document -> IndexingOpts -> string * option error.

Record serviceLatency : Type :=
  { sl_config : Measurement;
    sl_metrics : gmap string svcMetric;
    latencyQuantiles : list document;
    normLatencies : list document }.

(** [util.SvcLatencyChecker]: the probe pod's host address is all the
    measurement reads from it. *)
Record SvcLatencyChecker : Type := { Pod_Status_HostIP : string }.

(** A [context.Context], observed through [ctx.Err()] at a given instant. *)
Definition Context : Type := Z -> option error.
Definition context_TODO : Context := fun _ => None.

(** What lies outside the files at hand: the polling helper of
    k8s.io/apimachinery, the informer caches behind the two listers, the
    probe pod, the indexer, the process-wide [factory] and [globalCfg], and
    the constant [types.Quantiles].
    - [PollUntilContextCancel ctx interval immediate condition t] is called
      at instant [t]; it answers [None] when it never returns, and otherwise
      the instant at which it returns together with its error.
    - the listers answer [None] for an error (object not in the cache).
    - [NewSvcLatencyChecker t] and [Ping checker ip port timeout t] are
      called at instant [t] and answer the time they took and their
      result. *)
Record Env : Type :=
  { PollUntilContextCancel :
      Context -> Z -> bool -> (Z -> bool * option error) -> Z ->
      option (Z * option error);
    epLister_Get : Z -> string -> string -> option corev1.Endpoints;
    svcLister_Get : Z -> string -> string -> option corev1.Service;
    NewSvcLatencyChecker : Z -> Z * SvcLatencyChecker * option error;
    Ping : SvcLatencyChecker -> string -> Z -> Z -> Z -> Z * option error;
    factory_indexer : Indexer;
    factory_jobConfig : config.Job;
    factory_metadata : list (string * string);
    globalCfg_UUID : string;
    types_Quantiles : string }.

(** *** The process as the goroutines of the measurement see it *)

(** A TCP probe that was issued: target, instants of call and return, and
    the error it returned. *)
Record probe : Type :=
  { probe_ip : string; probe_port : Z;
    probe_start : Z; probe_end : Z; probe_err : option error }.

Record proc : Type :=
  { clock : Z;
    logs : list Entry;
    probes : list probe;
    indexed : list (IndexingOpts * list document);
    sl : serviceLatency }.

(** How a computation stops short of its end: the enclosing function
    returns, the process exits, or the call never comes back. *)
Inductive signal : Type :=
| Returned
| Exited (code : Z)
| Blocked.

Definition M (A : Type) : Type := proc -> (A + signal) * proc.

#[global] Instance M_ret : MRet M := fun A a p => (inl a, p).
#[global] Instance M_bind : MBind M := fun A B f m p =>
  match m p with
  | (inl a, p') => f a p'
  | (inr sg, p') => (inr sg, p')
  end.

Definition stop {A : Type} (sg : signal) : M A := fun p => (inr sg, p).

Definition set_clock (t : Z) (p : proc) : proc :=
  {| clock := t; logs := logs p; probes := probes p;
     indexed := indexed p; sl := sl p |}.
Definition add_log (e : Entry) (p : proc) : proc :=
  {| clock := clock p; logs := logs p ++ [e]; probes := probes p;
     indexed := indexed p; sl := sl p |}.
Definition add_probe (pr : probe) (p : proc) : proc :=
  {| clock := clock p; logs := logs p; probes := probes p ++ [pr];
     indexed := indexed p; sl := sl p |}.
Definition add_indexed (c : IndexingOpts * list document) (p : proc) : proc :=
  {| clock := clock p; logs := logs p; probes := probes p;
     indexed := indexed p ++ [c]; sl := sl p |}.
Definition set_sl (s : serviceLatency) (p : proc) : proc :=
  {| clock := clock p; logs := logs p; probes := probes p;
     indexed := indexed p; sl := s |}.
Definition set_metrics (m : gmap string svcMetric) (s : serviceLatency)
  : serviceLatency :=
  {| sl_config := sl_config s; sl_metrics := m;
     latencyQuantiles := latencyQuantiles s;
     normLatencies := normLatencies s |}.

Definition log (l : Level) (msg : string) : M unit :=
  fun p => (inl tt, add_log {| Level_of := l; Message := msg |} p).
Definition log_Fatal {A : Type} (msg : string) : M A :=
  log FatalLevel msg ;; stop (Exited 1).

Definition time_Now : M Z := fun p => (inl (clock p), p).
Definition time_Since (t : Z) : M Z := fun p => (inl (clock p - t), p).
Definition get_sl : M serviceLatency := fun p => (inl (sl p), p).

(** [go f()]: the goroutine's own return, or its never returning, is not
    seen by the caller; an exit of the process is.  The goroutine is run to
    its end at the point where it is started: the only state it shares with
    the others is the metrics map, written once under [metricLock]. *)
Definition go (body : M unit) : M unit := fun p =>
  match body p with
  | (inr (Exited c), p') => (inr (Exited c), p')
  | (_, p') => (inl tt, p')
  end.

Section WithEnv.
Variable E : Env.

(** [waitForEndpoints]: poll the endpoints lister every 50 ms until a subset
    has an address.  A lister error is swallowed ([return false, nil]). *)
Definition waitForEndpoints_condition (svc : corev1.Service) (t : Z)
  : bool * option error :=
  match epLister_Get E t (corev1.Namespace svc) (corev1.Name svc) with
  | None => (false, None)
  | Some endpoints =>
      (existsb (fun subset => (0 <? length (corev1.Addresses subset))%nat)
               (corev1.Subsets endpoints), None)
  end.

Definition waitForEndpoints (svc : corev1.Service) : M (option error) :=
  fun p =>
    match PollUntilContextCancel E context_TODO (50 * Millisecond) true
            (waitForEndpoints_condition svc) (clock p) with
    | None => (inr Blocked, p)
    | Some (t', err) => (inl err, set_clock t' p)
    end.

(** [waitForIngress]: poll the services lister every 100 ms until the
    service has a load-balancer ingress entry. *)
Definition waitForIngress_condition (svc : corev1.Service) (t : Z)
  : bool * option error :=
  match svcLister_Get E t (corev1.Namespace svc) (corev1.Name svc) with
  | None => (false, None)
  | Some svc' =>
      ((0 <? length (corev1.Status_LoadBalancer_Ingress svc'))%nat, None)
  end.

Definition waitForIngress (svc : corev1.Service) : M (option error) :=
  fun p =>
    match PollUntilContextCancel E context_TODO (100 * Millisecond) true
            (waitForIngress_condition svc) (clock p) with
    | None => (inr Blocked, p)
    | Some (t', err) => (inl err, set_clock t' p)
    end.

Definition call_NewSvcLatencyChecker : M (SvcLatencyChecker * option error) :=
  fun p =>
    let '(d, checker, err) := NewSvcLatencyChecker E (clock p) in
    (inl (checker, err), set_clock (clock p + d) p).

(** [svcLatencyChecker.Ping(ip, port, timeout)]; the call is recorded. *)
Definition call_Ping (checker : SvcLatencyChecker) (ip : string) (port : Z)
    (timeout : Z) : M (option error) :=
  fun p =>
    let '(d, err) := Ping E checker ip port timeout (clock p) in
    (inl err,
     add_probe {| probe_ip := ip; probe_port := port;
                  probe_start := clock p; probe_end := clock p + d;
                  probe_err := err |}
               (set_clock (clock p + d) p)).

(** Lines 129-135: the loop over [svc.Status.LoadBalancer.Ingress], which
    appends to [ips]. *)
Fixpoint appendIngress (ips : list string)
    (ingresses : list corev1.LoadBalancerIngress) : list string :=
  match ingresses with
  | [] => ips
  | ingress :: rest =>
      if decide (corev1.IP ingress <> EmptyString)
      then appendIngress (ips ++ [corev1.Hostname ingress]) rest
      else appendIngress (ips ++ [corev1.IP ingress]) rest
  end.

(** Lines 141-147: probe every address; the first failure is logged and
    ends the goroutine. *)
Fixpoint pingLoop (checker : SvcLatencyChecker) (timeout : Z)
    (ips : list string) (port : Z) : M unit :=
  match ips with
  | [] => mret tt
  | ip :: rest =>
      err ← call_Ping checker ip port timeout;
      match err with
      | Some e => log ErrorLevel e ;; stop Returned
      | None => pingLoop checker timeout rest port
      end
  end.

(** Lines 121-140: the [switch svc.Spec.Type], giving the new values of
    [ips] and [port]. *)
Definition resolveTargets (checker : SvcLatencyChecker) (svc : corev1.Service)
    (specPort : corev1.ServicePort) (ips : list string)
  : M (list string * Z) :=
  if decide (corev1.Spec_Type svc = corev1.ServiceTypeClusterIP) then
    mret (corev1.Spec_ClusterIPs svc, corev1.Port specPort)
  else if decide (corev1.Spec_Type svc = corev1.ServiceTypeNodePort) then
    mret ([Pod_Status_HostIP checker], corev1.NodePort specPort)
  else if decide (corev1.Spec_Type svc = corev1.ServiceTypeLoadBalancer) then
    mret (appendIngress ips (corev1.Status_LoadBalancer_Ingress svc),
          corev1.Port specPort)
  else
    log WarnLevel ("Service type " +:+ corev1.Spec_Type svc
                   +:+ " not supported, skipping") ;;
    stop Returned.

(** Lines 119-149: the loop over [svc.Spec.Ports]; [ips] and [port] are
    declared outside the loop and keep their values across iterations. *)
Fixpoint portsLoop (checker : SvcLatencyChecker) (timeout : Z)
    (svc : corev1.Service) (ports : list corev1.ServicePort)
    (ips : list string) (port : Z) : M unit :=
  match ports with
  | [] => mret tt
  | specPort :: rest =>
      if decide (corev1.Protocol specPort = corev1.ProtocolTCP) then
        '(ips', port') ← resolveTargets checker svc specPort ips;
        pingLoop checker timeout ips' port' ;;
        portsLoop checker timeout svc rest ips' port'
      else portsLoop checker timeout svc rest ips port
  end.

(** Lines 153-164: the [svcMetric] literal. *)
Definition newSvcMetric (svc : corev1.Service)
    (svcLatency ipAssignedLatency : Z) : svcMetric :=
  {| Name := corev1.Name svc;
     Namespace := corev1.Namespace svc;
     Timestamp := corev1.CreationTimestamp svc;
     MetricName := svcLatencyMetric;
     ServiceType := corev1.Spec_Type svc;
     ReadyLatency := svcLatency;
     JobConfig := factory_jobConfig E;
     UUID := globalCfg_UUID E;
     Metadata := factory_metadata E;
     IPAssignedLatency := ipAssignedLatency |}.

(** Lines 152-165: the store [s.metrics[string(svc.UID)] = ...] under
    [metricLock]. *)
Definition storeMetric (svc : corev1.Service) (svcLatency ipAssignedLatency : Z)
  : M unit :=
  fun p =>
    (inl tt,
     set_sl (set_metrics
               (<[corev1.UID svc := newSvcMetric svc svcLatency ipAssignedLatency]>
                  (sl_metrics (sl p)))
               (sl p)) p).

(** Lines 103-109: for a load balancer, wait for the ingress and measure
    [ipAssignedLatency]; its value stays 0 for the other types. *)
Definition waitIngressIfLoadBalancer (svc : corev1.Service) (now : Z) : M Z :=
  if decide (corev1.Spec_Type svc = corev1.ServiceTypeLoadBalancer) then
    err ← waitForIngress svc;
    match err with
    | Some e => log_Fatal e
    | None => time_Since now
    end
  else mret 0.

(** Lines 98-166: the body of the goroutine started by [handleCreateSvc]. *)
Definition handleCreateSvc_goroutine (svc : corev1.Service) : M unit :=
  now ← time_Now;
  ipAssignedLatency ← waitIngressIfLoadBalancer svc now;
  err ← waitForEndpoints svc;
  match err with Some e => log_Fatal e | None => mret tt end ;;
  endpointsReadyTs ← time_Now;
  log DebugLevel ("Endpoints " +:+ corev1.Namespace svc +:+ "/"
                  +:+ corev1.Name svc +:+ " ready") ;;
  '(svcLatencyChecker, err) ← call_NewSvcLatencyChecker;
  match err with Some e => log ErrorLevel e | None => mret tt end ;;
  s ← get_sl;
  portsLoop svcLatencyChecker (ServiceTimeout (sl_config s)) svc
            (corev1.Spec_Ports svc) [] 0 ;;
  svcLatency ← time_Since endpointsReadyTs;
  log DebugLevel ("Service " +:+ corev1.Namespace svc +:+ "/"
                  +:+ corev1.Name svc +:+ " latency was: "
                  +:+ format_int (Z.quot svcLatency Millisecond) +:+ "ms") ;;
  storeMetric svc svcLatency ipAssignedLatency.

(** Lines 94-167. *)
Definition handleCreateSvc (svc : corev1.Service) : M unit :=
  log DebugLevel ("New service created: " +:+ corev1.Namespace svc +:+ "/"
                  +:+ corev1.Name svc) ;;
  go (handleCreateSvc_goroutine svc).

(** The informer delivers the services one after the other. *)
Fixpoint handleCreateSvc_all (svcs : list corev1.Service) : M unit :=
  match svcs with
  | [] => mret tt
  | svc :: rest => handleCreateSvc svc ;; handleCreateSvc_all rest
  end.

(** *** Indexing *)

Definition call_Index (indexer : Indexer) (documents : list document)
    (opts : IndexingOpts) : M (string * option error) :=
  fun p => (inl (indexer documents opts), add_indexed (opts, documents) p).

(** Lines 267-273: the map of metric name to documents. *)
Definition index_metricMap (s : serviceLatency) : gmap string (list document) :=
  let metricMap : gmap string (list document) :=
    <[svcLatencyQuantilesMeasurement := latencyQuantiles s]>
      (<[svcLatencyMetric := normLatencies s]> ∅) in
  if decide (ServiceLatencyMetrics (sl_config s) = types_Quantiles E)
  then delete svcLatencyMetric metricMap
  else metricMap.

(** Lines 275-284: one round of the [range metricMap] loop. *)
Definition index_one (entry : string * list document) : M unit :=
  let '(metricName, documents) := entry in
  let indexingOpts :=
    {| Opts_MetricName := metricName +:+ "-" +:+ config.Name (factory_jobConfig E) |} in
  log DebugLevel ("Indexing [" +:+ format_int (Z.of_nat (length documents))
                  +:+ "] documents: " +:+ metricName) ;;
  '(resp, err) ← call_Index (factory_indexer E) documents indexingOpts;
  match err with
  | Some e => log ErrorLevel e
  | None => log InfoLevel resp
  end.

Fixpoint index_range (entries : list (string * list document)) : M unit :=
  match entries with
  | [] => mret tt
  | entry :: rest => index_one entry ;; index_range rest
  end.

(** [index]: Go ranges over a map in an order of its choosing; [order] is
    that order, a permutation of the entries of [index_metricMap]. *)
Definition index (order : list (string * list document)) : M unit :=
  index_range order.

End WithEnv.

(** *** pkg/burner: IndexJobSummary *)

Definition IndexJobSummary (jobSummaries : list burner_types.JobSummary)
    (indexer : Indexer) : M unit :=
  log InfoLevel "Indexing job summaries" ;;
  let jobSummariesInt := map DocJobSummary jobSummaries in
  let indexingOpts := {| Opts_MetricName := burner_types.jobSummaryMetric |} in
  '(resp, err) ← call_Index indexer jobSummariesInt indexingOpts;
  match err with
  | Some e => log ErrorLevel e
  | None => log InfoLevel resp
  end.

(** *** A reference behaviour of the polling helper

    [wait.PollUntilContextCancel(ctx, interval, immediate, condition)] calls
    [condition] at once when [immediate] is set and then after every
    [interval], until it reports done or an error, or until the context is
    done, whose error it then returns.  [fuel] bounds the number of rounds
    that are followed. *)
Fixpoint poll_rounds (fuel : nat) (ctx : Context) (interval : Z)
    (condition : Z -> bool * option error) (t : Z)
  : option (Z * option error) :=
  match fuel with
  | O => None
  | S fuel' =>
      match ctx t with
      | Some e => Some (t, Some e)
      | None =>
          match condition t with
          | (_, Some e) => Some (t, Some e)
          | (true, None) => Some (t, None)
          | (false, None) =>
              poll_rounds fuel' ctx interval condition (t + interval)
          end
      end
  end.

Definition poll_reference (fuel : nat) (ctx : Context) (interval : Z)
    (immediate : bool) (condition : Z -> bool * option error) (t : Z)
  : option (Z * option error) :=
  if immediate then
    match condition t with
    | (_, Some e) => Some (t, Some e)
    | (true, None) => Some (t, None)
    | (false, None) => poll_rounds fuel ctx interval condition (t + interval)
    end
  else poll_rounds fuel ctx interval condition (t + interval).

(** *** Vocabulary for stating what a run did *)

Definition probe_ok (pr : probe) : Prop := probe_err pr = None.
Definition target (pr : probe) : string * Z := (probe_ip pr, probe_port pr).

(** The instant at which the last of [prs] returned, or [t] when no probe
    was issued. *)
Definition clock_after (t : Z) (prs : list probe) : Z :=
  match last prs with
  | Some pr => probe_end pr
  | None => t
  end.

(** The targets that the loop over the ports goes through when no probe
    fails, in order. *)
Fixpoint probePlan (checker : SvcLatencyChecker) (svc : corev1.Service)
    (ports : list corev1.ServicePort) (ips : list string)
  : list (string * Z) :=
  match ports with
  | [] => []
  | specPort :: rest =>
      if decide (corev1.Protocol specPort = corev1.ProtocolTCP) then
        if decide (corev1.Spec_Type svc = corev1.ServiceTypeClusterIP) then
          map (fun ip => (ip, corev1.Port specPort)) (corev1.Spec_ClusterIPs svc)
          ++ probePlan checker svc rest (corev1.Spec_ClusterIPs svc)
        else if decide (corev1.Spec_Type svc = corev1.ServiceTypeNodePort) then
          [(Pod_Status_HostIP checker, corev1.NodePort specPort)]
          ++ probePlan checker svc rest [Pod_Status_HostIP checker]
        else if decide (corev1.Spec_Type svc = corev1.ServiceTypeLoadBalancer) then
          let ips' := appendIngress ips (corev1.Status_LoadBalancer_Ingress svc) in
          map (fun ip => (ip, corev1.Port specPort)) ips'
          ++ probePlan checker svc rest ips'
        else []
      else probePlan checker svc rest ips
  end.

(** The state in which the loop over the ports starts, given the state
    [p2] in which [waitForEndpoints] returned: lines 113-118 have logged
    that the endpoints are ready, obtained the checker, and logged its
    error if it had one. *)
Definition after_checker (E : Env) (svc : corev1.Service) (p2 : proc) : proc :=
  let '(d, _, err) := NewSvcLatencyChecker E (clock p2) in
  let q :=
    set_clock (clock p2 + d)
      (add_log {| logrus.Level_of := logrus.DebugLevel;
                  logrus.Message := "Endpoints " +:+ corev1.Namespace svc +:+ "/"
                                    +:+ corev1.Name svc +:+ " ready" |} p2) in
  match err with
  | Some e => add_log {| logrus.Level_of := logrus.ErrorLevel;
                         logrus.Message := e |} q
  | None => q
  end.

Definition checker_of (E : Env) (p2 : proc) : SvcLatencyChecker :=
  (NewSvcLatencyChecker E (clock p2)).1.2.

(** The debug line that precedes the store (line 151). *)
Definition latency_entry (svc : corev1.Service) (svcLatency : Z) : logrus.Entry :=
  {| logrus.Level_of := logrus.DebugLevel;
     logrus.Message := "Service " +:+ corev1.Namespace svc +:+ "/"
                       +:+ corev1.Name svc +:+ " latency was: "
                       +:+ format_int (Z.quot svcLatency Millisecond) +:+ "ms" |}.

(** What one round of the loop of [index] hands to the indexer and writes
    to the log. *)
Definition index_call (E : Env) (entry : string * list document)
  : IndexingOpts * list document :=
  ({| Opts_MetricName := entry.1 +:+ "-" +:+ config.Name (factory_jobConfig E) |},
   entry.2).

Definition index_entries (E : Env) (entry : string * list document)
  : list logrus.Entry :=
  [ {| logrus.Level_of := logrus.DebugLevel;
       logrus.Message := "Indexing [" +:+ format_int (Z.of_nat (length entry.2))
                         +:+ "] documents: " +:+ entry.1 |};
    match factory_indexer E entry.2 (index_call E entry).1 with
    | (_, Some e) => {| logrus.Level_of := logrus.ErrorLevel; logrus.Message := e |}
    | (resp, None) => {| logrus.Level_of := logrus.InfoLevel; logrus.Message := resp |}
    end ].

(** The debug line written when [handleCreateSvc] is entered (line 97). *)
Definition created_entry (svc : corev1.Service) : logrus.Entry :=
  {| logrus.Level_of := logrus.DebugLevel;
     logrus.Message := "New service created: " +:+ corev1.Namespace svc
                       +:+ "/" +:+ corev1.Name svc |}.

(** A headless service: [spec.clusterIP] is ["None"], which the API server
    mirrors in [spec.clusterIPs]; its type is ClusterIP. *)
Definition headless (svc : corev1.Service) : Prop :=
  corev1.Spec_ClusterIP svc = corev1.ClusterIPNone /\
  corev1.Spec_ClusterIPs svc = [corev1.ClusterIPNone] /\
  corev1.Spec_Type svc = corev1.ServiceTypeClusterIP.

Definition tcpPorts (svc : corev1.Service) : list corev1.ServicePort :=
  filter (fun specPort => corev1.Protocol specPort = corev1.ProtocolTCP)
         (corev1.Spec_Ports svc).

(** A service type outside the three that the [switch] handles. *)
Definition unsupported (svc : corev1.Service) : Prop :=
  corev1.Spec_Type svc <> corev1.ServiceTypeClusterIP /\
  corev1.Spec_Type svc <> corev1.ServiceTypeNodePort /\
  corev1.Spec_Type svc <> corev1.ServiceTypeLoadBalancer.

(** The goroutine that [handleCreateSvc] starts for [svc] in state [p] runs
    to its end, that is, to the store. *)
Definition completes (E : Env) (svc : corev1.Service) (p : proc) : bool :=
  match (handleCreateSvc_goroutine E svc (add_log (created_entry svc) p)).1 with
  | inl _ => true
  | inr _ => false
  end.

(** The uids of the services whose goroutine runs to its end, when the
    services are delivered one after the other from state [p]. *)
Fixpoint completed_uids (E : Env) (svcs : list corev1.Service) (p : proc)
  : list string :=
  match svcs with
  | [] => []
  | svc :: rest =>
      (if completes E svc p then [corev1.UID svc] else [])
      ++ match handleCreateSvc E svc p with
         | (inl _, p1) => completed_uids E rest p1
         | (inr _, _) => []
         end
  end.

(** The resolution of an ingress entry that the specification asks for:
    the IP when it is not empty, the hostname otherwise. *)
Definition ingressTarget_spec (ingress : corev1.LoadBalancerIngress) : string :=
  if decide (corev1.IP ingress <> EmptyString) then corev1.IP ingress
  else corev1.Hostname ingress.

End measurements.

(* ===================================================================== *)
(** ** Concrete services and environments used to run the model           *)
(* ===================================================================== *)

Module samples.
Import logrus measurements.

Definition tcp80 : corev1.ServicePort :=
  {| corev1.Protocol := "TCP"; corev1.Port := 80; corev1.NodePort := 30080 |}.
Definition tcp443 : corev1.ServicePort :=
  {| corev1.Protocol := "TCP"; corev1.Port := 443; corev1.NodePort := 30443 |}.
Definition udp53 : corev1.ServicePort :=
  {| corev1.Protocol := "UDP"; corev1.Port := 53; corev1.NodePort := 30053 |}.

Definition mkService (name uid type clusterIP : string)
    (clusterIPs : list string) (ports : list corev1.ServicePort)
    (ingress : list corev1.LoadBalancerIngress) : corev1.Service :=
  {| corev1.Namespace := "namespaced-0";
     corev1.Name := name;
     corev1.UID := uid;
     corev1.CreationTimestamp := 1000 * Millisecond;
     corev1.Spec_Type := type;
     corev1.Spec_ClusterIP := clusterIP;
     corev1.Spec_ClusterIPs := clusterIPs;
     corev1.Spec_Ports := ports;
     corev1.Status_LoadBalancer_Ingress := ingress |}.

(** A ClusterIP service with one TCP port. *)
Definition svc_clusterip : corev1.Service :=
  mkService "web" "uid-web" "ClusterIP" "10.96.0.10" ["10.96.0.10"] [tcp80] [].

(** A dual-stack ClusterIP service: two cluster IPs, one TCP port. *)
Definition svc_dualstack : corev1.Service :=
  mkService "dual" "uid-dual" "ClusterIP" "10.96.0.11"
            ["10.96.0.11"; "fd00::11"] [tcp80] [].

(** A headless service with one TCP port, and one with a UDP port only. *)
Definition svc_headless : corev1.Service :=
  mkService "headless" "uid-headless" "ClusterIP" "None" ["None"] [tcp80] [].
Definition svc_headless_udp : corev1.Service :=
  mkService "headless-dns" "uid-headless-dns" "ClusterIP" "None" ["None"]
            [udp53] [].

(** A load balancer whose only ingress entry carries an IP and no
    hostname. *)
Definition ingress_ip : corev1.LoadBalancerIngress :=
  {| corev1.IP := "203.0.113.7"; corev1.Hostname := EmptyString |}.
Definition svc_lb : corev1.Service :=
  mkService "lb" "uid-lb" "LoadBalancer" "10.96.0.12" ["10.96.0.12"]
            [tcp80] [ingress_ip].

Definition endpoints_ready : corev1.Endpoints :=
  {| corev1.Subsets := [ {| corev1.Addresses := ["10.244.0.5"] |} ] |}.

Definition job0 : config.Job :=
  {| config.Name := "namespaced"; config.SkipIndexing := false |}.

Definition checker0 : SvcLatencyChecker :=
  {| Pod_Status_HostIP := "192.168.1.10" |}.

Definition indexer_ok : Indexer := fun documents _ =>
  ("Indexing finished", None).
Definition indexer_failing : Indexer := fun _ _ =>
  (EmptyString, Some "error indexing documents").

Definition mkEnv
    (poll : Context -> Z -> bool -> (Z -> bool * option error) -> Z ->
            option (Z * option error))
    (ping : SvcLatencyChecker -> string -> Z -> Z -> Z -> Z * option error)
    (indexer : Indexer) : Env :=
  {| PollUntilContextCancel := poll;
     epLister_Get := fun t ns name =>
       if (t <? 200 * Millisecond) then None else Some endpoints_ready;
     svcLister_Get := fun t ns name =>
       if (t <? 100 * Millisecond) then None else Some svc_lb;
     NewSvcLatencyChecker := fun t => (Millisecond, checker0, None);
     Ping := ping;
     factory_indexer := indexer;
     factory_jobConfig := job0;
     factory_metadata := [("platform", "kind")];
     globalCfg_UUID := "5a1c0e0e-run";
     types_Quantiles := "quantiles" |}.

(** Probes: every connect succeeds after 5 ms, except that the address
    ["fd00::11"] takes 7 ms. *)
Definition ping_ok
  : SvcLatencyChecker -> string -> Z -> Z -> Z -> Z * option error :=
  fun _ ip _ _ _ =>
    if decide (ip = "fd00::11") then (7 * Millisecond, None)
    else (5 * Millisecond, None).
(** Probes: no connect succeeds before the timeout. *)
Definition ping_failing
  : SvcLatencyChecker -> string -> Z -> Z -> Z -> Z * option error :=
  fun _ ip _ timeout _ => (timeout, Some ("timeout waiting for " +:+ ip)).

Definition env_ok : Env := mkEnv (poll_reference 1000) ping_ok indexer_ok.
Definition env_ping_failing : Env :=
  mkEnv (poll_reference 1000) ping_failing indexer_ok.
Definition env_index_failing : Env :=
  mkEnv (poll_reference 1000) ping_ok indexer_failing.

Definition sl0 : serviceLatency :=
  {| sl_config := {| ServiceTimeout := 5000 * Millisecond;
                     ServiceLatencyMetrics := EmptyString |};
     sl_metrics := ∅;
     latencyQuantiles := [];
     normLatencies := [] |}.

Definition proc0 : proc :=
  {| clock := 0; logs := []; probes := []; indexed := []; sl := sl0 |}.

End samples.

(* ===================================================================== *)
(** ** pkg/util: template rendering                                       *)
(* ===================================================================== *)

Module template.
Import Go Util.

(** Values that travel as [interface{}] through a template. *)
Inductive any : Type :=
| AnyNil
| AnyBool (b : bool)
| AnyInt (z : Z)
| AnyStr (s : string).

(** How an action prints its value; a nil interface prints ["<no value>"]. *)
Definition print_any (v : any) : string :=
  match v with
  | AnyNil => "<no value>"
  | AnyBool true => "true"
  | AnyBool false => "false"
  | AnyInt z => format_int z
  | AnyStr s => s
  end.

(** The data handed to a template: a Go map from string to some type [T],
    given by its entries and by the zero value of [T]. *)
Record Data : Type := { entries : gmap string any; elem_zero : any }.

(** What a helper can read besides its arguments: the wall clock, what the
    random source of the process yields, and the environment of the
    process. *)
Record World : Type :=
  { wall_clock : Z;
    random_source : list Z;
    process_env : list string }.

(** A template function: a value or an error.  text/template calls helpers
    through [safeCall], which turns a panic of the helper into an error. *)
Definition helper : Type := World -> list any -> any + error.
Definition FuncMap : Type := gmap string helper.

(** [type templateOption string] and its two constants. *)
Definition templateOption : Type := string.
Definition MissingKeyError : templateOption := "missingkey=error".
Definition MissingKeyZero : templateOption := "missingkey=zero".

(** *** The part of text/template that [RenderTemplate] relies on

    A parsed template of the fragment considered here is a sequence of text,
    field actions [{{ .Key }}] and helper calls [{{ fn arg ... }}] whose
    arguments are fields or literals. *)
Inductive arg : Type :=
| ArgField (key : string)
| ArgInt (z : Z)
| ArgStr (s : string).

Inductive node : Type :=
| TextNode (text : string)
| FieldNode (key : string)
| CallNode (fn : string) (args : list arg).

Definition Template : Type := list node.

(** The [missingkey] setting of a template. *)
Inductive missingKeyAction : Type :=
| mapInvalid
| mapZeroValue
| mapError.

(** [Template.Option]: an empty option string, or one it does not know,
    makes it panic ([None]). *)
Definition setOption (opt : string) : option missingKeyAction :=
  if decide (opt = "missingkey=default") then Some mapInvalid
  else if decide (opt = "missingkey=invalid") then Some mapInvalid
  else if decide (opt = "missingkey=zero") then Some mapZeroValue
  else if decide (opt = "missingkey=error") then Some mapError
  else None.

(** A field of the data map.  For a key that is not in the map the
    [missingkey] setting decides: an invalid value (printed as
    ["<no value>"]), the zero value of the element type, or an error that
    stops the execution. *)
Definition evalField (opt : missingKeyAction) (data : Data) (key : string)
  : any + error :=
  match entries data !! key with
  | Some v => inl v
  | None =>
      match opt with
      | mapInvalid => inl AnyNil
      | mapZeroValue => inl (elem_zero data)
      | mapError => inr ("map has no entry for key " +:+ key)
      end
  end.

Definition evalArg (opt : missingKeyAction) (data : Data) (a : arg)
  : any + error :=
  match a with
  | ArgField key => evalField opt data key
  | ArgInt z => inl (AnyInt z)
  | ArgStr s => inl (AnyStr s)
  end.

Fixpoint evalArgs (opt : missingKeyAction) (data : Data) (args : list arg)
  : list any + error :=
  match args with
  | [] => inl []
  | a :: rest =>
      match evalArg opt data a with
      | inr e => inr e
      | inl v =>
          match evalArgs opt data rest with
          | inr e => inr e
          | inl vs => inl (v :: vs)
          end
      end
  end.

(** What one node writes, or the error that stops the execution. *)
Definition evalNode (funcMap : FuncMap) (w : World) (opt : missingKeyAction)
    (data : Data) (n : node) : string + error :=
  match n with
  | TextNode text => inl text
  | FieldNode key =>
      match evalField opt data key with
      | inl v => inl (print_any v)
      | inr e => inr e
      end
  | CallNode fn args =>
      match funcMap !! fn with
      | None => inr (fn +:+ " is not a defined function")
      | Some h =>
          match evalArgs opt data args with
          | inr e => inr e
          | inl vs =>
              match h w vs with
              | inl v => inl (print_any v)
              | inr e => inr ("error calling " +:+ fn +:+ ": " +:+ e)
              end
          end
      end
  end.

(** [t.Execute(&rendered, inputData)]: the nodes write to the buffer in
    order; the first error stops the execution. *)
Fixpoint Execute (funcMap : FuncMap) (w : World) (opt : missingKeyAction)
    (data : Data) (t : Template) (rendered : string) : string * option error :=
  match t with
  | [] => (rendered, None)
  | n :: rest =>
      match evalNode funcMap w opt data n with
      | inl out => Execute funcMap w opt data rest (rendered +:+ out)
      | inr e => (rendered, Some e)
      end
  end.

(** *** The function map (lines 37-61)

    The debug and trace lines that this package writes to the log are left
    out. *)

Definition AddRenderingFunction (name : string) (function : helper)
    (funcMap : FuncMap) : FuncMap :=
  <[name := function]> funcMap.

(** [GetSubnet24] and [GetIPAddress] as template functions: the arguments
    must have the declared types, and a panic comes back as an error. *)
Definition GetSubnet24_helper : helper := fun _ args =>
  match args with
  | [AnyInt subnetIdx] => inl (AnyStr (GetSubnet24 subnetIdx))
  | _ => inr "wrong number or type of arguments for GetSubnet24"
  end.

Definition GetIPAddress_helper : helper := fun _ args =>
  match args with
  | [AnyStr Addresses; AnyInt iteration; AnyInt addressesPerIteration] =>
      match GetIPAddress Addresses iteration addressesPerIteration with
      | Ok s => inl (AnyStr s)
      | Panic (IndexOutOfRange idx len) =>
          inr ("runtime error: index out of range [" +:+ format_int idx
               +:+ "] with length " +:+ format_int (Z.of_nat len))
      end
  | _ => inr "wrong number or type of arguments for GetIPAddress"
  end.

(** [var funcMap = sprig.GenericFuncMap()] followed by [init]; sprig's map
    and the two gonum functions come from outside. *)
Definition init (sprig_GenericFuncMap : FuncMap)
    (combin_Binomial combin_IndexToCombination : helper) : FuncMap :=
  let funcMap := AddRenderingFunction "Binomial" combin_Binomial
                   sprig_GenericFuncMap in
  let funcMap := AddRenderingFunction "IndexToCombination"
                   combin_IndexToCombination funcMap in
  let funcMap := <["GetSubnet24" := GetSubnet24_helper]> funcMap in
  <["GetIPAddress" := GetIPAddress_helper]> funcMap.

(** *** RenderTemplate (lines 63-76) *)

Inductive rendering : Type :=
| Rendered (bytes : string)
| RenderError (err : error)
| RenderPanic (msg : string).

Section Render.

(** [template.New(name).Option(o).Funcs(funcMap).Parse(text)]: the parser of
    text/template, which knows the names in the function map. *)
Variable Parse : FuncMap -> string -> Template + error.

Definition RenderTemplate (funcMap : FuncMap) (w : World) (original : string)
    (inputData : Data) (options : templateOption) : rendering :=
  match setOption options with
  | None =>
      RenderPanic (if decide (options = EmptyString) then "empty option string"
                   else "unrecognized option: " +:+ options)
  | Some opt =>
      match Parse funcMap original with
      | inr err => RenderError ("parsing error: " +:+ err)
      | inl t =>
          match Execute funcMap w opt inputData t EmptyString with
          | (_, Some err) => RenderError ("rendering error: " +:+ err)
          | (rendered, None) => Rendered rendered
          end
      end
  end.

End Render.

(** *** Vocabulary *)

(** The same process at another instant. *)
Definition at_time (t : Z) (w : World) : World :=
  {| wall_clock := t;
     random_source := random_source w;
     process_env := process_env w |}.

(** A helper whose result does not depend on the clock. *)
Definition time_independent (h : helper) : Prop :=
  forall (w : World) (t : Z) (args : list any), h (at_time t w) args = h w args.

(** A helper whose result is a function of its arguments: it reads neither
    the clock, nor the random source, nor the environment. *)
Definition pure_helper (h : helper) : Prop :=
  forall (w1 w2 : World) (args : list any), h w1 args = h w2 args.



(** A node that reads the key [key] of the data: a field action, or a
    helper call with the field among its arguments. *)
Definition refers_to (key : string) (n : node) : Prop :=
  n = FieldNode key
  \/ exists fn args, n = CallNode fn args /\ ArgField key ∈ args.






(** *** A parser for the fragment, to run the model on template text

    Text outside [{{ ... }}] is kept; an action is a field [.Key] or a
    helper name followed by arguments ([.Key], a decimal number, or a
    double-quoted string without spaces).  Anything else (control
    structures, pipelines, variables) lies outside the fragment and is
    answered with an error, also where text/template would accept it.
    The errors carry the prefix that text/template gives them for a
    template without a name, on its first line. *)
Definition parse_error (msg : string) : error := "template: :1: " +:+ msg.

Definition quoted (s : string) : string :=
  String "034"%char (s +:+ String "034"%char EmptyString).

Definition parse_arg (word : string) : arg + error :=
  match word with
  | String "."%char key => inl (ArgField key)
  | String "034"%char rest =>
      inl (ArgStr (String.substring 0 (String.length rest - 1) rest))
  | _ =>
      match NilZero.uint_of_string word with
      | Some d => inl (ArgInt (Z.of_N (N.of_uint d)))
      | None => inr (parse_error ("unexpected " +:+ quoted word +:+ " in operand"))
      end
  end.

Fixpoint parse_args (ws : list string) : list arg + error :=
  match ws with
  | [] => inl []
  | word :: rest =>
      match parse_arg word, parse_args rest with
      | inl a, inl args => inl (a :: args)
      | inr e, _ => inr e
      | _, inr e => inr e
      end
  end.

Definition parse_action (funcMap : FuncMap) (body : string) : node + error :=
  match String.words body with
  | [] => inr (parse_error "missing value for command")
  | [String "."%char key] => inl (FieldNode key)
  | fn :: ws =>
      match funcMap !! fn with
      | None => inr (parse_error ("function " +:+ quoted fn +:+ " not defined"))
      | Some _ =>
          match parse_args ws with
          | inl args => inl (CallNode fn args)
          | inr e => inr e
          end
      end
  end.

Fixpoint parse_fragment_go (fuel : nat) (funcMap : FuncMap) (s : string)
  : Template + error :=
  match fuel with
  | O => inl []
  | S fuel' =>
      match String.index 0 "{{" s with
      | None => inl (if decide (s = EmptyString) then [] else [TextNode s])
      | Some i =>
          let text := String.substring 0 i s in
          let rest := String.substring (i + 2) (String.length s - (i + 2)) s in
          match String.index 0 "}}" rest with
          | None => inr (parse_error "unclosed action")
          | Some j =>
              let body := String.substring 0 j rest in
              let tail :=
                String.substring (j + 2) (String.length rest - (j + 2)) rest in
              match parse_action funcMap body,
                    parse_fragment_go fuel' funcMap tail with
              | inl n, inl ns =>
                  inl ((if decide (text = EmptyString) then [] else [TextNode text])
                       ++ n :: ns)
              | inr e, _ => inr e
              | _, inr e => inr e
              end
          end
      end
  end.

Definition parse_fragment (funcMap : FuncMap) (s : string) : Template + error :=
  parse_fragment_go (S (String.length s)) funcMap s.

End template.

Module template_samples.
Import template.

(** The function map after [init], with an empty sprig map and stand-ins
    for the two gonum functions. *)
Definition funcMap0 : FuncMap :=
  init ∅ (fun _ _ => inr "Binomial: not modelled")
         (fun _ _ => inr "IndexToCombination: not modelled").


Definition world0 : World :=
  {| wall_clock := 0; random_source := [7; 30; 55; 12; 3];
     process_env := ["HOME=/root"] |}.
(** The same process one second later. *)
Definition world1 : World := at_time 1000000000 world0.

(** Two lines of test/k8s/kube-burner-userdata.yml, and a call of a
    helper. *)
Definition manifest_qps_burst : string := "qps: {{ .QPS }} burst: {{ .BURST }}".





End template_samples.

(* ===================================================================== *)
(** ** pkg/util: EnvToMap (lines 78-86)                                   *)
(* ===================================================================== *)

Module util_env.
Import Go template.

(** [strings.SplitN(s, "=", 2)]: the whole string when it has no ['='],
    otherwise what stands before the first ['='] and what follows it. *)
Fixpoint SplitN2_eq (s : string) : list string :=
  match s with
  | EmptyString => [EmptyString]
  | String c rest =>
      if Ascii.eqb c "="%char then [EmptyString; rest]
      else match SplitN2_eq rest with
           | [] => [String c EmptyString]
           | w :: ws => String c w :: ws
           end
  end.

(** The loop over [os.Environ()]: [envMap[envVar[0]] = envVar[1]]. *)
Fixpoint EnvToMap_loop (environ : list string) (envMap : gmap string any)
  : result (gmap string any) :=
  match environ with
  | [] => Ok envMap
  | v :: rest =>
      let envVar := SplitN2_eq v in
      match at_index envVar 0 with
      | Panic p => Panic p
      | Ok key =>
          match at_index envVar 1 with
          | Panic p => Panic p
          | Ok value => EnvToMap_loop rest (<[key := AnyStr value]> envMap)
          end
      end
  end.

(** [EnvToMap], given what [os.Environ()] returns: the entries of the
    process environment, each name once. *)
Definition EnvToMap (os_Environ : list string) : result (gmap string any) :=
  EnvToMap_loop os_Environ ∅.

(** *** Vocabulary *)

(** The string contains the character ['=']. *)
Fixpoint has_eq (s : string) : bool :=
  match s with
  | EmptyString => false
  | String c rest => Ascii.eqb c "="%char || has_eq rest
  end.

(** The string contains a space. *)
Fixpoint has_space (s : string) : bool :=
  match s with
  | EmptyString => false
  | String c rest => Ascii.eqb c " "%char || has_space rest
  end.

(** The name of an environment entry: what stands before its first ['=']. *)
Definition env_name (v : string) : string := hd EmptyString (SplitN2_eq v).

(** The value of an environment entry: what follows its first ['=']. *)
Definition env_value (v : string) : string :=
  nth 1 (SplitN2_eq v) EmptyString.

(** The value of the entry of the environment with the given name (of the
    last one, should a list name it twice, which [os.Environ()] does
    not). *)
Fixpoint env_lookup (environ : list string) (name : string) : option string :=
  match environ with
  | [] => None
  | v :: rest =>
      match env_lookup rest name with
      | Some x => Some x
      | None => if decide (env_name v = name) then Some (env_value v) else None
      end
  end.

(** The map of [EnvToMap] as the data of a template
    ([map[string]interface{}]: the zero value is the nil interface). *)
Definition env_data (envMap : gmap string any) : Data :=
  {| entries := envMap; elem_zero := AnyNil |}.

End util_env.

(* ===================================================================== *)
(** ** service_latency.go: the life cycle of the measurement              *)
(* ===================================================================== *)

Module lifecycle.
Import Go logrus measurements.

(** An error of the API server, with what [errors.IsAlreadyExists] says of
    it. *)
Record apiError : Type := { api_err : error; IsAlreadyExists : bool }.

(** The requests and watcher operations that leave the process. *)
Inductive api_call : Type :=
| CreateNamespace (name : string)
| CreatePod (namespace name : string)
| DeleteNamespace (name : string)
| StartWatcher (name resource labelSelector : string)
| StopWatcher (name : string).

(** What lies outside the file, besides [Env]: the answers of the API
    server and of the watchers, [metrics.NewLatencySummary], the conversion
    to [float64], the order in which Go ranges over the two maps, the names
    of [types.SvcLatencyNs] and [types.SvcLatencyChecker], and two more
    fields of [globalCfg]. *)
Record Env2 : Type :=
  { env : Env;
    Namespaces_Create : string -> option apiError;
    Pods_Create : string -> string -> option apiError;
    StartAndCacheSync : string -> option error;
    NewLatencySummary : list float64 -> string -> LatencyQuantiles;
    float64_of_duration : Z -> float64;
    rangeMetrics : gmap string svcMetric -> list (string * svcMetric);
    rangeMetricMap :
      gmap string (list document) -> list (string * list document);
    SvcLatencyNs_Name : string;
    SvcLatencyChecker_Name : string;
    globalCfg_RUNID : string;
    globalCfg_IndexerConfig_Type : string }.

(** The process, with the requests it has sent and the number of
    [measurementWg.Done()] it has made. *)
Record kproc : Type :=
  { kbase : proc; api_calls : list api_call; wg_done : nat }.

Definition MK (A : Type) : Type := kproc -> (A + signal) * kproc.

#[global] Instance MK_ret : MRet MK := fun A a k => (inl a, k).
#[global] Instance MK_bind : MBind MK := fun A B f m k =>
  match m k with
  | (inl a, k') => f a k'
  | (inr sg, k') => (inr sg, k')
  end.

(** A computation on [proc], run inside the larger state. *)
Definition lift {A : Type} (m : M A) : MK A := fun k =>
  let '(r, p') := m (kbase k) in
  (r, {| kbase := p'; api_calls := api_calls k; wg_done := wg_done k |}).

Definition api (c : api_call) : MK unit := fun k =>
  (inl tt, {| kbase := kbase k; api_calls := api_calls k ++ [c];
              wg_done := wg_done k |}).

Definition wg_Done : MK unit := fun k =>
  (inl tt, {| kbase := kbase k; api_calls := api_calls k;
              wg_done := S (wg_done k) |}).

Section WithEnv2.
Variable K : Env2.

(** Lines 74-92.  An AlreadyExists answer is a warning; any other error is
    returned at once. *)
Definition deployAssets : MK (option apiError) :=
  api (CreateNamespace (SvcLatencyNs_Name K)) ;;
  failed ←
    match Namespaces_Create K (SvcLatencyNs_Name K) with
    | Some err =>
        if IsAlreadyExists err
        then lift (log WarnLevel (api_err err)) ;; mret None
        else mret (Some err)
    | None => mret None
    end;
  match failed with
  | Some err => mret (Some err)
  | None =>
      api (CreatePod (SvcLatencyNs_Name K) (SvcLatencyChecker_Name K)) ;;
      match Pods_Create K (SvcLatencyNs_Name K) (SvcLatencyChecker_Name K) with
      | Some err =>
          if IsAlreadyExists err
          then lift (log WarnLevel (api_err err)) ;; mret None
          else mret (Some err)
      | None => mret None
      end
  end.

(** Lines 169-175. *)
Definition setConfig (cfg : Measurement) : M (option error) :=
  (fun p =>
     (inl tt,
      set_sl {| sl_config := cfg; sl_metrics := sl_metrics (sl p);
                latencyQuantiles := latencyQuantiles (sl p);
                normLatencies := normLatencies (sl p) |} p)) ;;
  if decide (ServiceTimeout cfg = 0)
  then log_Fatal "svcTimeout not set in service latency measurement"
  else mret None.

(** [w.StartAndCacheSync()] of the watcher built by [metrics.NewWatcher]
    with the given name, resource and label selector. *)
Definition startWatcher (name resource labelSelector : string)
  : MK (option error) :=
  api (StartWatcher name resource labelSelector) ;;
  mret (StartAndCacheSync K name).

(** Lines 178-217; the deferred [measurementWg.Done()] runs when the
    function returns, not when the process exits. *)
Definition start : MK (option error) :=
  r ← (err ← deployAssets;
       match err with
       | Some e => lift (log_Fatal (api_err e))
       | None => mret tt
       end ;;
       lift (log InfoLevel ("Creating service latency watcher for "
                            +:+ config.Name (factory_jobConfig (env K)))) ;;
       err ← startWatcher "svcWatcher" "services"
               ("kube-burner-runid=" +:+ globalCfg_RUNID K);
       match err with
       | Some e => mret (Some ("Service Latency measurement error: " +:+ e))
       | None =>
           err ← startWatcher "epWatcher" "endpoints" EmptyString;
           match err with
           | Some e =>
               mret (Some ("Service Latency measurement error: " +:+ e))
           | None => mret None
           end
       end);
  wg_Done ;;
  mret r.

(** Lines 244-250: the loop over [s.metrics], in the order Go chose. *)
Fixpoint normalizeMetrics_range (entries : list (string * svcMetric))
    (latencies ipAssignedLatencies : list float64)
    (normLatencies : list document)
  : list float64 * list float64 * list document :=
  match entries with
  | [] => (latencies, ipAssignedLatencies, normLatencies)
  | (_, metric) :: rest =>
      normalizeMetrics_range rest
        (latencies ++ [float64_of_duration K (ReadyLatency metric)])
        (if decide (IPAssignedLatency metric <> 0)
         then ipAssignedLatencies
              ++ [float64_of_duration K (IPAssignedLatency metric)]
         else ipAssignedLatencies)
        (normLatencies ++ [DocSvcMetric metric])
  end.

(** Lines 251-259. *)
Definition calcSummary (now : Z) (name : string)
    (inputLatencies : list float64) : LatencyQuantiles :=
  let latencySummary := NewLatencySummary K inputLatencies name in
  {| QuantileName := QuantileName latencySummary;
     Q_UUID := globalCfg_UUID (env K);
     P99 := P99 latencySummary; P95 := P95 latencySummary;
     P50 := P50 latencySummary; Max := Max latencySummary;
     Avg := Avg latencySummary;
     Q_Timestamp := now;
     Q_MetricName := svcLatencyQuantilesMeasurement;
     Q_JobConfig := factory_jobConfig (env K);
     Q_Metadata := factory_metadata (env K) |}.

(** Lines 241-264. *)
Definition normalizeMetrics : M unit := fun p =>
  let s := sl p in
  let '(latencies, ipAssignedLatencies, norm) :=
    normalizeMetrics_range (rangeMetrics K (sl_metrics s)) [] []
      (normLatencies s) in
  let quantiles :=
    [DocLatencyQuantiles (calcSummary (clock p) "Ready" latencies)] in
  let quantiles :=
    if (0 <? length ipAssignedLatencies)%nat
    then quantiles
         ++ [DocLatencyQuantiles
               (calcSummary (clock p) "IPAssigned" ipAssignedLatencies)]
    else quantiles in
  (inl tt,
   set_sl {| sl_config := sl_config s; sl_metrics := sl_metrics s;
             latencyQuantiles := quantiles; normLatencies := norm |} p).

(** Lines 233-237: one line per summary; the type assertion
    [q.(metrics.LatencyQuantiles)] panics on any other document, which ends
    the process with exit code 2. *)
Definition quantile_entry (pq : LatencyQuantiles) : Entry :=
  {| Level_of := InfoLevel;
     Message := config.Name (factory_jobConfig (env K)) +:+ ": "
                +:+ QuantileName pq
                +:+ " 50th: " +:+ format_int (Z.quot (P50 pq) 1000000)
                +:+ "ms 99th: " +:+ format_int (Z.quot (P99 pq) 1000000)
                +:+ "ms max: " +:+ format_int (Z.quot (Max pq) 1000000)
                +:+ "ms avg: " +:+ format_int (Z.quot (Avg pq) 1000000)
                +:+ "ms" |}.

Fixpoint logQuantiles (quantiles : list document) : M unit :=
  match quantiles with
  | [] => mret tt
  | DocLatencyQuantiles pq :: rest =>
      (fun p => (inl tt, add_log (quantile_entry pq) p)) ;;
      logQuantiles rest
  | _ :: _ => measurements.stop (Exited 2)
  end.

(** Lines 219-239. *)
Definition stop : MK (option error) :=
  api (StopWatcher "svcWatcher") ;;
  api (StopWatcher "epWatcher") ;;
  api (DeleteNamespace (SvcLatencyNs_Name K)) ;;
  lift normalizeMetrics ;;
  (if decide (globalCfg_IndexerConfig_Type K <> EmptyString) then
     if config.SkipIndexing (factory_jobConfig (env K)) then
       lift (log InfoLevel
               ("Skipping service latency data indexing in job: "
                +:+ config.Name (factory_jobConfig (env K))))
     else
       lift (log InfoLevel
               ("Indexing service latency data for job: "
                +:+ config.Name (factory_jobConfig (env K)))) ;;
       s ← lift get_sl;
       lift (index (env K)
               (rangeMetricMap K (index_metricMap (env K) s)))
   else mret tt) ;;
  s ← lift get_sl;
  lift (logQuantiles (latencyQuantiles s)) ;;
  mret None.

(** Lines 318-320. *)
Definition collect : MK unit := wg_Done.

End WithEnv2.

(** *** Vocabulary *)

(** Go ranges over each map in some order of its entries. *)
Definition ranges_fairly (K : Env2) : Prop :=
  (forall m, rangeMetrics K m ≡ₚ map_to_list m) /\
  (forall m, rangeMetricMap K m ≡ₚ map_to_list m).

(** An error that is not tolerated by [deployAssets]. *)
Definition fatal_api_error (r : option apiError) : Prop :=
  exists err, r = Some err /\ IsAlreadyExists err = false.

Definition is_summary (d : document) : bool :=
  match d with DocLatencyQuantiles _ => true | _ => false end.

(** The documents of the metrics map, in the order of the list. *)
Definition metric_documents (entries : list (string * svcMetric))
  : list document :=
  map (fun entry => DocSvcMetric entry.2) entries.

End lifecycle.

(** Vocabulary for the time that the probes of a run take. *)
Module timeline.
Import measurements.

Definition probe_duration (pr : probe) : Z := probe_end pr - probe_start pr.

Definition total_duration (prs : list probe) : Z :=
  foldr (fun pr acc => probe_duration pr + acc) 0 prs.

(** The probes follow one another without a gap, the first one starting
    at [t]. *)
Fixpoint back_to_back (t : Z) (prs : list probe) : Prop :=
  match prs with
  | [] => True
  | pr :: rest => probe_start pr = t /\ back_to_back (probe_end pr) rest
  end.

(** The probe records a call of [Ping] and what it answered. *)
Definition answered_by (E : Env) (pr : probe) : Prop :=
  exists checker timeout,
    Ping E checker (probe_ip pr) (probe_port pr) timeout (probe_start pr)
    = (probe_duration pr, probe_err pr).

(** The state [p'] is reached from [p] by the probes [prs], made one
    after the other; the log is left aside. *)
Definition probed (E : Env) (p : proc) (prs : list probe) (p' : proc) : Prop :=
  probes p' = probes p ++ prs /\
  clock p' = clock_after (clock p) prs /\
  back_to_back (clock p) prs /\
  Forall (answered_by E) prs.

(** The number of TCP ports of the service. *)
Definition tcpPortCount (svc : corev1.Service) : nat := length (tcpPorts svc).

End timeline.

(** More services to run the model on. *)
Module more_samples.
Import measurements samples.

(** A NodePort service with two TCP ports and a UDP port between them. *)
Definition svc_nodeport : corev1.Service :=
  mkService "np" "uid-np" "NodePort" "10.96.0.13" ["10.96.0.13"]
            [tcp80; udp53; tcp443] [].

(** A load balancer with two TCP ports and one ingress entry, which
    carries a hostname only. *)
Definition ingress_hostname : corev1.LoadBalancerIngress :=
  {| corev1.IP := EmptyString; corev1.Hostname := "lb.example.com" |}.
Definition svc_lb_two_ports : corev1.Service :=
  mkService "lb2" "uid-lb2" "LoadBalancer" "10.96.0.14" ["10.96.0.14"]
            [tcp80; tcp443] [ingress_hostname].

(** An ExternalName service, a type that the [switch] does not handle,
    with a TCP port and with a UDP port only. *)
Definition svc_externalname : corev1.Service :=
  mkService "ext" "uid-ext" "ExternalName" EmptyString [] [tcp80] [].
Definition svc_externalname_udp : corev1.Service :=
  mkService "ext-dns" "uid-ext-dns" "ExternalName" EmptyString [] [udp53] [].

(** A cluster in which the endpoints never become ready. *)
Definition env_never_ready : Env :=
  {| PollUntilContextCancel := poll_reference 1000;
     epLister_Get := fun _ _ _ => None;
     svcLister_Get := fun _ _ _ => Some svc_lb;
     NewSvcLatencyChecker := fun t => (Millisecond, checker0, None);
     Ping := ping_ok;
     factory_indexer := indexer_ok;
     factory_jobConfig := job0;
     factory_metadata := [];
     globalCfg_UUID := "5a1c0e0e-run";
     types_Quantiles := "quantiles" |}.

(** A measurement configured to index the quantiles only. *)
Definition sl_quantiles : serviceLatency :=
  {| sl_config := {| ServiceTimeout := 5000 * Millisecond;
                     ServiceLatencyMetrics := "quantiles" |};
     sl_metrics := ∅;
     latencyQuantiles := [];
     normLatencies := [] |}.

End more_samples.

(** Concrete surroundings for the life cycle. *)
Module lifecycle_samples.
Import measurements lifecycle samples.

Definition already_exists : apiError :=
  {| api_err := "namespaces kube-burner-service-latency already exists";
     IsAlreadyExists := true |}.
Definition forbidden : apiError :=
  {| api_err := "namespaces is forbidden"; IsAlreadyExists := false |}.

Definition summary0 (name : string) : LatencyQuantiles :=
  {| QuantileName := name; Q_UUID := EmptyString;
     P99 := 0; P95 := 0; P50 := 0; Max := 0; Avg := 0;
     Q_Timestamp := 0; Q_MetricName := EmptyString;
     Q_JobConfig := job0; Q_Metadata := [] |}.

Definition mkEnv2 (E : Env) (ns pod : option apiError)
    (sync : string -> option error) (indexerType : string) : Env2 :=
  {| env := E;
     Namespaces_Create := fun _ => ns;
     Pods_Create := fun _ _ => pod;
     StartAndCacheSync := sync;
     NewLatencySummary := fun _ name => summary0 name;
     float64_of_duration := fun d => d;
     rangeMetrics := map_to_list;
     rangeMetricMap := map_to_list;
     SvcLatencyNs_Name := "kube-burner-service-latency";
     SvcLatencyChecker_Name := "svc-checker";
     globalCfg_RUNID := "run-1";
     globalCfg_IndexerConfig_Type := indexerType |}.

Definition env2_ok : Env2 :=
  mkEnv2 env_ok (Some already_exists) None (fun _ => None) "local".
Definition env2_forbidden : Env2 :=
  mkEnv2 env_ok (Some forbidden) None (fun _ => None) "local".
Definition env2_sync_failing : Env2 :=
  mkEnv2 env_ok None None
         (fun name => if decide (name = "svcWatcher")
                      then Some "timed out waiting for caches to sync"
                      else None) "local".

Definition kproc0 : kproc :=
  {| kbase := proc0; api_calls := []; wg_done := 0 |}.

End lifecycle_samples.

Import Go Util.

Example GetSubnet24_0 : GetSubnet24 0 = "1.0.0.0/24".
Proof. reflexivity. Qed.
Example GetSubnet24_258 : GetSubnet24 258 = "1.1.2.0/24".
Proof. reflexivity. Qed.
Example GetIPAddress_ex :
  GetIPAddress "10.0.0.1 10.0.0.2 10.0.0.3 10.0.0.4" 1 2 = Ok "10.0.0.3 10.0.0.4".
Proof. reflexivity. Qed.
Example GetIPAddress_oob :
  GetIPAddress "10.0.0.1 10.0.0.2 10.0.0.3" 1 2 = Panic (IndexOutOfRange 3 3).
Proof. reflexivity. Qed.
Example GetIPAddress_wrap :
  GetIPAddress "a b c d" (2 ^ 62) 4 = Ok "a b c d".
Proof. vm_compute. reflexivity. Qed.

(* ===================================================================== *)
(** ** Facts about the Go primitives                                      *)
(* ===================================================================== *)

Section GoFacts.

Lemma int_wrap_id z : is_int z -> int_wrap z = z.
Proof.
    unfold is_int, min_int, max_int, int_wrap. intros H.
    rewrite Z.mod_small; lia.
Qed.

Lemma byte_of_int_mod z : byte_of_int z = z mod 256.
Proof.
    unfold byte_of_int. change 255 with (Z.ones 8).
    now rewrite Z.land_ones.
Qed.

Lemma at_index_in_range {A} (s : list A) (i : Z) a :
    0 <= i -> s !! Z.to_nat i = Some a -> at_index s i = Ok a.
Proof.
    intros Hi Hs. unfold at_index.
    destruct (Z.ltb_spec i 0); [lia|]. now rewrite Hs.
Qed.

Lemma at_index_out_of_range {A} (s : list A) (i : Z) :
    Z.of_nat (length s) <= i -> at_index s i = Panic (IndexOutOfRange i (length s)).
Proof.
    intros Hi. unfold at_index.
    destruct (Z.ltb_spec i 0); [reflexivity|].
    rewrite (proj2 (lookup_ge_None s (Z.to_nat i))); [reflexivity|lia].
Qed.

Lemma append_assoc (a b c : string) : ((a ++ b) ++ c = a ++ (b ++ c))%string.
Proof.
    induction a as [|x a IH]; [reflexivity|].
    change (String x ((a ++ b) ++ c) = String x (a ++ (b ++ c)))%string.
    f_equal; exact IH.
Qed.

Lemma dot_free_uint d : dot_free (NilEmpty.string_of_uint d) = true.
Proof. induction d; simpl; auto. Qed.

Lemma dot_free_itoa z : dot_free (itoa z) = true.
Proof.
    unfold itoa, NilZero.string_of_uint.
    destruct (N.to_uint (Z.to_N z)) eqn:E; try reflexivity;
      rewrite <- E at 1; try (rewrite E; apply dot_free_uint).
Qed.

Lemma append_nil_l (s : string) : (EmptyString ++ s = s)%string.
Proof. reflexivity. Qed.

Lemma append_cons c (s r : string) :
    (String c s ++ r = String c (s ++ r))%string.
Proof. reflexivity. Qed.

  (** The text before the first ['.'] determines the split. *)
Lemma dot_split_inj (s1 s2 r1 r2 : string) :
    dot_free s1 = true -> dot_free s2 = true ->
    (s1 ++ String "."%char r1 = s2 ++ String "."%char r2)%string ->
    s1 = s2 /\ r1 = r2.
Proof.
    revert s2. induction s1 as [|c s1 IH]; intros [|c2 s2] H1 H2 E;
      rewrite ?append_nil_l, ?append_cons in E; simpl in H1, H2.
    - inversion E. auto.
    - inversion E; subst. now rewrite Ascii.eqb_refl in H2.
    - inversion E; subst. now rewrite Ascii.eqb_refl in H1.
    - injection E as -> E.
      apply andb_prop in H1 as [_ H1]. apply andb_prop in H2 as [_ H2].
      destruct (IH s2 H1 H2 E) as [-> ->]. auto.
Qed.

Lemma itoa_inj a b : 0 <= a -> 0 <= b -> itoa a = itoa b -> a = b.
Proof.
    unfold itoa. intros Ha Hb E.
    assert (Hn : forall n, N.to_uint n <> Decimal.Nil).
    { intros n Hn. pose proof (Unsigned.of_to n) as Hot. rewrite Hn in Hot.
      destruct n; [discriminate|]. simpl in Hn.
      unfold N.to_uint in Hn. simpl in Hn.
      revert Hn. apply DecimalPos.Unsigned.to_uint_nonnil. }
    pose proof (NilZero.usu _ (Hn (Z.to_N a))) as Ua.
    pose proof (NilZero.usu _ (Hn (Z.to_N b))) as Ub.
    rewrite E, Ub in Ua. injection Ua as Ua.
    apply Unsigned.to_uint_inj in Ua. lia.
Qed.

End GoFacts.

(* ===================================================================== *)
(** ** GetSubnet24                                                        *)
(* ===================================================================== *)

Lemma GetSubnet24_unfold (i : Z) :
  GetSubnet24 i =
  (itoa (byte_of_int (int_add (int_shr i 16) 1)) ++ "." ++
   itoa (byte_of_int (int_shr i 8)) ++ "." ++
   itoa (byte_of_int i) ++ ".0/24")%string.
Proof.
  unfold GetSubnet24, AddrFrom4_String.
  rewrite !append_assoc. reflexivity.
Qed.

Lemma shr_int_bounds (i k : Z) :
  0 <= i <= max_int -> 0 <= k -> 0 <= Z.shiftr i k <= max_int.
Proof.
  intros Hi Hk. rewrite Z.shiftr_div_pow2 by assumption.
  assert (0 < 2 ^ k) by (apply Z.pow_pos_nonneg; lia).
  split.
  - apply Z.div_pos; lia.
  - apply Z.le_trans with i; [|lia]. apply Z.div_le_upper_bound; nia.
Qed.

(** C6, as stated, fails at [i = 256]: the third octet is [byte(256) = 0],
    not 256. *)
Lemma GetSubnet24_not_untruncated :
  GetSubnet24 256 = "1.1.0.0/24" /\
  subnetFor24_spec 256 = "1.1.256.0/24" /\
  ~ (forall i, 0 <= i -> GetSubnet24 i = subnetFor24_spec i).
Proof.
  split; [reflexivity|]. split; [reflexivity|].
  intros H. specialize (H 256 ltac:(lia)). vm_compute in H. discriminate H.
Qed.

(** C6 (amended): for every non-negative [int] [i], [GetSubnet24 i] is the
    dotted form ["a.b.c.0/24"] whose octets are the low eight bits of
    [(i>>16)+1], [i>>8] and [i]; it coincides with the untruncated form
    of the specification exactly when [i < 256]. *)
Theorem GetSubnet24_octets (i : Z) :
  0 <= i <= max_int ->
  GetSubnet24 i =
    (itoa ((i / 65536 + 1) mod 256) ++ "." ++ itoa ((i / 256) mod 256) ++ "."
     ++ itoa (i mod 256) ++ ".0/24")%string
  /\ (GetSubnet24 i = subnetFor24_spec i <-> i < 256).
Proof.
  intros Hi.
  assert (E : GetSubnet24 i =
    (itoa ((i / 65536 + 1) mod 256) ++ "." ++ itoa ((i / 256) mod 256) ++ "."
     ++ itoa (i mod 256) ++ ".0/24")%string).
  { rewrite GetSubnet24_unfold. unfold int_add, int_shr.
    pose proof (shr_int_bounds i 16 Hi ltac:(lia)) as H16.
    rewrite int_wrap_id.
    2:{ unfold is_int, min_int, max_int in *.
        rewrite Z.shiftr_div_pow2 in * by lia.
        assert (i / 2 ^ 16 < 2 ^ 47) by (apply Z.div_lt_upper_bound; lia).
        lia. }
    rewrite !byte_of_int_mod, !Z.shiftr_div_pow2 by lia.
    reflexivity. }
  split; [exact E|].
  split.
  - intros Heq. rewrite E in Heq. unfold subnetFor24_spec in Heq.
    apply dot_split_inj in Heq as [_ Heq]; try apply dot_free_itoa.
    apply dot_split_inj in Heq as [_ Heq]; try apply dot_free_itoa.
    apply dot_split_inj in Heq as [Heq _]; try apply dot_free_itoa.
    apply itoa_inj in Heq; [| apply Z.mod_pos_bound; lia | lia].
    pose proof (Z.mod_pos_bound i 256 ltac:(lia)). lia.
  - intros Hlt. rewrite E. unfold subnetFor24_spec.
    rewrite !Z.shiftr_div_pow2 by lia.
    change (2 ^ 16) with 65536. change (2 ^ 8) with 256.
    rewrite (Z.div_small i 65536), (Z.div_small i 256) by lia.
    rewrite (Z.mod_small i 256) by lia. reflexivity.
Qed.

Lemma GetSubnet24_octets_witness :
  0 <= 70000 <= max_int /\
  GetSubnet24 70000 = "2.17.112.0/24" /\
  (GetSubnet24 70000 = subnetFor24_spec 70000 <-> 70000 < 256).
Proof.
  assert (H : 0 <= 70000 <= max_int) by (unfold max_int; lia).
  split; [exact H|].
  destruct (GetSubnet24_octets 70000 H) as [E I].
  split; [rewrite E; reflexivity | exact I].
Defined.

(* ===================================================================== *)
(** ** GetIPAddress                                                       *)
(* ===================================================================== *)

Section GetIPAddressFacts.

Variable addrSlice : list string.
Variables iteration addressesPerIteration base : Z.

Hypothesis base_def : base = iteration * addressesPerIteration.
Hypothesis base_nonneg : 0 <= base.

(** While every index of the remaining window is inside the slice, the loop
    appends the window to what it has collected. *)
Lemma GetIPAddress_loop_in_range (k : nat) :
  forall (j : Z) (retAddrs : list string),
    0 <= j ->
    base + j + Z.of_nat k <= Z.of_nat (length addrSlice) ->
    Z.of_nat (length addrSlice) <= max_int ->
    GetIPAddress_loop addrSlice iteration addressesPerIteration k j retAddrs
    = Ok (retAddrs ++ take k (drop (Z.to_nat (base + j)) addrSlice)).
Proof.
  induction k as [|k IH]; intros j retAddrs Hj Hlen Hmax.
  - simpl. now rewrite app_nil_r.
  - cbn [GetIPAddress_loop].
    assert (Hb : is_int base) by (unfold is_int, min_int, max_int in *; lia).
    unfold int_mul, int_add. rewrite <- base_def, (int_wrap_id base Hb).
    rewrite (int_wrap_id (base + j))
      by (unfold is_int, min_int, max_int in *; lia).
    rewrite (int_wrap_id (j + 1))
      by (unfold is_int, min_int, max_int in *; lia).
    destruct (lookup_lt_is_Some_2 addrSlice (Z.to_nat (base + j))
                ltac:(lia)) as [a Ha].
    rewrite (at_index_in_range _ _ a) by (lia || assumption).
    rewrite (IH (j + 1) (retAddrs ++ [a]) ltac:(lia) ltac:(lia) Hmax).
    rewrite (drop_S _ _ _ Ha). cbn [take].
    replace (Z.to_nat (base + (j + 1))) with (S (Z.to_nat (base + j))) by lia.
    now rewrite <- app_assoc.
Qed.

(** As soon as the remaining window reaches past the end of the slice, the
    loop panics. *)
Lemma GetIPAddress_loop_panics (k : nat) :
  forall (j : Z) (retAddrs : list string),
    0 <= j -> (0 < k)%nat ->
    Z.of_nat (length addrSlice) < base + j + Z.of_nat k <= max_int ->
    exists idx,
      Z.of_nat (length addrSlice) <= idx /\
      GetIPAddress_loop addrSlice iteration addressesPerIteration k j retAddrs
      = Panic (IndexOutOfRange idx (length addrSlice)).
Proof.
  induction k as [|k IH]; intros j retAddrs Hj Hk Hlen; [lia|].
  cbn [GetIPAddress_loop].
  assert (Hb : is_int base) by (unfold is_int, min_int, max_int in *; lia).
  unfold int_mul, int_add. rewrite <- base_def, (int_wrap_id base Hb).
  rewrite (int_wrap_id (base + j))
    by (unfold is_int, min_int, max_int in *; lia).
  rewrite (int_wrap_id (j + 1))
    by (unfold is_int, min_int, max_int in *; lia).
  destruct (Z_lt_le_dec (base + j) (Z.of_nat (length addrSlice))) as [Hin|Hout].
  - destruct (lookup_lt_is_Some_2 addrSlice (Z.to_nat (base + j))
                ltac:(lia)) as [a Ha].
    rewrite (at_index_in_range _ _ a) by (lia || assumption).
    destruct (IH (j + 1) (retAddrs ++ [a]) ltac:(lia) ltac:(lia) ltac:(lia))
      as (idx & Hidx & E).
    exists idx. split; [exact Hidx|]. exact E.
  - exists (base + j). split; [exact Hout|].
    now rewrite at_index_out_of_range.
Qed.

End GetIPAddressFacts.

(** C10, as stated, fails when [iteration * addressesPerIteration] leaves the
    64-bit range: [2^62 * 4] wraps to 0, so the four accesses hit indices
    0..3 of a four-element list although the list is far shorter than
    [(i+1) * n]. *)
Lemma GetIPAddress_wraps_in_range :
  0 <= 2 ^ 62 <= max_int /\ 0 <= 4 <= max_int /\
  Z.of_nat (length (Split_space "a b c d")) < (2 ^ 62 + 1) * 4 /\
  GetIPAddress "a b c d" (2 ^ 62) 4 = Ok "a b c d".
Proof.
  unfold max_int. repeat split; try lia; vm_compute; reflexivity.
Qed.

(** C10 (amended): for an address string, an iteration [i >= 0] and
    [n >= 0] addresses per iteration (both Go ints):
    - if [(i+1) * n] is at most the number of space-separated addresses,
      [GetIPAddress] returns the [n] addresses at indices [i*n .. (i+1)*n-1]
      joined by single spaces, every access being in bounds;
    - if the list is shorter than [(i+1) * n] and [(i+1) * n] does not exceed
      the largest int, an index access is out of range and the call
      panics. *)
Theorem GetIPAddress_window (Addresses : string) (i n : Z) :
  let addrSlice := Split_space Addresses in
  let len := Z.of_nat (length addrSlice) in
  len <= max_int -> 0 <= i <= max_int -> 0 <= n <= max_int ->
  ((i + 1) * n <= len ->
     GetIPAddress Addresses i n
     = Ok (Join (take (Z.to_nat n) (drop (Z.to_nat (i * n)) addrSlice)) " ")
     /\ length (take (Z.to_nat n) (drop (Z.to_nat (i * n)) addrSlice))
        = Z.to_nat n)
  /\ (len < (i + 1) * n <= max_int ->
     exists idx,
       len <= idx /\
       GetIPAddress Addresses i n
       = Panic (IndexOutOfRange idx (length addrSlice))).
Proof.
  intros addrSlice len Hlen Hi Hn.
  assert (Hbase : 0 <= i * n) by nia.
  split.
  - intros Hfit. unfold GetIPAddress. fold addrSlice.
    rewrite (GetIPAddress_loop_in_range addrSlice i n (i * n) eq_refl Hbase
               (Z.to_nat n) 0 []) by (fold len; lia).
    rewrite Z.add_0_r. split; [reflexivity|].
    rewrite length_take, length_drop. fold len in Hfit |- *. lia.
  - intros Hshort. unfold GetIPAddress. fold addrSlice.
    destruct (GetIPAddress_loop_panics addrSlice i n (i * n) eq_refl Hbase
                (Z.to_nat n) 0 []) as (idx & Hidx & E);
      [lia | nia | fold len; lia |].
    exists idx. split; [exact Hidx|]. now rewrite E.
Qed.

Lemma GetIPAddress_window_witness :
  GetIPAddress "10.0.0.1 10.0.0.2 10.0.0.3 10.0.0.4" 1 2
    = Ok "10.0.0.3 10.0.0.4"
  /\ exists idx, 3 <= idx /\
       GetIPAddress "10.0.0.1 10.0.0.2 10.0.0.3" 1 2
       = Panic (IndexOutOfRange idx 3).
Proof.
  split.
  - refine (proj1 (proj1 (GetIPAddress_window
        "10.0.0.1 10.0.0.2 10.0.0.3 10.0.0.4" 1 2 _ _ _) _));
      unfold max_int; simpl; lia.
  - refine (proj2 (GetIPAddress_window "10.0.0.1 10.0.0.2 10.0.0.3" 1 2 _ _ _) _);
      unfold max_int; simpl; lia.
Defined.

(* ===================================================================== *)
(** ** Service latency: how the pieces of the goroutine run               *)
(* ===================================================================== *)

Import logrus measurements.

Lemma bind_run {A B : Type} (m : M A) (f : A -> M B) (p : proc) :
  (m ≫= f) p =
  match m p with
  | (inl a, p') => f a p'
  | (inr sg, p') => (inr sg, p')
  end.
Proof. reflexivity. Qed.

Lemma ret_run {A : Type} (a : A) (p : proc) : (mret a : M A) p = (inl a, p).
Proof. reflexivity. Qed.

Lemma log_run (l : Level) (msg : string) (p : proc) :
  log l msg p = (inl tt, add_log {| Level_of := l; Message := msg |} p).
Proof. reflexivity. Qed.

Lemma log_Fatal_run {A : Type} (msg : string) (p : proc) :
  (log_Fatal msg : M A) p
  = (inr (Exited 1), add_log {| Level_of := FatalLevel; Message := msg |} p).
Proof. reflexivity. Qed.

Lemma clock_after_app (t : Z) (prs1 prs2 : list probe) :
  clock_after (clock_after t prs1) prs2 = clock_after t (prs1 ++ prs2).
Proof.
  unfold clock_after. destruct prs2 as [|pr prs2] using rev_ind.
  - rewrite app_nil_r. simpl. reflexivity.
  - rewrite app_assoc, !last_snoc. reflexivity.
Qed.

Lemma clock_after_snoc (t : Z) (prs : list probe) (pr : probe) :
  clock_after t (prs ++ [pr]) = probe_end pr.
Proof. unfold clock_after. now rewrite last_snoc. Qed.

(** With a context that is never done and a condition that never reports
    an error, the polling helper returns no error: it succeeds or goes on
    polling. *)
Lemma poll_rounds_no_error (fuel : nat) (interval : Z)
    (condition : Z -> bool * option error) :
  (forall t, (condition t).2 = None) ->
  forall t t' e,
    poll_rounds fuel context_TODO interval condition t <> Some (t', Some e).
Proof.
  intros Hcond. induction fuel as [|fuel IH]; intros t t' e; [discriminate|].
  cbn [poll_rounds]. unfold context_TODO at 1.
  specialize (Hcond t). destruct (condition t) as [[|] [e0|]];
    cbn in Hcond; try discriminate. apply IH.
Qed.

Lemma poll_reference_no_error (fuel : nat) (interval : Z) (immediate : bool)
    (condition : Z -> bool * option error) :
  (forall t, (condition t).2 = None) ->
  forall t t' e,
    poll_reference fuel context_TODO interval immediate condition t
    <> Some (t', Some e).
Proof.
  intros Hcond t t' e. unfold poll_reference.
  destruct immediate; [|now apply poll_rounds_no_error].
  pose proof (Hcond t) as Ht. destruct (condition t) as [[|] [e0|]];
    cbn in Ht; try discriminate. now apply poll_rounds_no_error.
Qed.

(** Hence, under that behaviour of the helper, the two waits of this file
    never hand an error to [handleCreateSvc]: its two [log.Fatal] are
    reached only if the helper itself gives up. *)
Lemma waits_return_no_error (E : Env) (fuel : nat) (svc : corev1.Service)
    (p : proc) (e : error) (p' : proc) :
  PollUntilContextCancel E = poll_reference fuel ->
  waitForEndpoints E svc p <> (inl (Some e), p') /\
  waitForIngress E svc p <> (inl (Some e), p').
Proof.
  intros Hpoll. unfold waitForEndpoints, waitForIngress. rewrite Hpoll.
  split.
  - pose proof (poll_reference_no_error fuel (50 * Millisecond) true
                  (waitForEndpoints_condition E svc)) as H.
    destruct (poll_reference fuel context_TODO (50 * Millisecond) true
                (waitForEndpoints_condition E svc) (clock p))
      as [[t' [e'|]]|] eqn:Hr; try discriminate.
    exfalso. apply (H ltac:(intros t; unfold waitForEndpoints_condition;
                            destruct (epLister_Get E t _ _); reflexivity)
                      (clock p) t' e'). exact Hr.
  - pose proof (poll_reference_no_error fuel (100 * Millisecond) true
                  (waitForIngress_condition E svc)) as H.
    destruct (poll_reference fuel context_TODO (100 * Millisecond) true
                (waitForIngress_condition E svc) (clock p))
      as [[t' [e'|]]|] eqn:Hr; try discriminate.
    exfalso. apply (H ltac:(intros t; unfold waitForIngress_condition;
                            destruct (svcLister_Get E t _ _); reflexivity)
                      (clock p) t' e'). exact Hr.
Qed.

(** When it succeeds, it does so at the first polling instant at which the
    condition holds. *)
Lemma poll_rounds_first_success (fuel : nat) (interval : Z)
    (condition : Z -> bool * option error) :
  (forall t, (condition t).2 = None) ->
  forall t t',
    poll_rounds fuel context_TODO interval condition t = Some (t', None) ->
    exists k : nat,
      t' = t + Z.of_nat k * interval /\ (condition t').1 = true /\
      forall j : nat,
        (j < k)%nat -> (condition (t + Z.of_nat j * interval)).1 = false.
Proof.
  intros Hcond. induction fuel as [|fuel IH]; intros t t' H; [discriminate|].
  cbn [poll_rounds] in H. unfold context_TODO at 1 in H.
  pose proof (Hcond t) as Ht.
  destruct (condition t) as [[|] [e0|]] eqn:Hc; cbn in Ht; try discriminate.
  - injection H as <-. exists O. rewrite Hc. split; [lia|].
    split; [reflexivity|]. intros j Hj. lia.
  - destruct (IH _ _ H) as (k & -> & Hdone & Hbefore).
    exists (S k). split; [lia|]. split; [exact Hdone|].
    intros [|j] Hj.
    + rewrite Z.mul_0_l, Z.add_0_r, Hc. reflexivity.
    + specialize (Hbefore j ltac:(lia)).
      replace (t + Z.of_nat (S j) * interval)
        with (t + interval + Z.of_nat j * interval) by lia.
      exact Hbefore.
Qed.

(** [endpointsReadyTs]: under the reference behaviour of the helper,
    [waitForEndpoints] returns at the first of the instants [clock p],
    [clock p + 50ms], ... at which the lister shows an endpoints object of
    the service with an address. *)
Lemma waitForEndpoints_first_ready (E : Env) (fuel : nat)
    (svc : corev1.Service) (p p2 : proc) :
  PollUntilContextCancel E = poll_reference fuel ->
  waitForEndpoints E svc p = (inl None, p2) ->
  exists k : nat,
    clock p2 = clock p + Z.of_nat k * (50 * Millisecond) /\
    (waitForEndpoints_condition E svc (clock p2)).1 = true /\
    forall j : nat,
      (j < k)%nat ->
      (waitForEndpoints_condition E svc
         (clock p + Z.of_nat j * (50 * Millisecond))).1 = false.
Proof.
  intros Hpoll. unfold waitForEndpoints. rewrite Hpoll.
  assert (Hcond : forall t, (waitForEndpoints_condition E svc t).2 = None).
  { intros t. unfold waitForEndpoints_condition.
    destruct (epLister_Get E t _ _); reflexivity. }
  unfold poll_reference.
  pose proof (Hcond (clock p)) as H0.
  destruct (waitForEndpoints_condition E svc (clock p)) as [[|] [e0|]] eqn:Hc;
    cbn in H0; try discriminate.
  - intros [= <-]. exists O. cbn [clock set_clock]. rewrite Hc.
    split; [lia|]. split; [reflexivity|]. intros j Hj. lia.
  - destruct (poll_rounds fuel context_TODO (50 * Millisecond)
                (waitForEndpoints_condition E svc)
                (clock p + 50 * Millisecond)) as [[t' [e'|]]|] eqn:Hr;
      try discriminate.
    intros [= <-]. cbn [clock set_clock].
    destruct (poll_rounds_first_success _ _ _ Hcond _ _ Hr)
      as (k & -> & Hdone & Hbefore).
    exists (S k). split; [lia|]. split; [exact Hdone|].
    intros [|j] Hj.
    + rewrite Z.mul_0_l, Z.add_0_r, Hc. reflexivity.
    + specialize (Hbefore j ltac:(lia)).
      replace (clock p + Z.of_nat (S j) * (50 * Millisecond))
        with (clock p + 50 * Millisecond + Z.of_nat j * (50 * Millisecond))
        by lia.
      exact Hbefore.
Qed.

Section RunFacts.

Variable E : Env.

(** What a call of [Ping] leaves behind. *)
Lemma call_Ping_run checker ip port timeout (p : proc) :
  exists pr,
    call_Ping E checker ip port timeout p
    = (inl (probe_err pr), add_probe pr (set_clock (probe_end pr) p))
    /\ target pr = (ip, port) /\ probe_start pr = clock p.
Proof.
  unfold call_Ping.
  destruct (Ping E checker ip port timeout (clock p)) as [d err].
  eexists {| probe_ip := ip; probe_port := port; probe_start := clock p;
             probe_end := clock p + d; probe_err := err |}.
  simpl. auto.
Qed.

(** The loop over the addresses: either every probe succeeds, or the first
    failure is logged at error level and the goroutine returns. *)
Lemma pingLoop_run checker timeout port (ips : list string) :
  forall p : proc,
  exists prs,
    Forall (fun pr => probe_port pr = port) prs /\
    match pingLoop E checker timeout ips port p with
    | (inl _, p') =>
        p' = {| clock := clock_after (clock p) prs; logs := logs p;
                probes := probes p ++ prs; indexed := indexed p; sl := sl p |}
        /\ Forall probe_ok prs /\ map probe_ip prs = ips
    | (inr sg, p') =>
        sg = Returned /\
        exists oks pr e,
          prs = oks ++ [pr] /\ Forall probe_ok oks /\ probe_err pr = Some e /\
          map probe_ip prs `prefix_of` ips /\
          p' = {| clock := probe_end pr;
                  logs := logs p ++ [{| Level_of := ErrorLevel; Message := e |}];
                  probes := probes p ++ prs; indexed := indexed p; sl := sl p |}
    end.
Proof.
  induction ips as [|ip rest IH]; intros p.
  - exists []. split; [constructor|]. cbn [pingLoop]. rewrite ret_run.
    rewrite app_nil_r. destruct p; simpl. auto.
  - cbn [pingLoop]. rewrite bind_run.
    destruct (call_Ping_run checker ip port timeout p) as (pr & -> & Ht & Hs).
    injection Ht as Hip Hport.
    destruct (probe_err pr) as [e|] eqn:Herr.
    + exists [pr]. split; [repeat constructor; exact Hport|].
      rewrite bind_run, log_run. cbn.
      split; [reflexivity|]. exists [], pr, e.
      repeat split; auto.
      rewrite Hip. exists rest. reflexivity.
    + specialize (IH (add_probe pr (set_clock (probe_end pr) p))).
      destruct IH as (prs & Hports & IH).
      exists (pr :: prs). split; [constructor; assumption|].
      destruct (pingLoop E checker timeout rest port
                  (add_probe pr (set_clock (probe_end pr) p))) as [[[]|sg] p'].
      * destruct IH as (-> & Hok & Hips). cbn.
        repeat split.
        -- f_equal.
           ++ change (probe_end pr) with (clock_after (clock p) [pr]) at 1.
              rewrite clock_after_app. reflexivity.
           ++ now rewrite <- app_assoc.
        -- constructor; assumption.
        -- now rewrite Hip, Hips.
      * destruct IH as (-> & oks & pr' & e & -> & Hoks & He & Hpre & ->).
        split; [reflexivity|]. exists (pr :: oks), pr', e. cbn.
        repeat split; auto.
        -- rewrite Hip. now apply prefix_cons.
        -- now rewrite <- app_assoc.
Qed.

Lemma targets_of_ips (prs : list probe) (port : Z) :
  Forall (fun pr => probe_port pr = port) prs ->
  map target prs = map (fun ip => (ip, port)) (map probe_ip prs).
Proof.
  induction 1 as [|pr prs Hp _ IH]; [reflexivity|].
  cbn [map]. rewrite <- IH. unfold target at 1. now rewrite Hp.
Qed.

(** The [switch] on the service type, for a TCP port. *)
Lemma resolveTargets_cases checker svc specPort rest (ips : list string)
    (p : proc) :
  corev1.Protocol specPort = corev1.ProtocolTCP ->
  (exists ips' port',
      resolveTargets checker svc specPort ips p = (inl (ips', port'), p) /\
      probePlan checker svc (specPort :: rest) ips
      = map (fun ip => (ip, port')) ips' ++ probePlan checker svc rest ips')
  \/ (unsupported svc /\
      probePlan checker svc (specPort :: rest) ips = [] /\
      resolveTargets checker svc specPort ips p
      = (inr Returned,
         add_log {| Level_of := WarnLevel;
                    Message := "Service type " +:+ corev1.Spec_Type svc
                               +:+ " not supported, skipping" |} p)).
Proof.
  intros Htcp. unfold resolveTargets. cbn [probePlan].
  destruct (decide (corev1.Protocol specPort = corev1.ProtocolTCP));
    [|contradiction].
  destruct (decide (corev1.Spec_Type svc = corev1.ServiceTypeClusterIP)).
  { left. eexists _, _. split; reflexivity. }
  destruct (decide (corev1.Spec_Type svc = corev1.ServiceTypeNodePort)).
  { left. eexists _, _. split; reflexivity. }
  destruct (decide (corev1.Spec_Type svc = corev1.ServiceTypeLoadBalancer)).
  { left. eexists _, _. split; reflexivity. }
  right. repeat split; assumption.
Qed.

(** The loop over the ports: the probes it issues follow [probePlan]; it
    changes nothing but the clock, the log and the list of probes; it ends
    early only by returning from the goroutine, after a failed probe (logged
    at error level) or on a service type it does not support (logged at
    warning level). *)
Lemma portsLoop_run checker timeout svc (ports : list corev1.ServicePort) :
  forall (ips : list string) (port : Z) (p : proc),
  exists prs,
    map target prs `prefix_of` probePlan checker svc ports ips /\
    match portsLoop E checker timeout svc ports ips port p with
    | (inl _, p') =>
        p' = {| clock := clock_after (clock p) prs; logs := logs p;
                probes := probes p ++ prs; indexed := indexed p; sl := sl p |}
        /\ Forall probe_ok prs
        /\ map target prs = probePlan checker svc ports ips
    | (inr sg, p') =>
        sg = Returned /\ sl p' = sl p /\ indexed p' = indexed p /\
        probes p' = probes p ++ prs /\
        ((exists oks pr e,
             prs = oks ++ [pr] /\ Forall probe_ok oks /\
             probe_err pr = Some e /\ clock p' = probe_end pr /\
             logs p' = logs p ++ [{| Level_of := ErrorLevel; Message := e |}])
         \/ (Forall probe_ok prs /\ unsupported svc /\
             exists msg,
               logs p' = logs p ++ [{| Level_of := WarnLevel; Message := msg |}]))
    end.
Proof.
  induction ports as [|specPort rest IH]; intros ips port p.
  - exists []. split; [reflexivity|]. cbn [portsLoop]. rewrite ret_run.
    rewrite app_nil_r. destruct p; cbn. auto.
  - cbn [portsLoop].
    destruct (decide (corev1.Protocol specPort = corev1.ProtocolTCP)) as [Htcp|Hno].
    2:{ destruct (IH ips port p) as (prs & Hpre & H). exists prs.
        cbn [probePlan].
        destruct (decide (corev1.Protocol specPort = corev1.ProtocolTCP));
          [contradiction|]. split; assumption. }
    rewrite bind_run.
    destruct (resolveTargets_cases checker svc specPort rest ips p Htcp)
      as [(ips' & port' & -> & ->) | (Hun & -> & ->)].
    2:{ exists []. split; [reflexivity|].
        repeat split; auto; try (now rewrite app_nil_r).
        right. split; [constructor|]. split; [exact Hun|].
        eexists. reflexivity. }
    rewrite bind_run.
    destruct (pingLoop_run checker timeout port' ips' p) as (prs1 & Hports & H1).
    pose proof (targets_of_ips prs1 port' Hports) as Ht1.
    destruct (pingLoop E checker timeout ips' port' p) as [[[]|sg] p1].
    + destruct H1 as (-> & Hok1 & Hips1). rewrite Hips1 in Ht1.
      match goal with
      | |- context [portsLoop E checker timeout svc rest ips' port' ?q] =>
          destruct (IH ips' port' q) as (prs2 & Hpre2 & H2);
          destruct (portsLoop E checker timeout svc rest ips' port' q)
            as [[[]|sg] p2]
      end.
      * destruct H2 as (-> & Hok2 & Ht2). cbn in *.
        exists (prs1 ++ prs2). rewrite map_app, Ht1, Ht2.
        split; [reflexivity|]. repeat split.
        -- now rewrite clock_after_app, <- app_assoc.
        -- apply Forall_app; auto.
      * destruct H2 as (-> & Hsl & Hix & Hpr & Hcase). cbn in *.
        exists (prs1 ++ prs2). rewrite map_app, Ht1.
        split; [now apply prefix_app|].
        repeat split; auto; [now rewrite Hpr, <- app_assoc|].
        destruct Hcase as [(oks & pr & e & -> & Hoks & He & Hck & Hlog)
                          |(Hok2 & Hun & msg & Hlog)].
        -- left. exists (prs1 ++ oks), pr, e. rewrite app_assoc.
           repeat split; auto. apply Forall_app; auto.
        -- right. split; [apply Forall_app; auto|]. split; [exact Hun|].
           exists msg. exact Hlog.
    + destruct H1 as (-> & oks & pr & e & -> & Hoks & He & Hpre & ->).
      exists (oks ++ [pr]). rewrite Ht1.
      split.
      { apply prefix_app_r. destruct Hpre as [k Hk].
        exists (map (fun ip => (ip, port')) k).
        now rewrite <- map_app, <- Hk. }
      cbn. repeat split; auto.
      left. exists oks, pr, e. repeat split; auto.
Qed.

(** [waitForEndpoints] either never returns or moves the clock and hands
    back the error of the polling helper. *)
Lemma waitForEndpoints_run svc (p : proc) :
  waitForEndpoints E svc p = (inr Blocked, p)
  \/ exists t' err, waitForEndpoints E svc p = (inl err, set_clock t' p).
Proof.
  unfold waitForEndpoints.
  destruct (PollUntilContextCancel E _ _ _ _ _) as [[t' err]|]; eauto.
Qed.

(** Lines 103-109. *)
Lemma waitIngressIfLoadBalancer_run svc (now : Z) (p : proc) :
  (corev1.Spec_Type svc <> corev1.ServiceTypeLoadBalancer /\
   waitIngressIfLoadBalancer E svc now p = (inl 0, p))
  \/ (corev1.Spec_Type svc = corev1.ServiceTypeLoadBalancer /\
      (waitIngressIfLoadBalancer E svc now p = (inr Blocked, p)
       \/ (exists t' e,
              waitForIngress E svc p = (inl (Some e), set_clock t' p) /\
              waitIngressIfLoadBalancer E svc now p
              = (inr (Exited 1),
                 add_log {| Level_of := FatalLevel; Message := e |}
                         (set_clock t' p)))
       \/ (exists t',
              waitForIngress E svc p = (inl None, set_clock t' p) /\
              waitIngressIfLoadBalancer E svc now p
              = (inl (t' - now), set_clock t' p)))).
Proof.
  unfold waitIngressIfLoadBalancer.
  destruct (decide (corev1.Spec_Type svc = corev1.ServiceTypeLoadBalancer))
    as [Hlb|Hlb]; [right; split; [exact Hlb|] | left; split; [exact Hlb|reflexivity]].
  rewrite bind_run. unfold waitForIngress.
  destruct (PollUntilContextCancel E _ _ _ _ _) as [[t' [e|]]|].
  - right; left. exists t', e. split; reflexivity.
  - right; right. exists t'. split; reflexivity.
  - left. reflexivity.
Qed.

(** The goroutine, phase by phase. *)
Lemma goroutine_eq svc (p : proc) :
  handleCreateSvc_goroutine E svc p =
  match waitIngressIfLoadBalancer E svc (clock p) p with
  | (inr sg, p1) => (inr sg, p1)
  | (inl lat, p1) =>
      match waitForEndpoints E svc p1 with
      | (inr sg, p2) => (inr sg, p2)
      | (inl (Some e), p2) =>
          (inr (Exited 1), add_log {| Level_of := FatalLevel; Message := e |} p2)
      | (inl None, p2) =>
          let p3 := after_checker E svc p2 in
          match portsLoop E (checker_of E p2)
                  (ServiceTimeout (sl_config (sl p3))) svc
                  (corev1.Spec_Ports svc) [] 0 p3 with
          | (inr sg, p4) => (inr sg, p4)
          | (inl _, p4) =>
              storeMetric E svc (clock p4 - clock p2) lat
                (add_log (latency_entry svc (clock p4 - clock p2)) p4)
          end
      end
  end.
Proof.
  unfold handleCreateSvc_goroutine, after_checker, checker_of.
  unfold mbind, M_bind, time_Now at 1.
  destruct (waitIngressIfLoadBalancer E svc (clock p) p) as [[lat|sg] p1];
    [|reflexivity].
  destruct (waitForEndpoints E svc p1) as [[[e|]|sg] p2]; try reflexivity.
  unfold mret, M_ret, time_Now, log, call_NewSvcLatencyChecker, get_sl,
    time_Since. cbn [clock add_log set_clock].
  destruct (NewSvcLatencyChecker E (clock p2)) as [[d checker] [e|]];
    cbn [fst snd clock add_log set_clock sl];
    match goal with
    | |- context [portsLoop E checker ?t svc ?ps [] 0 ?q] =>
        destruct (portsLoop E checker t svc ps [] 0 q) as [[[]|sg] p4]
    end; reflexivity.
Qed.

Lemma handleCreateSvc_eq svc (p : proc) :
  handleCreateSvc E svc p
  = go (handleCreateSvc_goroutine E svc) (add_log (created_entry svc) p).
Proof. reflexivity. Qed.

Lemma waitForEndpoints_frame svc (p p2 : proc) r :
  waitForEndpoints E svc p = (r, p2) ->
  sl p2 = sl p /\ probes p2 = probes p /\ indexed p2 = indexed p /\
  logs p2 = logs p /\ (r = inr Blocked \/ exists err, r = inl err).
Proof.
  intros H. destruct (waitForEndpoints_run svc p) as [Hb | (t' & err & Hr)];
    rewrite H in *; [injection Hb as -> -> | injection Hr as -> ->];
    repeat split; eauto.
Qed.

Lemma waitIngress_frame svc (now : Z) (p p1 : proc) r :
  waitIngressIfLoadBalancer E svc now p = (r, p1) ->
  sl p1 = sl p /\ probes p1 = probes p /\ indexed p1 = indexed p /\
  match r with
  | inl _ => logs p1 = logs p
  | inr Blocked => p1 = p
  | inr (Exited c) =>
      c = 1 /\ corev1.Spec_Type svc = corev1.ServiceTypeLoadBalancer /\
      exists e t',
        waitForIngress E svc p = (inl (Some e), set_clock t' p) /\
        p1 = add_log {| Level_of := FatalLevel; Message := e |} (set_clock t' p)
  | inr Returned => False
  end.
Proof.
  intros H.
  destruct (waitIngressIfLoadBalancer_run svc now p)
    as [[Hn Hr] | [Hlb [Hr | [(t' & e & Hw & Hr) | (t' & Hw & Hr)]]]];
    rewrite H in Hr; injection Hr as -> ->; repeat split; eauto.
Qed.

Lemma after_checker_frame svc (p2 : proc) :
  sl (after_checker E svc p2) = sl p2 /\
  probes (after_checker E svc p2) = probes p2 /\
  indexed (after_checker E svc p2) = indexed p2.
Proof.
  unfold after_checker.
  destruct (NewSvcLatencyChecker E (clock p2)) as [[d c] [e|]]; cbn; auto.
Qed.

(** Everything a run of the goroutine can do, by the way it ends. *)
Lemma goroutine_spec svc (p : proc) :
  exists prs,
    let '(r, p') := handleCreateSvc_goroutine E svc p in
    probes p' = probes p ++ prs /\ indexed p' = indexed p /\
    match r with
    | inl _ =>
        exists lat p1 p2,
          waitIngressIfLoadBalancer E svc (clock p) p = (inl lat, p1) /\
          waitForEndpoints E svc p1 = (inl None, p2) /\
          Forall probe_ok prs /\
          map target prs
          = probePlan (checker_of E p2) svc (corev1.Spec_Ports svc) [] /\
          clock p' = clock_after (clock (after_checker E svc p2)) prs /\
          sl p' = set_metrics
                    (<[corev1.UID svc :=
                         newSvcMetric E svc (clock p' - clock p2) lat]>
                       (sl_metrics (sl p))) (sl p)
    | inr Returned =>
        sl p' = sl p /\
        exists lat p1 p2,
          waitIngressIfLoadBalancer E svc (clock p) p = (inl lat, p1) /\
          waitForEndpoints E svc p1 = (inl None, p2) /\
          map target prs
            `prefix_of` probePlan (checker_of E p2) svc (corev1.Spec_Ports svc) [] /\
          ((exists oks pr e,
               prs = oks ++ [pr] /\ Forall probe_ok oks /\
               probe_err pr = Some e /\
               logs p' = logs (after_checker E svc p2)
                         ++ [{| Level_of := ErrorLevel; Message := e |}])
           \/ (Forall probe_ok prs /\ unsupported svc /\
               exists msg,
                 logs p' = logs (after_checker E svc p2)
                           ++ [{| Level_of := WarnLevel; Message := msg |}]))
    | inr (Exited c) =>
        c = 1 /\ sl p' = sl p /\ prs = [] /\
        exists e,
          logs p' = logs p ++ [{| Level_of := FatalLevel; Message := e |}] /\
          ((corev1.Spec_Type svc = corev1.ServiceTypeLoadBalancer /\
            exists t', waitForIngress E svc p = (inl (Some e), set_clock t' p))
           \/ (exists lat p1 t2,
                 waitIngressIfLoadBalancer E svc (clock p) p = (inl lat, p1) /\
                 waitForEndpoints E svc p1 = (inl (Some e), set_clock t2 p1)))
    | inr Blocked => sl p' = sl p /\ prs = [] /\ logs p' = logs p
    end.
Proof.
  rewrite goroutine_eq.
  destruct (waitIngressIfLoadBalancer E svc (clock p) p) as [[lat|sg] p1] eqn:Hi.
  2:{ exists []. rewrite app_nil_r.
      destruct (waitIngress_frame _ _ _ _ _ Hi) as (Hsl & Hpr & Hix & Hr).
      repeat (split; [assumption|]).
      destruct sg as [|c|]; [contradiction| |].
      - destruct Hr as (-> & Hlb & e & t' & Hw & ->).
        repeat (split; [auto|]). exists e. split; [reflexivity|].
        left. split; [exact Hlb|]. exists t'. exact Hw.
      - subst p1. auto. }
  destruct (waitIngress_frame _ _ _ _ _ Hi) as (Hsl1 & Hpr1 & Hix1 & Hlg1).
  destruct (waitForEndpoints E svc p1) as [[[e|]|sg] p2] eqn:Hw.
  - (* the wait for the endpoints returned an error *)
    exists []. rewrite app_nil_r.
    destruct (waitForEndpoints_frame _ _ _ _ Hw) as (Hsl & Hpr & Hix & Hlg & _).
    destruct (waitForEndpoints_run svc p1) as [Hb | (t2 & err & Hr)];
      rewrite Hw in *; [discriminate|]. injection Hr as <- ->.
    cbn. rewrite Hpr1, Hix1, Hsl1, Hlg1.
    repeat (split; [auto|]). exists e. split; [reflexivity|].
    right. exists lat, p1, t2. split; [reflexivity|exact Hw].
  - (* the endpoints are ready *)
    destruct (waitForEndpoints_frame _ _ _ _ Hw) as (Hsl & Hpr & Hix & Hlg & _).
    destruct (after_checker_frame svc p2) as (Hsl3 & Hpr3 & Hix3).
    cbn zeta.
    destruct (portsLoop_run (checker_of E p2)
                (ServiceTimeout (sl_config (sl (after_checker E svc p2))))
                svc (corev1.Spec_Ports svc) [] 0 (after_checker E svc p2))
      as (prs & Hpre & H).
    exists prs.
    destruct (portsLoop E _ _ svc _ [] 0 (after_checker E svc p2))
      as [[[]|sg] p4].
    + destruct H as (-> & Hok & Hplan). cbn.
      rewrite Hpr3, Hpr, Hpr1, Hix3, Hix, Hix1.
      repeat (split; [reflexivity|]).
      exists lat, p1, p2. rewrite Hsl3, Hsl, Hsl1. repeat split; auto.
    + destruct H as (-> & Hsl4 & Hix4 & Hpr4 & Hcase).
      rewrite Hpr4, Hpr3, Hpr, Hpr1, Hix4, Hix3, Hix, Hix1.
      repeat (split; [reflexivity|]).
      rewrite Hsl4, Hsl3, Hsl, Hsl1. split; [reflexivity|].
      exists lat, p1, p2. repeat (split; [auto|]).
      destruct Hcase as [(oks & pr & e & -> & Hoks & He & _ & Hlog)
                        |(Hok & Hun & msg & Hlog)].
      * left. exists oks, pr, e. repeat split; auto.
      * right. split; [exact Hok|]. split; [exact Hun|].
        exists msg. exact Hlog.
  - (* the wait for the endpoints never returns *)
    exists []. rewrite app_nil_r.
    destruct (waitForEndpoints_frame _ _ _ _ Hw) as (Hsl & Hpr & Hix & Hlg & Hr).
    destruct Hr as [[= ->] | [err [=]]].
    rewrite Hpr, Hpr1, Hix, Hix1, Hsl, Hsl1, Hlg, Hlg1. auto.
Qed.

End RunFacts.

(** Under the reference behaviour of the polling helper the goroutine
    never ends the process. *)
Lemma goroutine_never_exits (E : Env) (fuel : nat) (svc : corev1.Service)
    (p : proc) c :
  PollUntilContextCancel E = poll_reference fuel ->
  (handleCreateSvc_goroutine E svc p).1 <> inr (Exited c).
Proof.
  intros Hpoll Hex.
  destruct (goroutine_spec E svc p) as (prs & H).
  destruct (handleCreateSvc_goroutine E svc p) as [r p']. cbn in Hex. subst r.
  destruct H as (_ & _ & _ & _ & _ & e & _ & Hcase).
  destruct Hcase as [(_ & t' & Hw)|(lat & p1 & t2 & _ & Hw)].
  - now apply (waits_return_no_error E fuel svc p e _ Hpoll) in Hw.
  - now apply (waits_return_no_error E fuel svc p1 e _ Hpoll) in Hw.
Qed.

(* ===================================================================== *)
(** ** Service latency: the properties                                    *)
(* ===================================================================== *)

Import samples.

Lemma appendIngress_eq (ips : list string)
    (ingresses : list corev1.LoadBalancerIngress) :
  appendIngress ips ingresses
  = ips ++ map (fun ingress =>
                  if decide (corev1.IP ingress <> EmptyString)
                  then corev1.Hostname ingress else corev1.IP ingress)
               ingresses.
Proof.
  revert ips. induction ingresses as [|ingress rest IH]; intros ips; cbn.
  - now rewrite app_nil_r.
  - destruct (decide (corev1.IP ingress <> EmptyString)); rewrite IH, <- app_assoc;
      reflexivity.
Qed.

(** For an entry with an IP the code takes the hostname, and for an entry
    without one it takes the (empty) IP: it agrees with the resolution of
    the specification only when both give the same string. *)
Lemma appendIngress_vs_spec (ips : list string)
    (ingress : corev1.LoadBalancerIngress) :
  appendIngress ips [ingress] = ips ++ [ingressTarget_spec ingress]
  <-> (corev1.IP ingress = EmptyString /\ corev1.Hostname ingress = EmptyString)
      \/ (corev1.IP ingress <> EmptyString /\ corev1.Hostname ingress = corev1.IP ingress).
Proof.
  rewrite appendIngress_eq. unfold ingressTarget_spec. cbn.
  destruct (decide (corev1.IP ingress <> EmptyString)) as [Hip|Hip]; split.
  - intros H. apply app_inv_head in H. injection H as H. right. auto.
  - intros [[H _]|[_ H]]; [contradiction|]. now rewrite H.
  - intros H. apply app_inv_head in H. injection H as H.
    destruct (decide (corev1.IP ingress = EmptyString)) as [H0|]; [|contradiction].
    left. split; [exact H0|]. now rewrite <- H, H0.
  - intros [[H1 H2]|[H _]]; [|contradiction]. now rewrite H1, H2.
Qed.

(** C1 (the code at the failing input): for a LoadBalancer service whose
    ingress entry has the IP 203.0.113.7 and no hostname, the resolution
    asked for is that IP, but [handleCreateSvc] probes the empty hostname. *)
Theorem handleCreateSvc_lb_probes_hostname :
  map ingressTarget_spec (corev1.Status_LoadBalancer_Ingress svc_lb)
  = ["203.0.113.7"]
  /\ map target (probes (handleCreateSvc env_ok svc_lb proc0).2) = [(EmptyString, 80)].
Proof. split; vm_compute; reflexivity. Qed.

Section Claims.

Variable E : Env.


(** On a ClusterIP service with a single cluster IP, the plan is one probe
    of that address per TCP port. *)
Lemma probePlan_single_ClusterIP checker svc (ip : string)
    (ports : list corev1.ServicePort) (ips : list string) :
  corev1.Spec_Type svc = corev1.ServiceTypeClusterIP ->
  corev1.Spec_ClusterIPs svc = [ip] ->
  probePlan checker svc ports ips
  = map (fun specPort => (ip, corev1.Port specPort))
        (filter (fun specPort => corev1.Protocol specPort = corev1.ProtocolTCP)
                ports).
Proof.
  intros Hty Hips. revert ips.
  induction ports as [|specPort rest IH]; intros ips; [reflexivity|].
  cbn [probePlan]. rewrite filter_cons.
  destruct (decide (corev1.Protocol specPort = corev1.ProtocolTCP)); [|apply IH].
  destruct (decide (corev1.Spec_Type svc = corev1.ServiceTypeClusterIP));
    [|contradiction].
  rewrite Hips, IH. reflexivity.
Qed.

(** C3 (amended): a headless service gets no special treatment.  Once its
    endpoints are ready, [handleCreateSvc] probes the literal address
    ["None"] on each TCP port, in order, up to the first failure; at least
    one probe is issued when the service has a TCP port; a run that reaches
    its end has issued one successful probe per TCP port (none when there
    is no TCP port) and records a sample under the service's uid; any other
    run leaves the measurement unchanged. *)
Theorem headless_probed_like_ClusterIP (svc : corev1.Service) (p : proc)
    r (p' : proc) :
  headless svc ->
  handleCreateSvc_goroutine E svc p = (r, p') ->
  exists prs,
    probes p' = probes p ++ prs /\
    map target prs
      `prefix_of` map (fun specPort => (corev1.ClusterIPNone, corev1.Port specPort))
                      (tcpPorts svc) /\
    (forall p2, waitForEndpoints E svc p = (inl None, p2) ->
                tcpPorts svc <> [] -> prs <> []) /\
    (r = inl tt ->
       map target prs
       = map (fun specPort => (corev1.ClusterIPNone, corev1.Port specPort))
             (tcpPorts svc) /\
       Forall probe_ok prs /\
       exists m, sl_metrics (sl p') !! corev1.UID svc = Some m /\
                 ServiceType m = corev1.ServiceTypeClusterIP) /\
    (r <> inl tt -> sl p' = sl p).
Proof.
  intros (Hip & Hips & Hty) Hrun.
  assert (Hplan : forall checker,
             probePlan checker svc (corev1.Spec_Ports svc) []
             = map (fun specPort => (corev1.ClusterIPNone, corev1.Port specPort))
                   (tcpPorts svc)).
  { intros checker. now apply probePlan_single_ClusterIP. }
  assert (Hnolb : corev1.Spec_Type svc <> corev1.ServiceTypeLoadBalancer).
  { rewrite Hty. discriminate. }
  assert (Hi : waitIngressIfLoadBalancer E svc (clock p) p = (inl 0, p)).
  { destruct (waitIngressIfLoadBalancer_run E svc (clock p) p)
      as [[_ H]|[H _]]; [exact H|contradiction]. }
  destruct (goroutine_spec E svc p) as (prs & Hspec).
  rewrite Hrun in Hspec. destruct Hspec as (Hpr & _ & Hcase).
  exists prs. split; [exact Hpr|].
  destruct r as [[]|[|c|]].
  - destruct Hcase as (lat & p1 & p2 & Hi' & Hw & Hok & Htg & Hck & Hsl).
    rewrite Hplan in Htg. rewrite Htg.
    split; [reflexivity|]. split.
    { intros _ _ Hne Hnil. rewrite Hnil in Htg. cbn in Htg.
      symmetry in Htg. apply map_eq_nil in Htg. contradiction. }
    split; [|intros H; contradiction].
    intros _. repeat split; auto.
    eexists. rewrite Hsl. cbn. rewrite lookup_insert_eq.
    split; [reflexivity|]. exact Hty.
  - destruct Hcase as (Hsl & lat & p1 & p2 & Hi' & Hw & Hpre & Hfail).
    rewrite Hplan in Hpre. split; [exact Hpre|]. split.
    { intros _ _ _ Hnil.
      destruct Hfail as [(oks & pr & e & -> & _)|(_ & (Hun & _) & _)];
        [|contradiction].
      destruct oks; discriminate. }
    split; [intros [=]|intros _; exact Hsl].
  - destruct Hcase as (-> & Hsl & -> & e & Hlog & Hwhy).
    split; [apply prefix_nil|]. split.
    { intros p2 Hw _ _.
      destruct Hwhy as [[Hlb _]|(lat & p1 & t2 & Hi' & Hw')];
        [contradiction|].
      rewrite Hi in Hi'. injection Hi' as _ <-. rewrite Hw in Hw'.
      discriminate. }
    split; [intros [=]|intros _; exact Hsl].
  - destruct Hcase as (Hsl & -> & _).
    split; [apply prefix_nil|]. split.
    { intros p2 Hw _ _. rewrite goroutine_eq, Hi, Hw in Hrun.
      cbn zeta in Hrun.
      destruct (portsLoop_run E (checker_of E p2)
                  (ServiceTimeout (sl_config (sl (after_checker E svc p2))))
                  svc (corev1.Spec_Ports svc) [] 0 (after_checker E svc p2))
        as (prs & _ & H).
      destruct (portsLoop E _ _ svc _ [] 0 (after_checker E svc p2))
        as [[[]|sg] p4].
      - discriminate Hrun.
      - destruct H as (-> & _). discriminate Hrun. }
    split; [intros [=]|intros _; exact Hsl].
Qed.

(** The effect of one [handleCreateSvc] on the measurement: a goroutine
    that runs to its end stores a sample of the service under its uid, and
    any other leaves the measurement as it was. *)
Lemma handleCreateSvc_store (svc : corev1.Service) (p : proc) r (p' : proc) :
  handleCreateSvc E svc p = (r, p') ->
  (completes E svc p = true ->
   exists ipAssignedLatency p1 p2,
     waitIngressIfLoadBalancer E svc (clock p) (add_log (created_entry svc) p)
     = (inl ipAssignedLatency, p1) /\
     waitForEndpoints E svc p1 = (inl None, p2) /\
     sl_metrics (sl p')
     = <[corev1.UID svc :=
           newSvcMetric E svc (clock p' - clock p2) ipAssignedLatency]>
         (sl_metrics (sl p))) /\
  (completes E svc p = false -> sl p' = sl p).
Proof.
  rewrite handleCreateSvc_eq. unfold go, completes. intros Hrun.
  destruct (goroutine_spec E svc (add_log (created_entry svc) p)) as (prs & H).
  destruct (handleCreateSvc_goroutine E svc (add_log (created_entry svc) p))
    as [rg pg].
  destruct H as (_ & _ & Hcase). cbn [fst].
  destruct rg as [[]|[|c|]]; injection Hrun as <- <-;
    (split; [intros Hc|intros Hc]); try discriminate Hc.
  - destruct Hcase as (lat & p1 & p2 & Hw1 & Hw2 & _ & _ & _ & Hsl).
    exists lat, p1, p2. split; [exact Hw1|]. split; [exact Hw2|].
    rewrite Hsl. reflexivity.
  - destruct Hcase as (Hsl & _). exact Hsl.
  - destruct Hcase as (_ & Hsl & _). exact Hsl.
  - destruct Hcase as (Hsl & _). exact Hsl.
Qed.

(** C4: the metrics map is keyed by the uid.  A goroutine that runs to its
    end stores its sample under the uid of the service: the sample, with
    the two latencies it measured, is then the entry of that uid, whatever
    was there before, and the other entries are untouched; when the uid already had an entry the keys and
    the number of entries do not change (the entry is replaced, nothing is
    appended), and otherwise there is one entry more.  A goroutine that
    does not run to its end changes nothing.  After any sequence of
    [handleCreateSvc], the keys are those present before together with the
    uids of the services whose goroutine ran to its end: one sample per
    distinct uid. *)
Theorem metrics_one_sample_per_uid (svcs : list corev1.Service) (p : proc)
    r (p' : proc) :
  handleCreateSvc_all E svcs p = (r, p') ->
  (forall svc q r1 q1,
      handleCreateSvc E svc q = (r1, q1) ->
      (completes E svc q = true ->
       exists ipAssignedLatency p1 p2,
         waitIngressIfLoadBalancer E svc (clock q)
           (add_log (created_entry svc) q) = (inl ipAssignedLatency, p1) /\
         waitForEndpoints E svc p1 = (inl None, p2) /\
         let sample :=
           newSvcMetric E svc (clock q1 - clock p2) ipAssignedLatency in
         sl_metrics (sl q1) = <[corev1.UID svc := sample]> (sl_metrics (sl q)) /\
         sl_metrics (sl q1) !! corev1.UID svc = Some sample /\
         (forall uid, uid <> corev1.UID svc ->
                      sl_metrics (sl q1) !! uid = sl_metrics (sl q) !! uid) /\
         (is_Some (sl_metrics (sl q) !! corev1.UID svc) ->
          dom (sl_metrics (sl q1)) = dom (sl_metrics (sl q)) /\
          size (sl_metrics (sl q1)) = size (sl_metrics (sl q))) /\
         (sl_metrics (sl q) !! corev1.UID svc = None ->
          size (sl_metrics (sl q1)) = S (size (sl_metrics (sl q))))) /\
      (completes E svc q = false -> sl q1 = sl q))
  /\ dom (sl_metrics (sl p'))
     = dom (sl_metrics (sl p)) ∪ list_to_set (completed_uids E svcs p)
  /\ (size (sl_metrics (sl p'))
      <= size (sl_metrics (sl p))
         + size (list_to_set (corev1.UID <$> svcs) : gset string))%nat.
Proof.
  intros Hall. split.
  { intros svc q r1 q1 Hrun.
    destruct (handleCreateSvc_store svc q r1 q1 Hrun) as (Hdone & Hnot).
    split; [|exact Hnot].
    intros Hc. destruct (Hdone Hc) as (lat & p1 & p2 & Hw1 & Hw2 & Heq).
    exists lat, p1, p2. split; [exact Hw1|]. split; [exact Hw2|].
    cbv zeta. rewrite Heq.
    split; [reflexivity|]. split; [apply lookup_insert_eq|].
    split; [intros uid Hne; now apply lookup_insert_ne|]. split.
    - intros Hold.
      assert (Hdom : dom (<[corev1.UID svc :=
                              newSvcMetric E svc (clock q1 - clock p2) lat]>
                            (sl_metrics (sl q)))
                     = dom (sl_metrics (sl q))).
      { rewrite dom_insert_L.
        apply subseteq_union_1_L, singleton_subseteq_l, elem_of_dom.
        exact Hold. }
      split; [exact Hdom|]. rewrite <- !size_dom, Hdom. reflexivity.
    - intros Hnone. now apply map_size_insert_None. }
  assert (Hdom : dom (sl_metrics (sl p'))
                 = dom (sl_metrics (sl p))
                   ∪ list_to_set (completed_uids E svcs p)).
  { revert p r p' Hall.
    induction svcs as [|svc rest IH]; intros p r p' Hall.
    - cbn in Hall. injection Hall as _ <-. cbn.
      apply set_eq. intros x. rewrite elem_of_union, elem_of_empty. tauto.
    - cbn [handleCreateSvc_all] in Hall. rewrite bind_run in Hall.
      cbn [completed_uids].
      destruct (handleCreateSvc E svc p) as [[[]|sg] p1] eqn:H1;
        destruct (handleCreateSvc_store svc p _ _ H1) as (Hdone & Hnot);
        [specialize (IH _ _ _ Hall); rewrite IH
        |injection Hall as _ <-];
        destruct (completes E svc p);
        [destruct (Hdone eq_refl) as (l1 & l2 & l3 & _ & _ & ->); rewrite dom_insert_L
        |rewrite (Hnot eq_refl)
        |destruct (Hdone eq_refl) as (l1 & l2 & l3 & _ & _ & ->); rewrite dom_insert_L
        |rewrite (Hnot eq_refl)];
        apply set_eq; intros x;
        rewrite ?list_to_set_app, ?list_to_set_cons, ?list_to_set_nil,
          ?elem_of_union, ?elem_of_singleton, ?elem_of_empty; tauto. }
  split; [exact Hdom|].
  assert (Hsub : list_to_set (completed_uids E svcs p)
                 ⊆ (list_to_set (corev1.UID <$> svcs) : gset string)).
  { clear Hdom Hall. revert p.
    induction svcs as [|svc rest IH]; intros p; [reflexivity|].
    cbn [completed_uids]. rewrite fmap_cons, list_to_set_cons, list_to_set_app.
    destruct (handleCreateSvc E svc p) as [[[]|sg] p1].
    - specialize (IH p1). destruct (completes E svc p);
        intros x; rewrite ?list_to_set_cons, ?list_to_set_nil, !elem_of_union,
                    ?elem_of_singleton, ?elem_of_empty;
        intros [Hx|Hx]; auto; try tauto; right; now apply IH.
    - destruct (completes E svc p);
        intros x; rewrite ?list_to_set_cons, ?list_to_set_nil, !elem_of_union,
                    ?elem_of_singleton, ?elem_of_empty; tauto. }
  rewrite <- !size_dom, Hdom.
  rewrite size_union_alt. apply Nat.add_le_mono_l, subseteq_size.
  intros x. rewrite elem_of_difference. intros [Hx _]. now apply Hsub.
Qed.

(** C5 (amended): the ReadyLatency of a recorded sample is the time read
    after the last TCP probe of the run has returned (every target of every
    TCP port having been probed with success), or right after the checker
    was obtained when the service has no target to probe, minus
    [endpointsReadyTs], the time read when [waitForEndpoints] returned.
    With a single probe this is the time of its successful connect minus
    [endpointsReadyTs]. *)
Theorem ReadyLatency_until_last_probe (svc : corev1.Service) (p p' : proc) :
  handleCreateSvc_goroutine E svc p = (inl tt, p') ->
  exists lat p1 p2 prs m,
    waitIngressIfLoadBalancer E svc (clock p) p = (inl lat, p1) /\
    waitForEndpoints E svc p1 = (inl None, p2) /\
    probes p' = probes p ++ prs /\ Forall probe_ok prs /\
    sl_metrics (sl p') !! corev1.UID svc = Some m /\
    IPAssignedLatency m = lat /\
    ReadyLatency m
    = clock_after (clock (after_checker E svc p2)) prs - clock p2 /\
    (forall pr, prs = [pr] -> ReadyLatency m = probe_end pr - clock p2).
Proof.
  intros Hrun.
  destruct (goroutine_spec E svc p) as (prs & Hspec).
  rewrite Hrun in Hspec.
  destruct Hspec as (Hpr & _ & lat & p1 & p2 & Hi & Hw & Hok & _ & Hck & Hsl).
  exists lat, p1, p2, prs, (newSvcMetric E svc (clock p' - clock p2) lat).
  repeat (split; [assumption|]).
  split; [rewrite Hsl; cbn; apply lookup_insert_eq|].
  split; [reflexivity|]. cbn [ReadyLatency newSvcMetric].
  split; [now rewrite Hck|].
  intros pr ->. rewrite Hck. reflexivity.
Qed.

End Claims.

(** C3, as stated, fails: a headless service with a TCP port is probed at
    the address ["None"], and a headless service without a TCP port gets a
    sample recorded. *)
Lemma headless_is_probed_or_sampled :
  headless svc_headless /\
  map target (probes (handleCreateSvc env_ping_failing svc_headless proc0).2)
  = [("None", 80)] /\
  headless svc_headless_udp /\
  is_Some (sl_metrics (sl (handleCreateSvc env_ok svc_headless_udp proc0).2)
             !! corev1.UID svc_headless_udp).
Proof.
  split; [repeat split|]. split; [vm_compute; reflexivity|].
  split; [repeat split|]. vm_compute. eauto.
Qed.

(** C5, as stated, fails on a service with two targets: the first connect
    succeeds 6 ms after [endpointsReadyTs] (200 ms), but the sample is
    taken after the second connect, 13 ms after it. *)
Lemma ReadyLatency_not_first_connect :
  let p' := (handleCreateSvc_goroutine env_ok svc_dualstack proc0).2 in
  (waitForEndpoints env_ok svc_dualstack proc0).1 = inl None /\
  clock (waitForEndpoints env_ok svc_dualstack proc0).2 = 200 * Millisecond /\
  (exists pr rest,
      probes p' = pr :: rest /\ probe_err pr = None /\
      probe_end pr - 200 * Millisecond = 6 * Millisecond) /\
  (exists m,
      sl_metrics (sl p') !! corev1.UID svc_dualstack = Some m /\
      ReadyLatency m = 13 * Millisecond).
Proof.
  cbv zeta. split; [vm_compute; reflexivity|]. split; [vm_compute; reflexivity|].
  split; eexists; [eexists|]; (split; [vm_compute; reflexivity|]);
    try split; vm_compute; reflexivity.
Qed.


Lemma headless_probed_like_ClusterIP_witness :
  headless svc_headless /\
  exists prs,
    probes (handleCreateSvc_goroutine env_ping_failing svc_headless proc0).2
    = probes proc0 ++ prs /\
    prs <> [] /\
    sl (handleCreateSvc_goroutine env_ping_failing svc_headless proc0).2
    = sl proc0.
Proof.
  assert (Hh : headless svc_headless) by (repeat split).
  split; [exact Hh|].
  destruct (headless_probed_like_ClusterIP env_ping_failing svc_headless proc0
              (handleCreateSvc_goroutine env_ping_failing svc_headless proc0).1
              (handleCreateSvc_goroutine env_ping_failing svc_headless proc0).2
              Hh ltac:(vm_compute; reflexivity))
    as (prs & Hpr & _ & Hne & _ & Hsl).
  exists prs. split; [exact Hpr|]. split.
  - apply (Hne (waitForEndpoints env_ping_failing svc_headless proc0).2).
    + vm_compute. reflexivity.
    + vm_compute. discriminate.
  - apply Hsl. vm_compute. discriminate.
Defined.

(** Three services, two of them with the same uid (a replayed add event):
    two entries. *)
Lemma metrics_one_sample_per_uid_witness :
  size (sl_metrics (sl (handleCreateSvc_all env_ok
                          [svc_clusterip; svc_dualstack; svc_clusterip]
                          proc0).2)) = 2%nat.
Proof.
  destruct (metrics_one_sample_per_uid env_ok
              [svc_clusterip; svc_dualstack; svc_clusterip] proc0
              (handleCreateSvc_all env_ok
                 [svc_clusterip; svc_dualstack; svc_clusterip] proc0).1
              (handleCreateSvc_all env_ok
                 [svc_clusterip; svc_dualstack; svc_clusterip] proc0).2
              ltac:(vm_compute; reflexivity)) as (_ & Hdom & _).
  rewrite <- size_dom, Hdom. vm_compute. reflexivity.
Defined.

Lemma ReadyLatency_until_last_probe_witness :
  exists m,
    sl_metrics (sl (handleCreateSvc_goroutine env_ok svc_dualstack proc0).2)
      !! corev1.UID svc_dualstack = Some m /\
    ReadyLatency m = 213 * Millisecond - 200 * Millisecond.
Proof.
  destruct (ReadyLatency_until_last_probe env_ok svc_dualstack proc0
              (handleCreateSvc_goroutine env_ok svc_dualstack proc0).2
              ltac:(vm_compute; reflexivity))
    as (lat & p1 & p2 & prs & m & Hi & Hw & Hpr & Hok & Hm & Hlat & Hr & _).
  exists m. split; [exact Hm|].
  assert (Hp2 : p2 = (waitForEndpoints env_ok svc_dualstack proc0).2).
  { assert (Hp1 : p1 = proc0).
    { vm_compute in Hi. injection Hi as _ <-. reflexivity. }
    subst p1. rewrite Hw. reflexivity. }
  assert (Hprs : prs = probes (handleCreateSvc_goroutine env_ok svc_dualstack
                                 proc0).2).
  { change (probes proc0) with (@nil probe) in Hpr. rewrite Hpr. reflexivity. }
  rewrite Hr, Hp2, Hprs. vm_compute. reflexivity.
Defined.

(* ===================================================================== *)
(** ** Indexing                                                           *)
(* ===================================================================== *)

Lemma index_one_run (E : Env) (entry : string * list document) (p : proc) :
  index_one E entry p
  = (inl tt,
     {| clock := clock p; logs := logs p ++ index_entries E entry;
        probes := probes p; indexed := indexed p ++ [index_call E entry];
        sl := sl p |}).
Proof.
  destruct entry as [metricName documents].
  unfold index_one, index_entries, index_call. cbn [fst snd].
  rewrite bind_run, log_run, bind_run. unfold call_Index at 1.
  destruct (factory_indexer E documents _) as [resp [e|]];
    rewrite log_run; unfold add_log, add_indexed;
    cbn [clock logs probes indexed sl]; rewrite <- app_assoc; reflexivity.
Qed.

(** The loop of [index] goes through every entry, whatever the indexer
    answers. *)
Lemma index_range_run (E : Env) (entries : list (string * list document)) :
  forall p : proc,
    index_range E entries p
    = (inl tt,
       {| clock := clock p;
          logs := logs p ++ flat_map (index_entries E) entries;
          probes := probes p;
          indexed := indexed p ++ map (index_call E) entries;
          sl := sl p |}).
Proof.
  induction entries as [|entry rest IH]; intros p.
  - cbn. rewrite !app_nil_r. destruct p; reflexivity.
  - cbn [index_range]. rewrite bind_run, index_one_run, IH. cbn.
    rewrite <- !app_assoc. reflexivity.
Qed.

Lemma IndexJobSummary_run (jobSummaries : list burner_types.JobSummary)
    (indexer : Indexer) (p : proc) :
  let opts := {| Opts_MetricName := burner_types.jobSummaryMetric |} in
  IndexJobSummary jobSummaries indexer p
  = (inl tt,
     {| clock := clock p;
        logs := logs p
                ++ [ {| Level_of := InfoLevel;
                        Message := "Indexing job summaries" |};
                     match indexer (map DocJobSummary jobSummaries) opts with
                     | (_, Some e) => {| Level_of := ErrorLevel; Message := e |}
                     | (resp, None) => {| Level_of := InfoLevel; Message := resp |}
                     end ];
        probes := probes p;
        indexed := indexed p ++ [(opts, map DocJobSummary jobSummaries)];
        sl := sl p |}).
Proof.
  intros opts. unfold IndexJobSummary. fold opts.
  rewrite bind_run, log_run. cbn zeta. rewrite bind_run.
  unfold call_Index at 1.
  destruct (indexer (map DocJobSummary jobSummaries) opts) as [resp [e|]];
    rewrite log_run; unfold add_log, add_indexed;
    cbn [clock logs probes indexed sl]; rewrite <- app_assoc; reflexivity.
Qed.

(** C9: when [Index] returns an error, [index] and [IndexJobSummary] write
    it to the log at error level and return normally.  [index] still hands
    every entry of its metric map to the indexer; the measurement, the
    clock and the probes are left as they were, and nothing reaches the
    caller. *)
Theorem index_error_logged_not_fatal (E : Env) (p : proc)
    (order : list (string * list document))
    (jobSummaries : list burner_types.JobSummary) (indexer : Indexer) :
  order ≡ₚ map_to_list (index_metricMap E (sl p)) ->
  let opts := {| Opts_MetricName := burner_types.jobSummaryMetric |} in
  ((index E order p).1 = inl tt /\
   sl (index E order p).2 = sl p /\
   clock (index E order p).2 = clock p /\
   probes (index E order p).2 = probes p /\
   indexed (index E order p).2 = indexed p ++ map (index_call E) order /\
   length (map (index_call E) order) = size (index_metricMap E (sl p)) /\
   forall entry e,
     entry ∈ order ->
     (factory_indexer E entry.2 (index_call E entry).1).2 = Some e ->
     {| Level_of := ErrorLevel; Message := e |} ∈ logs (index E order p).2)
  /\
  ((IndexJobSummary jobSummaries indexer p).1 = inl tt /\
   sl (IndexJobSummary jobSummaries indexer p).2 = sl p /\
   clock (IndexJobSummary jobSummaries indexer p).2 = clock p /\
   probes (IndexJobSummary jobSummaries indexer p).2 = probes p /\
   indexed (IndexJobSummary jobSummaries indexer p).2
   = indexed p ++ [(opts, map DocJobSummary jobSummaries)] /\
   forall e,
     (indexer (map DocJobSummary jobSummaries) opts).2 = Some e ->
     logs (IndexJobSummary jobSummaries indexer p).2
     = logs p ++ [ {| Level_of := InfoLevel; Message := "Indexing job summaries" |};
                   {| Level_of := ErrorLevel; Message := e |} ]).
Proof.
  intros Hperm opts. split.
  - unfold index. rewrite index_range_run. cbn [fst snd sl clock probes indexed logs].
    repeat (split; [reflexivity|]). split.
    + rewrite length_map, Hperm, length_map_to_list. reflexivity.
    + intros entry e Hin Herr. apply elem_of_app. right.
      apply list_elem_of_In, in_flat_map. exists entry.
      split; [apply list_elem_of_In; exact Hin|].
      unfold index_entries. right. left.
      destruct (factory_indexer E entry.2 (index_call E entry).1) as [resp err].
      cbn in Herr. subst err. reflexivity.
  - rewrite IndexJobSummary_run. fold opts.
    cbn [fst snd sl clock probes indexed logs].
    repeat (split; [reflexivity|]).
    intros e He.
    destruct (indexer (map DocJobSummary jobSummaries) opts) as [resp err].
    cbn in He. subst err. reflexivity.
Qed.

Lemma index_error_logged_not_fatal_witness :
  let p := set_sl {| sl_config := sl_config samples.sl0;
                     sl_metrics := ∅;
                     latencyQuantiles := [];
                     normLatencies :=
                       [DocSvcMetric (newSvcMetric samples.env_index_failing
                                        samples.svc_clusterip 6000000 0)] |}
                  samples.proc0 in
  let order := map_to_list (index_metricMap samples.env_index_failing (sl p)) in
  (index samples.env_index_failing order p).1 = inl tt /\
  length (indexed (index samples.env_index_failing order p).2) = 2%nat /\
  {| Level_of := ErrorLevel; Message := "error indexing documents" |}
    ∈ logs (index samples.env_index_failing order p).2.
Proof.
  intros p order.
  destruct (index_error_logged_not_fatal samples.env_index_failing p order []
              samples.indexer_ok (reflexivity _))
    as ((Hr & _ & _ & _ & Hix & Hlen & Hlog) & _).
  split; [exact Hr|]. split.
  - rewrite Hix. vm_compute. reflexivity.
  - apply (Hlog (svcLatencyMetric, normLatencies (sl p))).
    + vm_compute. apply list_elem_of_here.
    + reflexivity.
Defined.

(* ===================================================================== *)
(** ** Template rendering                                                 *)
(* ===================================================================== *)

Import template.



Lemma GetIPAddress_helper_pure : pure_helper GetIPAddress_helper.
Proof. intros w1 w2 args. reflexivity. Qed.

Lemma pure_helper_time_independent (h : helper) :
  pure_helper h -> time_independent h.
Proof. intros Hpure w t args. apply Hpure. Qed.

Section ExecuteFacts.

Variable funcMap : FuncMap.
Variable data : Data.



(** Under [missingkey=zero] a field action never fails. *)
Lemma evalField_zero (key : string) :
  evalField mapZeroValue data key
  = inl (default (elem_zero data) (entries data !! key)).
Proof. unfold evalField. destruct (entries data !! key); reflexivity. Qed.





End ExecuteFacts.

Section RenderFacts.

Variable Parse : FuncMap -> string -> Template + error.



End RenderFacts.

Import template_samples.







(* ===================================================================== *)
(** ** More on the template helpers                                       *)
(* ===================================================================== *)

Lemma GetSubnet24_bytes (i : Z) :
  0 <= i <= max_int ->
  GetSubnet24 i =
    (itoa ((i / 65536 + 1) mod 256) +:+ "." +:+ itoa ((i / 256) mod 256)
     +:+ "." +:+ itoa (i mod 256) +:+ ".0/24")%string.
Proof.
  intros Hi. rewrite GetSubnet24_unfold. unfold int_add, int_shr.
  pose proof (shr_int_bounds i 16 Hi ltac:(lia)) as H16.
  rewrite int_wrap_id.
  2:{ unfold is_int, min_int, max_int in *.
      rewrite Z.shiftr_div_pow2 in * by lia.
      assert (i / 2 ^ 16 < 2 ^ 47) by (apply Z.div_lt_upper_bound; lia).
      lia. }
  rewrite !byte_of_int_mod, !Z.shiftr_div_pow2 by lia.
  reflexivity.
Qed.

(** The three octets of two equal results are equal. *)
Lemma GetSubnet24_eq_octets (i j : Z) :
  0 <= i <= max_int -> 0 <= j <= max_int ->
  GetSubnet24 i = GetSubnet24 j ->
  (i / 65536 + 1) mod 256 = (j / 65536 + 1) mod 256 /\
  (i / 256) mod 256 = (j / 256) mod 256 /\
  i mod 256 = j mod 256.
Proof.
  intros Hi Hj E. rewrite !GetSubnet24_bytes in E by assumption.
  apply dot_split_inj in E as [E1 E]; try apply dot_free_itoa.
  apply dot_split_inj in E as [E2 E]; try apply dot_free_itoa.
  apply dot_split_inj in E as [E3 _]; try apply dot_free_itoa.
  apply itoa_inj in E1; try (apply Z.mod_pos_bound; lia).
  apply itoa_inj in E2; try (apply Z.mod_pos_bound; lia).
  apply itoa_inj in E3; try (apply Z.mod_pos_bound; lia).
  auto.
Qed.

(** Below [2^24] distinct indices give distinct subnets. *)
Theorem GetSubnet24_injective (i j : Z) :
  0 <= i < 2 ^ 24 -> 0 <= j < 2 ^ 24 ->
  GetSubnet24 i = GetSubnet24 j -> i = j.
Proof.
  intros Hi Hj E.
  destruct (GetSubnet24_eq_octets i j) as (E1 & E2 & E3);
    [unfold max_int; lia | unfold max_int; lia | exact E |].
  clear E. change (2 ^ 24) with 16777216 in *.
  Z.to_euclidean_division_equations. lia.
Qed.

Lemma GetSubnet24_injective_witness :
  0 <= 3 < 2 ^ 24 /\ 0 <= 70000 < 2 ^ 24 /\
  GetSubnet24 3 <> GetSubnet24 70000.
Proof.
  split; [lia|]. split; [lia|].
  intros E. apply GetSubnet24_injective in E; [discriminate E | lia | lia].
Defined.

(** The result only depends on the low 24 bits of the index: indices
    [2^24] apart give the same subnet. *)
Theorem GetSubnet24_period (i : Z) :
  0 <= i -> i + 2 ^ 24 <= max_int ->
  GetSubnet24 (i + 2 ^ 24) = GetSubnet24 i.
Proof.
  intros Hi Hmax.
  rewrite !GetSubnet24_bytes by (unfold max_int in *; lia).
  change (2 ^ 24) with 16777216.
  assert (A : ((i + 16777216) / 65536 + 1) mod 256 = (i / 65536 + 1) mod 256)
    by (Z.to_euclidean_division_equations; lia).
  assert (B : ((i + 16777216) / 256) mod 256 = (i / 256) mod 256)
    by (Z.to_euclidean_division_equations; lia).
  assert (C : (i + 16777216) mod 256 = i mod 256)
    by (Z.to_euclidean_division_equations; lia).
  rewrite A, B, C. reflexivity.
Qed.

Lemma GetSubnet24_period_witness :
  GetSubnet24 (5 + 2 ^ 24) = GetSubnet24 5.
Proof. apply GetSubnet24_period; unfold max_int; lia. Defined.

Import util_env.

Lemma Split_space_nonempty (s : string) : Split_space s <> [].
Proof.
  destruct s as [|c s]; cbn; [discriminate|].
  destruct (Split_space s); [discriminate|].
  destruct (Ascii.eqb c " "); discriminate.
Qed.

(** No element of a split contains a space. *)
Lemma Split_space_no_space (s : string) :
  Forall (fun w => has_space w = false) (Split_space s).
Proof.
  induction s as [|c s IH]; cbn [Split_space]; [repeat constructor|].
  destruct (Split_space s) as [|w ws] eqn:E.
  - contradiction (Split_space_nonempty s).
  - inversion IH as [|? ? Hw Hws]; subst.
    destruct (Ascii.eqb c " ") eqn:Hc.
    + repeat constructor; assumption.
    + constructor; [cbn; rewrite Hc; exact Hw | exact Hws].
Qed.

Lemma Join_cons_char (c : ascii) (w : string) (ws : list string) :
  Join (String c w :: ws) " " = String c (Join (w :: ws) " ").
Proof. destruct ws; reflexivity. Qed.

(** Joining what was split gives the string back. *)
Lemma Join_Split_space (s : string) : Join (Split_space s) " " = s.
Proof.
  induction s as [|c s IH]; [reflexivity|]. cbn [Split_space].
  destruct (Split_space s) as [|w ws] eqn:E.
  - contradiction (Split_space_nonempty s).
  - destruct (Ascii.eqb c " ") eqn:Hc.
    + apply Ascii.eqb_eq in Hc. subst c.
      change (Join (EmptyString :: w :: ws) " ")
        with (String " " (Join (w :: ws) " ")).
      now rewrite IH.
    + now rewrite Join_cons_char, IH.
Qed.

Lemma Split_space_word (w : string) :
  has_space w = false -> Split_space w = [w].
Proof.
  induction w as [|c w IH]; [reflexivity|]. cbn.
  destruct (Ascii.eqb c " "); [discriminate|]. cbn. intros Hw.
  now rewrite (IH Hw).
Qed.

Lemma Split_space_app_word (w t : string) :
  has_space w = false ->
  Split_space (w +:+ String " " t) = w :: Split_space t.
Proof.
  induction w as [|c w IH]; intros Hw.
  - rewrite append_nil_l. cbn [Split_space].
    pose proof (Split_space_nonempty t).
    destruct (Split_space t); [contradiction|]. reflexivity.
  - cbn in Hw. destruct (Ascii.eqb c " ") eqn:Hc; [discriminate|].
    cbn in Hw. rewrite append_cons. cbn [Split_space].
    rewrite (IH Hw), Hc. reflexivity.
Qed.

(** Splitting what was joined gives the elements back, when there is at
    least one and none contains a space. *)
Lemma Split_space_Join (l : list string) :
  l <> [] -> Forall (fun w => has_space w = false) l ->
  Split_space (Join l " ") = l.
Proof.
  induction l as [|x l IH]; intros Hne Hall; [contradiction|].
  inversion Hall as [|? ? Hx Hl]; subst.
  destruct l as [|y l].
  - cbn. now apply Split_space_word.
  - change (Join (x :: y :: l) " ")
      with (x +:+ String " " (Join (y :: l) " ")).
    rewrite Split_space_app_word by exact Hx.
    rewrite IH; [reflexivity | discriminate | exact Hl].
Qed.

(** The result of [GetIPAddress], split again on spaces, is the window of
    addresses it was built from, as soon as at least one address is asked
    for. *)
Theorem GetIPAddress_splits_back (Addresses : string) (i n : Z) :
  let addrSlice := Split_space Addresses in
  Z.of_nat (length addrSlice) <= max_int ->
  0 <= i <= max_int -> 1 <= n <= max_int ->
  (i + 1) * n <= Z.of_nat (length addrSlice) ->
  exists s,
    GetIPAddress Addresses i n = Ok s /\
    Split_space s = take (Z.to_nat n) (drop (Z.to_nat (i * n)) addrSlice) /\
    length (Split_space s) = Z.to_nat n.
Proof.
  intros addrSlice Hlen Hi Hn Hfit.
  assert (Hbase : 0 <= i * n) by nia.
  unfold GetIPAddress. fold addrSlice.
  rewrite (GetIPAddress_loop_in_range addrSlice i n (i * n) eq_refl Hbase
             (Z.to_nat n) 0 []) by lia.
  rewrite Z.add_0_r, app_nil_l. eexists. split; [reflexivity|].
  assert (Hlenw : length (take (Z.to_nat n) (drop (Z.to_nat (i * n)) addrSlice))
                  = Z.to_nat n).
  { rewrite length_take, length_drop. lia. }
  rewrite Split_space_Join.
  - split; [reflexivity | exact Hlenw].
  - intros Hnil. rewrite Hnil in Hlenw. cbn in Hlenw. lia.
  - apply Forall_take, Forall_drop, Split_space_no_space.
Qed.

Lemma GetIPAddress_splits_back_witness :
  exists s,
    GetIPAddress "10.0.0.1 10.0.0.2 10.0.0.3 10.0.0.4" 1 2 = Ok s /\
    Split_space s = ["10.0.0.3"; "10.0.0.4"].
Proof.
  destruct (GetIPAddress_splits_back "10.0.0.1 10.0.0.2 10.0.0.3 10.0.0.4" 1 2)
    as (s & Hs & Hsplit & _);
    try (unfold max_int; simpl; lia).
  exists s. split; [exact Hs|]. rewrite Hsplit. reflexivity.
Defined.

(** Asking, at iteration 0, for as many addresses as the string holds
    returns the string unchanged. *)
Theorem GetIPAddress_whole (Addresses : string) :
  Z.of_nat (length (Split_space Addresses)) <= max_int ->
  GetIPAddress Addresses 0 (Z.of_nat (length (Split_space Addresses)))
  = Ok Addresses.
Proof.
  intros Hlen. unfold GetIPAddress.
  rewrite (GetIPAddress_loop_in_range (Split_space Addresses) 0 _ 0
             ltac:(lia) ltac:(lia) _ 0 []) by lia.
  rewrite app_nil_l, Nat2Z.id. change (Z.to_nat (0 + 0)) with O.
  rewrite drop_0, firstn_all, Join_Split_space. reflexivity.
Qed.

Lemma GetIPAddress_whole_witness :
  GetIPAddress "fd00::1 fd00::2  fd00::3" 0 4 = Ok "fd00::1 fd00::2  fd00::3".
Proof.
  apply (GetIPAddress_whole "fd00::1 fd00::2  fd00::3").
  unfold max_int. simpl. lia.
Defined.

(** The degenerate arguments: with no address asked for ([n <= 0]) the
    result is the empty string and the list is not read; a negative
    iteration with [n >= 1] panics on its first access, at the negative
    index [iteration * n]. *)
Theorem GetIPAddress_degenerate (Addresses : string) (iteration n : Z) :
  (n <= 0 -> GetIPAddress Addresses iteration n = Ok EmptyString) /\
  (iteration < 0 -> 1 <= n -> min_int <= iteration * n ->
   GetIPAddress Addresses iteration n
   = Panic (IndexOutOfRange (iteration * n)
              (length (Split_space Addresses)))).
Proof.
  split.
  - intros Hn. unfold GetIPAddress.
    replace (Z.to_nat n) with O by lia. reflexivity.
  - intros Hi Hn Hmin. unfold GetIPAddress.
    destruct (Z.to_nat n) as [|k] eqn:Hk; [lia|].
    cbn [GetIPAddress_loop]. unfold int_mul, int_add.
    rewrite (int_wrap_id (iteration * n))
      by (unfold is_int, min_int, max_int in *; nia).
    rewrite Z.add_0_r.
    rewrite (int_wrap_id (iteration * n))
      by (unfold is_int, min_int, max_int in *; nia).
    unfold at_index.
    destruct (Z.ltb_spec (iteration * n) 0); [reflexivity|nia].
Qed.

Lemma GetIPAddress_degenerate_witness :
  GetIPAddress "a b" 7 0 = Ok EmptyString /\
  GetIPAddress "a b" (-1) 2 = Panic (IndexOutOfRange (-2) 2).
Proof.
  destruct (GetIPAddress_degenerate "a b" 7 0) as [H0 _].
  destruct (GetIPAddress_degenerate "a b" (-1) 2) as [_ H1].
  split; [apply H0; lia | apply H1; unfold min_int; lia].
Defined.

(* ===================================================================== *)
(** ** EnvToMap and the function map                                      *)
(* ===================================================================== *)

Import template.

Lemma SplitN2_eq_nonempty (s : string) : SplitN2_eq s <> [].
Proof.
  destruct s as [|c s]; cbn; [discriminate|].
  destruct (Ascii.eqb c "="); [discriminate|].
  destruct (SplitN2_eq s); discriminate.
Qed.

(** Without ['='] the string is not split. *)
Lemma SplitN2_eq_whole (s : string) :
  has_eq s = false -> SplitN2_eq s = [s].
Proof.
  induction s as [|c s IH]; [reflexivity|]. cbn.
  destruct (Ascii.eqb c "="); [discriminate|]. cbn. intros Hs.
  now rewrite (IH Hs).
Qed.

(** With one, it is split at the first. *)
Lemma SplitN2_eq_pair (s : string) :
  has_eq s = true ->
  exists name value,
    SplitN2_eq s = [name; value] /\ has_eq name = false /\
    s = (name +:+ String "="%char value)%string.
Proof.
  induction s as [|c s IH]; [discriminate|]. cbn.
  destruct (Ascii.eqb c "=") eqn:Hc.
  - intros _. apply Ascii.eqb_eq in Hc. subst c.
    exists EmptyString, s. auto.
  - cbn. intros Hs. destruct (IH Hs) as (name & value & -> & Hn & ->).
    exists (String c name), value. cbn. rewrite Hc. auto.
Qed.

Lemma SplitN2_eq_join (name value : string) :
  has_eq name = false ->
  SplitN2_eq (name +:+ String "="%char value) = [name; value].
Proof.
  induction name as [|c name IH]; intros Hn.
  - rewrite append_nil_l. reflexivity.
  - cbn in Hn. destruct (Ascii.eqb c "=") eqn:Hc; [discriminate|].
    cbn in Hn. rewrite append_cons. cbn [SplitN2_eq].
    now rewrite Hc, (IH Hn).
Qed.

(** One round of the loop of [EnvToMap]. *)
Lemma EnvToMap_loop_cons (v : string) (rest : list string)
    (envMap : gmap string any) :
  EnvToMap_loop (v :: rest) envMap
  = if has_eq v
    then EnvToMap_loop rest (<[env_name v := AnyStr (env_value v)]> envMap)
    else Panic (IndexOutOfRange 1 1).
Proof.
  cbn [EnvToMap_loop]. unfold env_name, env_value.
  destruct (has_eq v) eqn:Hv.
  - destruct (SplitN2_eq_pair v Hv) as (name & value & -> & _). reflexivity.
  - rewrite (SplitN2_eq_whole v Hv). reflexivity.
Qed.

Lemma EnvToMap_loop_ok (environ : list string) :
  Forall (fun v => has_eq v = true) environ ->
  forall envMap,
    exists m,
      EnvToMap_loop environ envMap = Ok m /\
      forall name,
        m !! name = match env_lookup environ name with
                    | Some x => Some (AnyStr x)
                    | None => envMap !! name
                    end.
Proof.
  induction 1 as [|v rest Hv _ IH]; intros envMap.
  - exists envMap. split; [reflexivity|]. intros name. reflexivity.
  - rewrite EnvToMap_loop_cons, Hv.
    destruct (IH (<[env_name v := AnyStr (env_value v)]> envMap))
      as (m & -> & Hm).
    exists m. split; [reflexivity|]. intros name. rewrite Hm.
    cbn [env_lookup]. destruct (env_lookup rest name); [reflexivity|].
    destruct (decide (env_name v = name)) as [<-|Hne].
    + apply lookup_insert_eq.
    + now apply lookup_insert_ne.
Qed.

Lemma EnvToMap_loop_panics (environ : list string) :
  Exists (fun v => has_eq v = false) environ ->
  forall envMap, EnvToMap_loop environ envMap = Panic (IndexOutOfRange 1 1).
Proof.
  induction environ as [|v rest IH]; intros Hex envMap; [inversion Hex|].
  rewrite EnvToMap_loop_cons. destruct (has_eq v) eqn:Hv; [|reflexivity].
  apply IH. inversion Hex; subst; [congruence|assumption].
Qed.

Lemma EnvToMap_loop_ok_inv (environ : list string) (envMap m : gmap string any) :
  EnvToMap_loop environ envMap = Ok m ->
  Forall (fun v => has_eq v = true) environ.
Proof.
  intros Hm. apply Forall_forall. intros v Hin.
  destruct (has_eq v) eqn:Hv; [reflexivity|].
  rewrite (EnvToMap_loop_panics environ) in Hm; [discriminate|].
  apply Exists_exists. eauto.
Qed.

(** [EnvToMap] returns a map exactly when every entry of the environment
    contains ['=']; an entry without one makes it panic on [envVar[1]]. *)
Theorem EnvToMap_ok_iff (os_Environ : list string) :
  ((exists m, EnvToMap os_Environ = Ok m)
   <-> Forall (fun v => has_eq v = true) os_Environ)
  /\ (Exists (fun v => has_eq v = false) os_Environ ->
      EnvToMap os_Environ = Panic (IndexOutOfRange 1 1)).
Proof.
  split; [split|].
  - intros [m Hm]. exact (EnvToMap_loop_ok_inv _ _ _ Hm).
  - intros Hall. destruct (EnvToMap_loop_ok os_Environ Hall ∅) as (m & Hm & _).
    eauto.
  - intros Hex. now apply EnvToMap_loop_panics.
Qed.

Lemma EnvToMap_ok_iff_witness :
  (exists m, EnvToMap ["HOME=/root"; "OPTS=a=b"] = Ok m) /\
  EnvToMap ["HOME=/root"; "BROKEN"] = Panic (IndexOutOfRange 1 1).
Proof.
  destruct (EnvToMap_ok_iff ["HOME=/root"; "OPTS=a=b"]) as [[_ H] _].
  destruct (EnvToMap_ok_iff ["HOME=/root"; "BROKEN"]) as [_ H'].
  split.
  - apply H. repeat constructor.
  - apply H'. apply Exists_cons_tl, Exists_cons_hd. reflexivity.
Defined.

Lemma env_lookup_None (environ : list string) (name : string) :
  env_lookup environ name = None
  <-> forall v, v ∈ environ -> env_name v <> name.
Proof.
  induction environ as [|w rest IH]; cbn [env_lookup].
  - split; [intros _ v Hv; inversion Hv|reflexivity].
  - destruct (env_lookup rest name) as [x|].
    + split; [discriminate|]. intros Hall. exfalso.
      assert (Hnone : Some x = None); [|discriminate Hnone].
      apply IH. intros v Hv. apply Hall. now apply list_elem_of_further.
    + destruct (decide (env_name w = name)) as [Hw|Hw].
      * split; [discriminate|]. intros Hall. exfalso.
        apply (Hall w); [apply list_elem_of_here|exact Hw].
      * split; [|reflexivity]. intros _ v Hv.
        apply elem_of_cons in Hv as [->|Hv]; [exact Hw|].
        now apply (proj1 IH eq_refl).
Qed.

Lemma env_lookup_NoDup (environ : list string) (v : string) :
  NoDup (env_name <$> environ) -> v ∈ environ ->
  env_lookup environ (env_name v) = Some (env_value v).
Proof.
  induction environ as [|w rest IH]; intros Hnd Hin; [inversion Hin|].
  rewrite fmap_cons in Hnd. apply NoDup_cons in Hnd as [Hw Hnd].
  cbn [env_lookup]. apply elem_of_cons in Hin as [->|Hin].
  - assert (Hnone : env_lookup rest (env_name w) = None).
    { apply env_lookup_None. intros u Hu Heq. apply Hw.
      rewrite <- Heq. apply list_elem_of_fmap. eauto. }
    rewrite Hnone. destruct (decide (env_name w = env_name w));
      [reflexivity|contradiction].
  - now rewrite (IH Hnd Hin).
Qed.

Lemma EnvToMap_loop_size (environ : list string) :
  NoDup (env_name <$> environ) ->
  forall envMap m,
    (forall v, v ∈ environ -> envMap !! env_name v = None) ->
    EnvToMap_loop environ envMap = Ok m ->
    size m = (size envMap + length environ)%nat.
Proof.
  induction environ as [|w rest IH]; intros Hnd envMap m Hfresh Hm.
  - injection Hm as <-. cbn. lia.
  - rewrite fmap_cons in Hnd. apply NoDup_cons in Hnd as [Hw Hnd].
    rewrite EnvToMap_loop_cons in Hm.
    destruct (has_eq w); [|discriminate Hm].
    assert (Hrest : forall v, v ∈ rest ->
                      <[env_name w := AnyStr (env_value w)]> envMap
                        !! env_name v = None).
    { intros v Hv. rewrite lookup_insert_ne.
      - apply Hfresh. now apply list_elem_of_further.
      - intros Heq. apply Hw. rewrite Heq. apply list_elem_of_fmap. eauto. }
    rewrite (IH Hnd _ _ Hrest Hm).
    rewrite map_size_insert_None by (apply Hfresh, list_elem_of_here).
    cbn [length]. lia.
Qed.

(** On an environment as [os.Environ()] gives it, where every entry
    contains ['='] and no name occurs twice, the map binds the name of each
    entry to its value, binds no other name, and has one binding per
    entry; the value of an entry [name=value] is everything after the
    first ['='], so that a value may itself contain ['=']. *)
Theorem EnvToMap_lookup (os_Environ : list string) :
  Forall (fun v => has_eq v = true) os_Environ ->
  NoDup (env_name <$> os_Environ) ->
  exists m,
    EnvToMap os_Environ = Ok m /\
    (forall name value,
        (name +:+ String "="%char value)%string ∈ os_Environ ->
        has_eq name = false ->
        m !! name = Some (AnyStr value)) /\
    (forall name,
        m !! name = None <-> forall v, v ∈ os_Environ -> env_name v <> name) /\
    size m = length os_Environ.
Proof.
  intros Hall Hnd.
  destruct (EnvToMap_loop_ok os_Environ Hall ∅) as (m & Hm & Hlook).
  exists m. split; [exact Hm|].
  assert (Hchar : forall name, m !! name = AnyStr <$> env_lookup os_Environ name).
  { intros name. rewrite Hlook. destruct (env_lookup os_Environ name);
      [reflexivity | apply lookup_empty]. }
  split; [|split].
  - intros name value Hin Hname.
    pose proof (env_lookup_NoDup os_Environ _ Hnd Hin) as Hv.
    unfold env_name, env_value in Hv.
    rewrite (SplitN2_eq_join name value Hname) in Hv. cbn [hd nth] in Hv.
    now rewrite Hchar, Hv.
  - intros name. rewrite Hchar, <- env_lookup_None.
    destruct (env_lookup os_Environ name); [|tauto].
    split; discriminate.
  - rewrite (EnvToMap_loop_size os_Environ Hnd ∅ m);
      [rewrite map_size_empty; reflexivity| |exact Hm].
    intros v _. apply lookup_empty.
Qed.

Lemma EnvToMap_lookup_witness :
  exists m,
    EnvToMap ["GC=false"; "OPTS=a=b"] = Ok m /\
    m !! "GC" = Some (AnyStr "false") /\
    m !! "OPTS" = Some (AnyStr "a=b") /\
    m !! "HOME" = None /\
    size m = 2%nat.
Proof.
  destruct (EnvToMap_lookup ["GC=false"; "OPTS=a=b"])
    as (m & Hm & Hbound & Hfree & Hsize).
  - repeat constructor.
  - apply (NoDup_cons_2 "GC" ["OPTS"]).
    + intros Hin. apply list_elem_of_singleton in Hin. discriminate Hin.
    + apply NoDup_singleton.
  - exists m. split; [exact Hm|]. split; [|split; [|split]].
    + apply (Hbound "GC" "false"); [apply list_elem_of_here|reflexivity].
    + apply (Hbound "OPTS" "a=b");
        [apply list_elem_of_further, list_elem_of_here|reflexivity].
    + apply Hfree. intros v Hv.
      apply elem_of_cons in Hv as [->|Hv]; [discriminate|].
      apply list_elem_of_singleton in Hv. subst v. discriminate.
    + exact Hsize.
Defined.

(** [init] binds its four names whatever sprig's map holds under them, and
    leaves every other name as sprig has it. *)
Theorem init_bindings (sprig_GenericFuncMap : FuncMap)
    (combin_Binomial combin_IndexToCombination : helper) :
  let funcMap :=
    init sprig_GenericFuncMap combin_Binomial combin_IndexToCombination in
  funcMap !! "GetSubnet24" = Some GetSubnet24_helper /\
  funcMap !! "GetIPAddress" = Some GetIPAddress_helper /\
  funcMap !! "Binomial" = Some combin_Binomial /\
  funcMap !! "IndexToCombination" = Some combin_IndexToCombination /\
  forall name,
    name <> "GetSubnet24" -> name <> "GetIPAddress" ->
    name <> "Binomial" -> name <> "IndexToCombination" ->
    funcMap !! name = sprig_GenericFuncMap !! name.
Proof.
  unfold init, AddRenderingFunction, FuncMap. cbv zeta.
  repeat split.
  - rewrite lookup_insert_ne, lookup_insert_eq by discriminate. reflexivity.
  - apply lookup_insert_eq.
  - rewrite !lookup_insert_ne by discriminate. apply lookup_insert_eq.
  - rewrite !lookup_insert_ne by discriminate. apply lookup_insert_eq.
  - intros name H1 H2 H3 H4.
    rewrite !lookup_insert_ne by congruence. reflexivity.
Qed.

Section EnvTemplates.

Variable funcMap : FuncMap.
Variable w : World.
Variable data : Data.

Lemma evalField_present (opt : missingKeyAction) (key : string) (v : any) :
  entries data !! key = Some v -> evalField opt data key = inl v.
Proof. intros H. unfold evalField. now rewrite H. Qed.

Lemma evalArgs_present (opt1 opt2 : missingKeyAction) (args : list arg) :
  (forall key, ArgField key ∈ args -> is_Some (entries data !! key)) ->
  evalArgs opt1 data args = evalArgs opt2 data args.
Proof.
  induction args as [|a rest IH]; intros Hall; [reflexivity|].
  cbn [evalArgs].
  rewrite IH by (intros key Hin; apply Hall; now apply list_elem_of_further).
  destruct a as [key| |]; try reflexivity.
  destruct (Hall key (list_elem_of_here _ _)) as [v Hv].
  cbn [evalArg]. now rewrite !(evalField_present _ key v Hv).
Qed.

(** When the data binds every key that the template reads, the missing-key
    setting makes no difference. *)
Lemma Execute_all_present (opt1 opt2 : missingKeyAction) (t : Template) :
  (forall n key, n ∈ t -> refers_to key n -> is_Some (entries data !! key)) ->
  forall rendered,
    Execute funcMap w opt1 data t rendered
    = Execute funcMap w opt2 data t rendered.
Proof.
  induction t as [|n rest IH]; intros Hall rendered; [reflexivity|].
  cbn [Execute].
  assert (Hn : evalNode funcMap w opt1 data n = evalNode funcMap w opt2 data n).
  { destruct n as [text|key|fn args]; [reflexivity| |].
    - destruct (Hall (FieldNode key) key (list_elem_of_here _ _)
                  (or_introl eq_refl)) as [v Hv].
      cbn [evalNode]. now rewrite !(evalField_present _ key v Hv).
    - cbn [evalNode]. destruct (funcMap !! fn); [|reflexivity].
      rewrite (evalArgs_present opt1 opt2 args); [reflexivity|].
      intros key Hin. apply (Hall (CallNode fn args) key (list_elem_of_here _ _)).
      right. eauto. }
  rewrite Hn. destruct (evalNode funcMap w opt2 data n); [|reflexivity].
  apply IH. intros n' key Hin. apply Hall. now apply list_elem_of_further.
Qed.

End EnvTemplates.

Lemma env_lookup_is_Some (environ : list string) (name : string) :
  (exists v, v ∈ environ /\ env_name v = name) ->
  is_Some (env_lookup environ name).
Proof.
  intros (v & Hin & Hname). induction environ as [|v' rest IH];
    [inversion Hin|].
  cbn. destruct (env_lookup rest name) eqn:Hl; [eauto|].
  apply elem_of_cons in Hin as [<-|Hin].
  - destruct (decide (env_name v = name)); [eauto|contradiction].
  - destruct (IH Hin) as [x Hx]. discriminate.
Qed.

(** Rendering over the map of [EnvToMap]: when every key that the template
    reads is the name of an entry of the environment, [RenderTemplate]
    gives the same result under [missingkey=error] and under
    [missingkey=zero]. *)
Theorem RenderTemplate_env_all_set
    (Parse : FuncMap -> string -> Template + error)
    (funcMap : FuncMap) (w : World) (original : string)
    (os_Environ : list string) (m : gmap string any) :
  EnvToMap os_Environ = Ok m ->
  (forall t n key,
      Parse funcMap original = inl t -> n ∈ t -> refers_to key n ->
      exists v, v ∈ os_Environ /\ env_name v = key) ->
  RenderTemplate Parse funcMap w original (env_data m) MissingKeyError
  = RenderTemplate Parse funcMap w original (env_data m) MissingKeyZero.
Proof.
  intros Hm Hset.
  pose proof (EnvToMap_loop_ok_inv _ _ _ Hm) as Hall.
  destruct (EnvToMap_loop_ok os_Environ Hall ∅) as (m' & Hm' & Hlook).
  unfold EnvToMap in Hm. rewrite Hm' in Hm. injection Hm as ->.
  unfold RenderTemplate.
  change (setOption MissingKeyError) with (Some mapError).
  change (setOption MissingKeyZero) with (Some mapZeroValue).
  destruct (Parse funcMap original) as [t|e] eqn:Hparse; [|reflexivity].
  rewrite (Execute_all_present funcMap w (env_data m) mapError mapZeroValue t);
    [reflexivity|].
  intros n key Hin Hrefers. cbn [entries env_data]. rewrite Hlook.
  destruct (env_lookup_is_Some os_Environ key (Hset t n key eq_refl Hin Hrefers))
    as [x ->].
  eauto.
Qed.

Lemma RenderTemplate_env_all_set_witness :
  exists m,
    EnvToMap ["QPS=5"; "BURST=10"] = Ok m /\
    RenderTemplate parse_fragment template_samples.funcMap0
      template_samples.world0 template_samples.manifest_qps_burst
      (env_data m) MissingKeyError
    = Rendered "qps: 5 burst: 10".
Proof.
  destruct (EnvToMap_loop_ok ["QPS=5"; "BURST=10"]
              ltac:(repeat constructor) ∅) as (m & Hm & Hlook).
  exists m. split; [exact Hm|].
  rewrite (RenderTemplate_env_all_set parse_fragment template_samples.funcMap0
             template_samples.world0 template_samples.manifest_qps_burst
             ["QPS=5"; "BURST=10"] m Hm).
  - unfold RenderTemplate.
    change (setOption MissingKeyZero) with (Some mapZeroValue).
    replace (parse_fragment template_samples.funcMap0
               template_samples.manifest_qps_burst)
      with (inl [TextNode "qps: "; FieldNode "QPS"; TextNode " burst: ";
                 FieldNode "BURST"] : Template + error)
      by (vm_compute; reflexivity).
    cbn [Execute evalNode]. rewrite !evalField_zero. cbn [entries env_data].
    rewrite !Hlook. reflexivity.
  - intros t n key Hparse Hin Hrefers.
    vm_compute in Hparse. injection Hparse as <-.
    repeat (apply elem_of_cons in Hin as [->|Hin]);
      try (inversion Hin);
      destruct Hrefers as [[=]|(fn & args & [=] & _)]; subst.
    + exists "QPS=5". split; [apply list_elem_of_here|reflexivity].
    + exists "BURST=10".
      split; [apply list_elem_of_further, list_elem_of_here|reflexivity].
Defined.

(* ===================================================================== *)
(** ** More on handleCreateSvc                                            *)
(* ===================================================================== *)

Import lifecycle.

(** [handleCreateSvc] touches nothing of the measurement but the entry of
    its own service: the configuration, the documents prepared for the
    indexer and the samples of the other services stay as they are, and no
    key leaves the map. *)
Theorem handleCreateSvc_keeps_others (E : Env) (svc : corev1.Service) (p : proc)
    r (p' : proc) :
  handleCreateSvc E svc p = (r, p') ->
  sl_config (sl p') = sl_config (sl p) /\
  normLatencies (sl p') = normLatencies (sl p) /\
  latencyQuantiles (sl p') = latencyQuantiles (sl p) /\
  indexed p' = indexed p /\
  dom (sl_metrics (sl p)) ⊆ dom (sl_metrics (sl p')) /\
  forall uid,
    uid <> corev1.UID svc ->
    sl_metrics (sl p') !! uid = sl_metrics (sl p) !! uid.
Proof.
  rewrite handleCreateSvc_eq. unfold go. intros Hrun.
  destruct (goroutine_spec E svc (add_log (created_entry svc) p)) as (prs & H).
  destruct (handleCreateSvc_goroutine E svc (add_log (created_entry svc) p))
    as [rg pg].
  destruct H as (_ & Hix & Hcase).
  assert (Hsame : sl pg = sl p ->
            sl_config (sl pg) = sl_config (sl p) /\
            normLatencies (sl pg) = normLatencies (sl p) /\
            latencyQuantiles (sl pg) = latencyQuantiles (sl p) /\
            indexed pg = indexed p /\
            dom (sl_metrics (sl p)) ⊆ dom (sl_metrics (sl pg)) /\
            forall uid, uid <> corev1.UID svc ->
                        sl_metrics (sl pg) !! uid = sl_metrics (sl p) !! uid).
  { intros ->. repeat split; auto. }
  destruct rg as [[]|[|c|]]; injection Hrun as <- <-.
  - destruct Hcase as (lat & p1 & p2 & _ & _ & _ & _ & _ & Hsl).
    rewrite Hsl. cbn. repeat split; auto.
    + rewrite dom_insert_L. apply union_subseteq_r.
    + intros uid Hne. now apply lookup_insert_ne.
  - destruct Hcase as (Hsl & _). now apply Hsame.
  - destruct Hcase as (_ & Hsl & _). now apply Hsame.
  - destruct Hcase as (Hsl & _). now apply Hsame.
Qed.

Lemma handleCreateSvc_keeps_others_witness :
  sl_metrics (sl (handleCreateSvc samples.env_ok samples.svc_dualstack
                    (handleCreateSvc samples.env_ok samples.svc_clusterip
                       samples.proc0).2).2)
    !! corev1.UID samples.svc_clusterip
  = sl_metrics (sl (handleCreateSvc samples.env_ok samples.svc_clusterip
                      samples.proc0).2)
      !! corev1.UID samples.svc_clusterip.
Proof.
  destruct (handleCreateSvc_keeps_others samples.env_ok samples.svc_dualstack
              (handleCreateSvc samples.env_ok samples.svc_clusterip
                 samples.proc0).2
              (handleCreateSvc samples.env_ok samples.svc_dualstack
                 (handleCreateSvc samples.env_ok samples.svc_clusterip
                    samples.proc0).2).1
              (handleCreateSvc samples.env_ok samples.svc_dualstack
                 (handleCreateSvc samples.env_ok samples.svc_clusterip
                    samples.proc0).2).2)
    as (_ & _ & _ & _ & _ & H).
  - apply surjective_pairing.
  - apply H. discriminate.
Defined.

(** *** Which addresses and ports are probed *)

Lemma go_inv (body : M unit) (q : proc) r (p' : proc) :
  go body q = (r, p') ->
  exists rg, body q = (rg, p') /\
             (r = inl tt \/ exists c, r = inr (Exited c) /\ rg = inr (Exited c)).
Proof.
  unfold go. destruct (body q) as [[[]|[|c|]] pg]; intros [= <- <-];
    eexists; split; try reflexivity; eauto.
Qed.

(** The probes of a run of the goroutine follow the plan of the service,
    with the checker that was obtained once the endpoints were ready. *)
Lemma goroutine_targets (E : Env) (svc : corev1.Service) (q : proc)
    rg (p' : proc) (prs : list probe) :
  handleCreateSvc_goroutine E svc q = (rg, p') ->
  probes p' = probes q ++ prs ->
  prs = [] \/
  exists p1 p2,
    waitForEndpoints E svc p1 = (inl None, p2) /\
    map target prs
      `prefix_of` probePlan (checker_of E p2) svc (corev1.Spec_Ports svc) [] /\
    (rg = inl tt ->
     map target prs = probePlan (checker_of E p2) svc (corev1.Spec_Ports svc) []).
Proof.
  intros Hrun Hprs.
  destruct (goroutine_spec E svc q) as (prs0 & H). rewrite Hrun in H.
  destruct H as (Hprs0 & _ & Hcase).
  assert (prs0 = prs) as ->.
  { rewrite Hprs in Hprs0. now apply app_inv_head in Hprs0. }
  destruct rg as [[]|[|c|]].
  - destruct Hcase as (lat & p1 & p2 & _ & Hw & _ & Hplan & _).
    right. exists p1, p2. split; [exact Hw|]. rewrite Hplan. split; auto.
  - destruct Hcase as (_ & lat & p1 & p2 & _ & Hw & Hpre & _).
    right. exists p1, p2. split; [exact Hw|]. split; [exact Hpre|discriminate].
  - left. tauto.
  - left. tauto.
Qed.

Lemma probePlan_ports checker svc (ports : list corev1.ServicePort) :
  forall (ips : list string) (tgt : string * Z),
    In tgt (probePlan checker svc ports ips) ->
    exists specPort,
      In specPort ports /\
      corev1.Protocol specPort = corev1.ProtocolTCP /\
      (tgt.2 = corev1.Port specPort \/ tgt.2 = corev1.NodePort specPort).
Proof.
  induction ports as [|sp rest IH]; intros ips tgt Hin; cbn in Hin; [easy|].
  assert (Hrest : forall ips', In tgt (probePlan checker svc rest ips') ->
            exists specPort, In specPort (sp :: rest) /\
              corev1.Protocol specPort = corev1.ProtocolTCP /\
              (tgt.2 = corev1.Port specPort \/ tgt.2 = corev1.NodePort specPort)).
  { intros ips' H. destruct (IH _ _ H) as (sp' & ? & ? & ?).
    exists sp'. split; [now right|auto]. }
  destruct (decide (corev1.Protocol sp = corev1.ProtocolTCP)) as [Htcp|];
    [|eauto].
  assert (Hhere : forall (l : list string) port,
            In tgt (map (fun ip => (ip, port)) l) -> tgt.2 = port).
  { intros l port H. apply in_map_iff in H. destruct H as (ip & <- & _).
    reflexivity. }
  repeat (destruct (decide (corev1.Spec_Type svc = _)));
    try (apply in_app_or in Hin; destruct Hin as [Hin|Hin]; [|eauto]);
    try easy.
  - exists sp. split; [now left|]. split; [exact Htcp|].
    left. eapply Hhere, Hin.
  - destruct Hin as [<-|Hin]; [|eauto].
    exists sp. split; [now left|]. split; [exact Htcp|]. now right.
  - exists sp. split; [now left|]. split; [exact Htcp|].
    left. eapply Hhere, Hin.
Qed.

(** Only the TCP ports of a service are probed: every probe that
    [handleCreateSvc] issues goes to the port, or the node port, of a TCP
    entry of [svc.Spec.Ports]; a service without a TCP port is not probed
    at all. *)
Theorem handleCreateSvc_probes_TCP_only (E : Env) (svc : corev1.Service)
    (p : proc) r (p' : proc) (prs : list probe) :
  handleCreateSvc E svc p = (r, p') ->
  probes p' = probes p ++ prs ->
  (forall pr,
      pr ∈ prs ->
      exists specPort,
        specPort ∈ corev1.Spec_Ports svc /\
        corev1.Protocol specPort = corev1.ProtocolTCP /\
        (probe_port pr = corev1.Port specPort \/
         probe_port pr = corev1.NodePort specPort)) /\
  (tcpPorts svc = [] -> prs = []).
Proof.
  rewrite handleCreateSvc_eq. intros Hrun Hprs.
  apply go_inv in Hrun. destruct Hrun as (rg & Hrun & _).
  destruct (goroutine_targets E svc _ rg p' prs Hrun Hprs)
    as [->|(p1 & p2 & _ & Hpre & _)].
  { split; [|reflexivity]. intros pr Hpr. now apply elem_of_nil in Hpr. }
  assert (Hall : forall pr, pr ∈ prs ->
            exists specPort,
              specPort ∈ corev1.Spec_Ports svc /\
              corev1.Protocol specPort = corev1.ProtocolTCP /\
              (probe_port pr = corev1.Port specPort \/
               probe_port pr = corev1.NodePort specPort)).
  { intros pr Hpr.
    assert (Hin : In (target pr)
                     (probePlan (checker_of E p2) svc (corev1.Spec_Ports svc) [])).
    { destruct Hpre as (tail & ->). apply in_or_app. left.
      apply in_map. now apply list_elem_of_In. }
    destruct (probePlan_ports _ _ _ _ _ Hin) as (sp & Hsp & Htcp & Hport).
    exists sp. split; [now apply list_elem_of_In|]. split; [exact Htcp|].
    exact Hport. }
  split; [exact Hall|].
  intros Hnone. destruct prs as [|pr prs]; [reflexivity|].
  destruct (Hall pr (list_elem_of_here _ _)) as (sp & Hsp & Htcp & _).
  assert (sp ∈ tcpPorts svc) as Hmem.
  { unfold tcpPorts. apply list_elem_of_filter. split; assumption. }
  rewrite Hnone in Hmem. now apply elem_of_nil in Hmem.
Qed.

Lemma handleCreateSvc_probes_TCP_only_witness :
  probes (handleCreateSvc samples.env_ok samples.svc_headless_udp
            samples.proc0).2 = [].
Proof.
  destruct (handleCreateSvc_probes_TCP_only samples.env_ok
              samples.svc_headless_udp samples.proc0
              (handleCreateSvc samples.env_ok samples.svc_headless_udp
                 samples.proc0).1
              (handleCreateSvc samples.env_ok samples.svc_headless_udp
                 samples.proc0).2
              (probes (handleCreateSvc samples.env_ok samples.svc_headless_udp
                         samples.proc0).2)) as (_ & H).
  - apply surjective_pairing.
  - reflexivity.
  - apply H. vm_compute. reflexivity.
Defined.

(** *** NodePort services *)

Lemma probePlan_NodePort checker svc (ports : list corev1.ServicePort) :
  corev1.Spec_Type svc = corev1.ServiceTypeNodePort ->
  forall ips : list string,
    probePlan checker svc ports ips
    = map (fun specPort => (Pod_Status_HostIP checker, corev1.NodePort specPort))
          (filter (fun specPort => corev1.Protocol specPort = corev1.ProtocolTCP)
                  ports).
Proof.
  intros Htype. induction ports as [|sp rest IH]; intros ips; [reflexivity|].
  cbn [probePlan]. rewrite filter_cons.
  destruct (decide (corev1.Protocol sp = corev1.ProtocolTCP)); [|apply IH].
  rewrite Htype.
  destruct (decide (corev1.ServiceTypeNodePort = corev1.ServiceTypeClusterIP));
    [discriminate|].
  destruct (decide (corev1.ServiceTypeNodePort = corev1.ServiceTypeNodePort));
    [|congruence].
  cbn. f_equal. apply IH.
Qed.

(** A NodePort service is not waited for at the load balancer: the wait
    for its endpoints starts at once.  While that wait does not return
    there is no probe.  Once the endpoints are ready, the service is probed
    at the host IP of the checker pod, on the node port of each TCP port in
    turn, whatever its cluster IPs: a run that reaches the store has made
    exactly these probes, one per TCP port and all successful; any other
    run has stopped at the first probe that failed, having made the probes
    up to that one. *)
Theorem NodePort_probed_at_host_IP (E : Env) (svc : corev1.Service)
    (p : proc) r (p' : proc) (prs : list probe) :
  corev1.Spec_Type svc = corev1.ServiceTypeNodePort ->
  handleCreateSvc_goroutine E svc p = (r, p') ->
  probes p' = probes p ++ prs ->
  ((exists sg p2, waitForEndpoints E svc p = (inr sg, p2) /\ r = inr sg)
   /\ prs = [])
  \/ ((exists e p2, waitForEndpoints E svc p = (inl (Some e), p2))
      /\ r = inr (Exited 1) /\ prs = [])
  \/ exists p2,
       waitForEndpoints E svc p = (inl None, p2) /\
       let plan :=
         map (fun specPort =>
                (Pod_Status_HostIP (checker_of E p2), corev1.NodePort specPort))
             (tcpPorts svc) in
       (r = inl tt /\ map target prs = plan /\ Forall probe_ok prs
        /\ length prs = length (tcpPorts svc))
       \/ (r = inr Returned /\
           exists oks pr e,
             prs = oks ++ [pr] /\ Forall probe_ok oks /\
             probe_err pr = Some e /\
             map target prs `prefix_of` plan).
Proof.
  intros Htype Hrun Hprs.
  assert (Hlb : corev1.Spec_Type svc <> corev1.ServiceTypeLoadBalancer).
  { rewrite Htype. discriminate. }
  assert (Hsupported : ~ unsupported svc).
  { intros (_ & Hnp & _). contradiction. }
  destruct (goroutine_spec E svc p) as (prs0 & H). rewrite Hrun in H.
  destruct H as (Hprs0 & _ & Hcase).
  assert (prs0 = prs) as ->.
  { rewrite Hprs in Hprs0. now apply app_inv_head in Hprs0. }
  assert (Hwait : forall lat p1,
            waitIngressIfLoadBalancer E svc (clock p) p = (inl lat, p1) ->
            p1 = p).
  { intros lat p1 Hw.
    destruct (waitIngressIfLoadBalancer_run E svc (clock p) p)
      as [(_ & Heq)|(Hl & _)]; [|contradiction].
    congruence. }
  unfold tcpPorts.
  destruct r as [[]|[|c|]].
  - destruct Hcase as (lat & p1 & p2 & Hw1 & Hw & Hok & Hplan & _).
    apply Hwait in Hw1. subst p1.
    right. right. exists p2. split; [exact Hw|]. cbv zeta. left.
    rewrite (probePlan_NodePort (checker_of E p2) svc _ Htype []) in Hplan.
    split; [reflexivity|]. split; [exact Hplan|]. split; [exact Hok|].
    apply (f_equal (@length _)) in Hplan.
    now rewrite !length_map in Hplan.
  - destruct Hcase as (_ & lat & p1 & p2 & Hw1 & Hw & Hpre & Hfail).
    apply Hwait in Hw1. subst p1.
    right. right. exists p2. split; [exact Hw|]. cbv zeta. right.
    split; [reflexivity|].
    rewrite (probePlan_NodePort (checker_of E p2) svc _ Htype []) in Hpre.
    destruct Hfail as [(oks & pr & e & -> & Hoks & He & _)|(_ & Hun & _)];
      [|contradiction].
    exists oks, pr, e. auto.
  - destruct Hcase as (-> & _ & -> & e & _ & Hcause).
    right. left.
    destruct Hcause as [(Hl & _)|(lat & p1 & t2 & Hw1 & Hw)]; [contradiction|].
    apply Hwait in Hw1. subst p1. split; [eauto|]. split; reflexivity.
  - destruct Hcase as (_ & -> & _).
    left. split; [|reflexivity].
    rewrite goroutine_eq in Hrun.
    destruct (waitIngressIfLoadBalancer_run E svc (clock p) p)
      as [(_ & Heq)|(Hl & _)]; [|contradiction].
    rewrite Heq in Hrun.
    destruct (waitForEndpoints E svc p) as [[[e|]|sg] p2] eqn:Hw.
    + discriminate Hrun.
    + cbv zeta in Hrun.
      destruct (portsLoop_run E (checker_of E p2)
                  (ServiceTimeout (sl_config (sl (after_checker E svc p2))))
                  svc (corev1.Spec_Ports svc) [] 0 (after_checker E svc p2))
        as (prs1 & _ & H).
      destruct (portsLoop E _ _ svc _ [] 0 (after_checker E svc p2))
        as [[[]|sg] p4].
      * discriminate Hrun.
      * destruct H as (-> & _). discriminate Hrun.
    + injection Hrun as -> _. eauto.
Qed.

(** *** LoadBalancer services *)

Lemma probePlan_LoadBalancer_length checker svc
    (ports : list corev1.ServicePort) :
  corev1.Spec_Type svc = corev1.ServiceTypeLoadBalancer ->
  forall ips : list string,
    (2 * length (probePlan checker svc ports ips)
     = 2 * length (filter (fun specPort =>
                             corev1.Protocol specPort = corev1.ProtocolTCP)
                          ports) * length ips
       + length (corev1.Status_LoadBalancer_Ingress svc)
         * length (filter (fun specPort =>
                             corev1.Protocol specPort = corev1.ProtocolTCP)
                          ports)
         * (length (filter (fun specPort =>
                              corev1.Protocol specPort = corev1.ProtocolTCP)
                           ports) + 1))%nat.
Proof.
  intros Htype. induction ports as [|sp rest IH]; intros ips; [cbn; lia|].
  cbn [probePlan]. rewrite filter_cons.
  destruct (decide (corev1.Protocol sp = corev1.ProtocolTCP)); [|apply IH].
  rewrite Htype.
  destruct (decide (corev1.ServiceTypeLoadBalancer = corev1.ServiceTypeClusterIP));
    [discriminate|].
  destruct (decide (corev1.ServiceTypeLoadBalancer = corev1.ServiceTypeNodePort));
    [discriminate|].
  destruct (decide (corev1.ServiceTypeLoadBalancer = corev1.ServiceTypeLoadBalancer));
    [|congruence].
  cbv zeta. rewrite length_app, length_map.
  specialize (IH (appendIngress ips (corev1.Status_LoadBalancer_Ingress svc))).
  rewrite appendIngress_eq in *.
  rewrite length_app, length_map in *. cbn [length].
  remember (length (filter _ rest)) as k.
  remember (length (corev1.Status_LoadBalancer_Ingress svc)) as m.
  nia.
Qed.

(** The addresses of a load balancer pile up from one port to the next,
    because [ips] outlives the iteration: the first TCP port is probed at
    the [m] ingress addresses, the second at [2m] addresses (each one
    twice), and so on.  A complete run over [k] TCP ports thus issues
    [m * k * (k + 1) / 2] probes, not [m * k]. *)
Theorem LoadBalancer_probes_pile_up (E : Env) (svc : corev1.Service)
    (p p' : proc) (prs : list probe) :
  corev1.Spec_Type svc = corev1.ServiceTypeLoadBalancer ->
  handleCreateSvc_goroutine E svc p = (inl tt, p') ->
  probes p' = probes p ++ prs ->
  (2 * length prs
   = length (corev1.Status_LoadBalancer_Ingress svc)
     * timeline.tcpPortCount svc * (timeline.tcpPortCount svc + 1))%nat.
Proof.
  intros Htype Hrun Hprs.
  destruct (goroutine_targets E svc p (inl tt) p' prs Hrun Hprs)
    as [->|(p1 & p2 & _ & _ & Hplan)].
  - destruct (goroutine_spec E svc p) as (prs0 & H). rewrite Hrun in H.
    destruct H as (Hprs0 & _ & lat & p1 & p2 & _ & _ & _ & Hplan & _).
    rewrite app_nil_r in Hprs.
    rewrite Hprs in Hprs0.
    assert (prs0 = []) as ->.
    { apply (app_inv_head (probes p)). now rewrite app_nil_r. }
    pose proof (probePlan_LoadBalancer_length (checker_of E p2) svc
                  (corev1.Spec_Ports svc) Htype []) as Hlen.
    rewrite <- Hplan in Hlen. cbn [map length] in Hlen.
    unfold timeline.tcpPortCount, tcpPorts. cbn [length]. nia.
  - specialize (Hplan eq_refl).
    pose proof (probePlan_LoadBalancer_length (checker_of E p2) svc
                  (corev1.Spec_Ports svc) Htype []) as Hlen.
    rewrite <- Hplan, length_map in Hlen. cbn [length] in Hlen.
    unfold timeline.tcpPortCount, tcpPorts. nia.
Qed.

Lemma NodePort_probed_at_host_IP_witness :
  map target (probes (handleCreateSvc_goroutine samples.env_ok
                        more_samples.svc_nodeport samples.proc0).2)
  = [("192.168.1.10", 30080); ("192.168.1.10", 30443)].
Proof.
  destruct (NodePort_probed_at_host_IP samples.env_ok
              more_samples.svc_nodeport samples.proc0 (inl tt)
              (handleCreateSvc_goroutine samples.env_ok
                 more_samples.svc_nodeport samples.proc0).2
              (probes (handleCreateSvc_goroutine samples.env_ok
                         more_samples.svc_nodeport samples.proc0).2))
    as [((sg & p2 & _ & Hr) & _)|[(_ & Hr & _)|(p2 & Hw & H)]].
  - reflexivity.
  - vm_compute. reflexivity.
  - reflexivity.
  - discriminate Hr.
  - discriminate Hr.
  - cbv zeta in H. destruct H as [(_ & Hplan & _)|(Hr & _)];
      [|discriminate Hr].
    rewrite Hplan. vm_compute in Hw. injection Hw as <-.
    vm_compute. reflexivity.
Defined.

Lemma LoadBalancer_probes_pile_up_witness :
  (2 * length (probes (handleCreateSvc_goroutine samples.env_ok
                         more_samples.svc_lb_two_ports samples.proc0).2)
   = 1 * 2 * (2 + 1))%nat.
Proof.
  apply (LoadBalancer_probes_pile_up samples.env_ok
           more_samples.svc_lb_two_ports samples.proc0
           (handleCreateSvc_goroutine samples.env_ok
              more_samples.svc_lb_two_ports samples.proc0).2).
  - reflexivity.
  - vm_compute. reflexivity.
  - reflexivity.
Defined.

(** *** Service types outside the [switch] *)

Lemma resolveTargets_unsupported checker svc specPort (ips : list string)
    (p : proc) :
  unsupported svc ->
  resolveTargets checker svc specPort ips p
  = (inr Returned,
     add_log {| Level_of := WarnLevel;
                Message := "Service type " +:+ corev1.Spec_Type svc
                           +:+ " not supported, skipping" |} p).
Proof.
  intros (H1 & H2 & H3). unfold resolveTargets.
  repeat (destruct (decide _); [contradiction|]). reflexivity.
Qed.

Lemma portsLoop_unsupported (E : Env) checker timeout svc
    (ports : list corev1.ServicePort) (ips : list string) (port : Z)
    (p : proc) :
  unsupported svc ->
  portsLoop E checker timeout svc ports ips port p
  = match filter (fun specPort => corev1.Protocol specPort = corev1.ProtocolTCP)
                 ports with
    | [] => (inl tt, p)
    | _ :: _ =>
        (inr Returned,
         add_log {| Level_of := WarnLevel;
                    Message := "Service type " +:+ corev1.Spec_Type svc
                               +:+ " not supported, skipping" |} p)
    end.
Proof.
  intros Hun. induction ports as [|sp rest IH]; [reflexivity|].
  cbn [portsLoop]. rewrite filter_cons.
  destruct (decide (corev1.Protocol sp = corev1.ProtocolTCP)); [|exact IH].
  rewrite bind_run, resolveTargets_unsupported by exact Hun. reflexivity.
Qed.

(** A service of a type other than ClusterIP, NodePort and LoadBalancer
    (ExternalName, say) is waited for like the others.  Once its endpoints
    are ready, the first TCP port ends the goroutine with a warning: no
    probe is issued and no sample is kept.  Without a TCP port the switch
    is never reached, and the service gets a sample although nothing was
    probed. *)
Theorem unsupported_type_skipped (E : Env) (svc : corev1.Service)
    (p p2 : proc) :
  unsupported svc ->
  waitForEndpoints E svc p = (inl None, p2) ->
  (tcpPorts svc <> [] ->
   handleCreateSvc_goroutine E svc p
   = (inr Returned,
      add_log {| Level_of := WarnLevel;
                 Message := "Service type " +:+ corev1.Spec_Type svc
                            +:+ " not supported, skipping" |}
              (after_checker E svc p2))) /\
  (tcpPorts svc = [] ->
   exists p',
     handleCreateSvc_goroutine E svc p = (inl tt, p') /\
     is_Some (sl_metrics (sl p') !! corev1.UID svc)) /\
  (forall r p',
      handleCreateSvc_goroutine E svc p = (r, p') ->
      probes p' = probes p /\
      (tcpPorts svc <> [] -> sl p' = sl p)).
Proof.
  intros Hun Hw.
  assert (Hrun : handleCreateSvc_goroutine E svc p
                 = match tcpPorts svc with
                   | [] =>
                       storeMetric E svc
                         (clock (after_checker E svc p2) - clock p2) 0
                         (add_log
                            (latency_entry svc
                               (clock (after_checker E svc p2) - clock p2))
                            (after_checker E svc p2))
                   | _ :: _ =>
                       (inr Returned,
                        add_log {| Level_of := WarnLevel;
                                   Message := "Service type "
                                              +:+ corev1.Spec_Type svc
                                              +:+ " not supported, skipping" |}
                                (after_checker E svc p2))
                   end).
  { rewrite goroutine_eq.
    destruct (waitIngressIfLoadBalancer_run E svc (clock p) p)
      as [(_ & ->)|(Hlb & _)]; [|destruct Hun as (_ & _ & []); exact Hlb].
    rewrite Hw. cbv zeta. rewrite portsLoop_unsupported by exact Hun.
    unfold tcpPorts. destruct (filter _ _); reflexivity. }
  pose proof (after_checker_frame E svc p2) as (Hsl & Hpr & _).
  pose proof (waitForEndpoints_frame E svc p p2 _ Hw) as (Hsl2 & Hpr2 & _).
  split; [|split].
  - intros Hne. rewrite Hrun. destruct (tcpPorts svc); [contradiction|].
    reflexivity.
  - intros Hnil. rewrite Hrun, Hnil. eexists. split; [reflexivity|].
    cbn. rewrite lookup_insert_eq. eauto.
  - intros r p' Hr. rewrite Hrun in Hr.
    destruct (tcpPorts svc) as [|sp l].
    + injection Hr as <- <-. cbn. split; [congruence|]. contradiction.
    + injection Hr as <- <-. cbn. split; [congruence|]. intros _. congruence.
Qed.

Lemma unsupported_type_skipped_witness :
  (handleCreateSvc_goroutine samples.env_ok more_samples.svc_externalname
     samples.proc0).1 = inr Returned /\
  is_Some (sl_metrics
             (sl (handleCreateSvc_goroutine samples.env_ok
                    more_samples.svc_externalname_udp samples.proc0).2)
             !! "uid-ext-dns").
Proof.
  split.
  - destruct (unsupported_type_skipped samples.env_ok
                more_samples.svc_externalname samples.proc0
                (waitForEndpoints samples.env_ok more_samples.svc_externalname
                   samples.proc0).2) as (H & _).
    + repeat split; discriminate.
    + vm_compute. reflexivity.
    + rewrite H; [reflexivity|discriminate].
  - destruct (unsupported_type_skipped samples.env_ok
                more_samples.svc_externalname_udp samples.proc0
                (waitForEndpoints samples.env_ok
                   more_samples.svc_externalname_udp samples.proc0).2)
      as (_ & H & _).
    + repeat split; discriminate.
    + vm_compute. reflexivity.
    + destruct (H eq_refl) as (p' & -> & Hsome). exact Hsome.
Defined.

(** *** The time that the probes take *)

Import timeline.

Lemma back_to_back_app (t : Z) (prs1 prs2 : list probe) :
  back_to_back t prs1 ->
  back_to_back (clock_after t prs1) prs2 ->
  back_to_back t (prs1 ++ prs2).
Proof.
  revert t. induction prs1 as [|pr prs1 IH]; intros t H1 H2; [exact H2|].
  destruct H1 as (Hstart & H1). split; [exact Hstart|].
  apply IH; [exact H1|].
  replace (clock_after (probe_end pr) prs1) with (clock_after t (pr :: prs1));
    [exact H2|].
  unfold clock_after. destruct prs1 as [|pr' prs1]; [reflexivity|].
  change (pr :: pr' :: prs1) with ([pr] ++ pr' :: prs1).
  destruct (pr' :: prs1) as [|x l] using rev_ind; [reflexivity|].
  now rewrite app_assoc, !last_snoc.
Qed.

Lemma back_to_back_total (t : Z) (prs : list probe) :
  back_to_back t prs -> clock_after t prs = t + total_duration prs.
Proof.
  revert t. induction prs as [|pr prs IH]; intros t H.
  - cbn. lia.
  - destruct H as (Hstart & H). specialize (IH _ H).
    cbn [total_duration foldr]. fold (total_duration prs).
    unfold probe_duration at 1. rewrite Hstart.
    replace (clock_after t (pr :: prs)) with (clock_after (probe_end pr) prs);
      [lia|].
    unfold clock_after. destruct prs as [|pr' prs]; [reflexivity|].
    change (pr :: pr' :: prs) with ([pr] ++ pr' :: prs).
    destruct (pr' :: prs) as [|x l] using rev_ind; [reflexivity|].
    now rewrite app_assoc, !last_snoc.
Qed.

Lemma probed_refl (E : Env) (p : proc) : probed E p [] p.
Proof.
  unfold probed. rewrite app_nil_r. repeat split; constructor.
Qed.

Lemma probed_trans (E : Env) (p p1 p2 : proc) (prs1 prs2 : list probe) :
  probed E p prs1 p1 -> probed E p1 prs2 p2 -> probed E p (prs1 ++ prs2) p2.
Proof.
  intros (Hp1 & Hc1 & Hb1 & Ha1) (Hp2 & Hc2 & Hb2 & Ha2).
  repeat split.
  - now rewrite Hp2, Hp1, app_assoc.
  - now rewrite Hc2, Hc1, clock_after_app.
  - apply back_to_back_app; [exact Hb1|]. now rewrite <- Hc1.
  - apply Forall_app; auto.
Qed.

Lemma probed_log (E : Env) (p p' : proc) (prs : list probe) e :
  probed E p prs p' -> probed E p prs (add_log e p').
Proof. intros H. exact H. Qed.

Lemma call_Ping_probed (E : Env) checker ip port timeout (p : proc)
    r (p' : proc) :
  call_Ping E checker ip port timeout p = (r, p') ->
  exists pr, probed E p [pr] p'.
Proof.
  unfold call_Ping.
  destruct (Ping E checker ip port timeout (clock p)) as [d err] eqn:HP.
  intros [= <- <-]. eexists. repeat split; cbn; try reflexivity.
  constructor; [|constructor]. exists checker, timeout. cbn.
  unfold probe_duration. cbn. rewrite HP. f_equal. lia.
Qed.

Lemma pingLoop_probed (E : Env) checker timeout port (ips : list string) :
  forall (p : proc) r (p' : proc),
    pingLoop E checker timeout ips port p = (r, p') ->
    exists prs, probed E p prs p'.
Proof.
  induction ips as [|ip rest IH]; intros p r p' Hrun.
  - injection Hrun as <- <-. exists []. apply probed_refl.
  - cbn [pingLoop] in Hrun. rewrite bind_run in Hrun.
    destruct (call_Ping E checker ip port timeout p) as [[err|sg] p1] eqn:HP.
    2:{ unfold call_Ping in HP. destruct (Ping E _ _ _ _ _). discriminate. }
    destruct (call_Ping_probed _ _ _ _ _ _ _ _ HP) as (pr & Hpr).
    destruct err as [e|].
    + rewrite bind_run, log_run in Hrun. injection Hrun as <- <-.
      exists [pr]. now apply probed_log.
    + destruct (IH _ _ _ Hrun) as (prs & Hprs).
      exists ([pr] ++ prs). eapply probed_trans; eassumption.
Qed.

Lemma portsLoop_probed (E : Env) checker timeout svc
    (ports : list corev1.ServicePort) :
  forall (ips : list string) (port : Z) (p : proc) r (p' : proc),
    portsLoop E checker timeout svc ports ips port p = (r, p') ->
    exists prs, probed E p prs p'.
Proof.
  induction ports as [|sp rest IH]; intros ips port p r p' Hrun.
  - injection Hrun as <- <-. exists []. apply probed_refl.
  - cbn [portsLoop] in Hrun.
    destruct (decide (corev1.Protocol sp = corev1.ProtocolTCP)) as [Htcp|];
      [|now apply IH in Hrun].
    rewrite bind_run in Hrun.
    destruct (resolveTargets_cases checker svc sp rest ips p Htcp)
      as [(ips' & port' & Hres & _)|(_ & _ & Hres)]; rewrite Hres in Hrun.
    2:{ injection Hrun as <- <-. exists []. apply probed_log, probed_refl. }
    rewrite bind_run in Hrun.
    destruct (pingLoop E checker timeout ips' port' p) as [[[]|sg] p1] eqn:HL;
      destruct (pingLoop_probed _ _ _ _ _ _ _ _ HL) as (prs1 & H1).
    + destruct (IH _ _ _ _ _ Hrun) as (prs2 & H2).
      exists (prs1 ++ prs2). eapply probed_trans; eassumption.
    + injection Hrun as <- <-. exists prs1. exact H1.
Qed.

Lemma after_checker_clock (E : Env) svc (p2 : proc) :
  clock (after_checker E svc p2)
  = clock p2 + (NewSvcLatencyChecker E (clock p2)).1.1.
Proof.
  unfold after_checker.
  destruct (NewSvcLatencyChecker E (clock p2)) as [[d c] [e|]]; reflexivity.
Qed.

(** A complete run of the goroutine: the sample and the probes behind
    it. *)
Lemma goroutine_timeline (E : Env) (svc : corev1.Service) (p p' : proc)
    (prs : list probe) :
  handleCreateSvc_goroutine E svc p = (inl tt, p') ->
  probes p' = probes p ++ prs ->
  exists lat p1 p2 m,
    waitIngressIfLoadBalancer E svc (clock p) p = (inl lat, p1) /\
    waitForEndpoints E svc p1 = (inl None, p2) /\
    sl_metrics (sl p') !! corev1.UID svc = Some m /\
    m = newSvcMetric E svc (clock p' - clock p2) lat /\
    clock p'
    = clock p2 + (NewSvcLatencyChecker E (clock p2)).1.1 + total_duration prs /\
    back_to_back (clock p2 + (NewSvcLatencyChecker E (clock p2)).1.1) prs /\
    Forall (answered_by E) prs.
Proof.
  intros Hrun Hprs. pose proof Hrun as Hrun0. rewrite goroutine_eq in Hrun.
  destruct (waitIngressIfLoadBalancer E svc (clock p) p) as [[lat|sg] p1] eqn:Hw1;
    [|discriminate].
  destruct (waitForEndpoints E svc p1) as [[[e|]|sg] p2] eqn:Hw2;
    try discriminate.
  cbv zeta in Hrun.
  destruct (portsLoop E (checker_of E p2) _ svc _ [] 0 (after_checker E svc p2))
    as [[[]|sg] p4] eqn:HL; [|discriminate].
  destruct (portsLoop_probed _ _ _ _ _ _ _ _ _ _ HL)
    as (prs4 & Hp4 & Hc4 & Hb4 & Ha4).
  injection Hrun as <-.
  pose proof (after_checker_frame E svc p2) as (_ & Hpr3 & _).
  pose proof (waitForEndpoints_frame E svc p1 p2 _ Hw2) as (_ & Hpr2 & _).
  pose proof (waitIngress_frame E svc _ p p1 _ Hw1) as (_ & Hpr1 & _).
  cbn in Hprs. rewrite Hp4, Hpr3, Hpr2, Hpr1 in Hprs.
  apply app_inv_head in Hprs. subst prs4.
  rewrite after_checker_clock in Hc4, Hb4.
  exists lat, p1, p2, (newSvcMetric E svc (clock p4 - clock p2) lat).
  cbn. rewrite lookup_insert_eq.
  repeat split; auto.
  rewrite Hc4. now apply back_to_back_total.
Qed.

(** [ReadyLatency] is the time that the checker took to be obtained plus
    the durations of all the probes of the service, which follow one
    another without a gap: each probe made adds its whole duration to the
    sample. *)
Theorem ReadyLatency_sums_probe_durations (E : Env) (svc : corev1.Service)
    (p p' : proc) (prs : list probe) :
  handleCreateSvc_goroutine E svc p = (inl tt, p') ->
  probes p' = probes p ++ prs ->
  exists p1 p2 m,
    waitForEndpoints E svc p1 = (inl None, p2) /\
    sl_metrics (sl p') !! corev1.UID svc = Some m /\
    ReadyLatency m
    = (NewSvcLatencyChecker E (clock p2)).1.1 + total_duration prs /\
    back_to_back (clock p2 + (NewSvcLatencyChecker E (clock p2)).1.1) prs /\
    Forall (answered_by E) prs.
Proof.
  intros Hrun Hprs.
  destruct (goroutine_timeline E svc p p' prs Hrun Hprs)
    as (lat & p1 & p2 & m & _ & Hw & Hm & -> & Hc & Hb & Ha).
  exists p1, p2. eexists. split; [exact Hw|]. split; [exact Hm|].
  cbn. split; [lia|]. split; assumption.
Qed.

Lemma ReadyLatency_sums_probe_durations_witness :
  exists m,
    sl_metrics (sl (handleCreateSvc_goroutine samples.env_ok
                      samples.svc_dualstack samples.proc0).2)
      !! "uid-dual" = Some m /\
    ReadyLatency m = 1000000 + (5000000 + 7000000).
Proof.
  destruct (ReadyLatency_sums_probe_durations samples.env_ok
              samples.svc_dualstack samples.proc0
              (handleCreateSvc_goroutine samples.env_ok
                 samples.svc_dualstack samples.proc0).2
              (probes (handleCreateSvc_goroutine samples.env_ok
                         samples.svc_dualstack samples.proc0).2))
    as (p1 & p2 & m & _ & Hm & Hlat & _).
  - vm_compute. reflexivity.
  - reflexivity.
  - exists m. split; [exact Hm|]. rewrite Hlat. vm_compute. reflexivity.
Defined.






(** *** The two waits under the reference behaviour of the polling helper *)

Lemma waitForEndpoints_condition_no_error (E : Env) svc (t : Z) :
  (waitForEndpoints_condition E svc t).2 = None.
Proof.
  unfold waitForEndpoints_condition.
  destruct (epLister_Get E t _ _); reflexivity.
Qed.

Lemma waitForIngress_condition_no_error (E : Env) svc (t : Z) :
  (waitForIngress_condition E svc t).2 = None.
Proof.
  unfold waitForIngress_condition.
  destruct (svcLister_Get E t _ _); reflexivity.
Qed.

Lemma poll_reference_first_success (fuel : nat) (interval : Z)
    (condition : Z -> bool * option error) :
  (forall t, (condition t).2 = None) ->
  forall t t',
    poll_reference fuel context_TODO interval true condition t
    = Some (t', None) ->
    exists k : nat,
      t' = t + Z.of_nat k * interval /\ (condition t').1 = true /\
      forall j : nat,
        (j < k)%nat -> (condition (t + Z.of_nat j * interval)).1 = false.
Proof.
  intros Hcond t t'. unfold poll_reference.
  pose proof (Hcond t) as H0.
  destruct (condition t) as [[|] [e0|]] eqn:Hc; cbn in H0; try discriminate.
  - intros [= <-]. exists O. rewrite Hc.
    split; [lia|]. split; [reflexivity|]. intros j Hj. lia.
  - intros Hr.
    destruct (poll_rounds_first_success _ _ _ Hcond _ _ Hr)
      as (k & -> & Hdone & Hbefore).
    exists (S k). split; [lia|]. split; [exact Hdone|].
    intros [|j] Hj.
    + rewrite Z.mul_0_l, Z.add_0_r, Hc. reflexivity.
    + specialize (Hbefore j ltac:(lia)).
      replace (t + Z.of_nat (S j) * interval)
        with (t + interval + Z.of_nat j * interval) by lia.
      exact Hbefore.
Qed.

Lemma poll_rounds_never (fuel : nat) (interval : Z)
    (condition : Z -> bool * option error) (t : Z) :
  (forall j : nat, condition (t + Z.of_nat j * interval) = (false, None)) ->
  poll_rounds fuel context_TODO interval condition t = None.
Proof.
  revert t. induction fuel as [|fuel IH]; intros t Hnever; [reflexivity|].
  cbn [poll_rounds]. unfold context_TODO at 1.
  pose proof (Hnever O) as H0. rewrite Z.mul_0_l, Z.add_0_r in H0.
  rewrite H0. apply IH. intros j. specialize (Hnever (S j)).
  replace (t + interval + Z.of_nat j * interval)
    with (t + Z.of_nat (S j) * interval) by lia.
  exact Hnever.
Qed.

Lemma poll_reference_never (fuel : nat) (interval : Z)
    (condition : Z -> bool * option error) (t : Z) :
  (forall j : nat, condition (t + Z.of_nat j * interval) = (false, None)) ->
  poll_reference fuel context_TODO interval true condition t = None.
Proof.
  intros Hnever. unfold poll_reference.
  pose proof (Hnever O) as H0. rewrite Z.mul_0_l, Z.add_0_r in H0.
  rewrite H0. apply poll_rounds_never. intros j. specialize (Hnever (S j)).
  replace (t + interval + Z.of_nat j * interval)
    with (t + Z.of_nat (S j) * interval) by lia.
  exact Hnever.
Qed.

(** When the polling helper behaves as its documentation says, the two
    [log.Fatal] of [handleCreateSvc] are out of reach: the conditions never
    report an error and the context is never done, so that no delivery of
    a service, and no series of deliveries, ends the process. *)
Theorem handleCreateSvc_all_never_exits (E : Env) (fuel : nat)
    (svcs : list corev1.Service) (p : proc) :
  PollUntilContextCancel E = poll_reference fuel ->
  (handleCreateSvc_all E svcs p).1 = inl tt /\
  forall svc, (handleCreateSvc E svc p).1 = inl tt.
Proof.
  intros Hpoll.
  assert (Hone : forall svc q, (handleCreateSvc E svc q).1 = inl tt).
  { intros svc q. rewrite handleCreateSvc_eq. unfold go.
    pose proof (goroutine_never_exits E fuel svc
                  (add_log (created_entry svc) q)) as Hne.
    destruct (handleCreateSvc_goroutine E svc (add_log (created_entry svc) q))
      as [[[]|[|c|]] pg]; try reflexivity.
    exfalso. now apply (Hne c Hpoll). }
  split; [|intros svc; apply Hone].
  revert p. induction svcs as [|svc rest IH]; intros p; [reflexivity|].
  cbn [handleCreateSvc_all]. rewrite bind_run.
  specialize (Hone svc p).
  destruct (handleCreateSvc E svc p) as [[[]|sg] p1]; [apply IH|].
  discriminate Hone.
Qed.

Lemma handleCreateSvc_all_never_exits_witness :
  (handleCreateSvc_all samples.env_ok
     [samples.svc_lb; more_samples.svc_externalname; samples.svc_headless]
     samples.proc0).1 = inl tt.
Proof.
  apply (handleCreateSvc_all_never_exits samples.env_ok 1000
           [samples.svc_lb; more_samples.svc_externalname; samples.svc_headless]
           samples.proc0).
  reflexivity.
Defined.

(** Nor is there a timeout: while the lister shows no endpoints with an
    address, [waitForEndpoints] does not return, for however many rounds
    the polling is followed; the goroutine of a service that is not a load
    balancer stays blocked, no probe is made and no sample is kept. *)
Theorem waitForEndpoints_has_no_timeout (E : Env) (fuel : nat)
    (svc : corev1.Service) (p : proc) :
  PollUntilContextCancel E = poll_reference fuel ->
  corev1.Spec_Type svc <> corev1.ServiceTypeLoadBalancer ->
  (forall j : nat,
      (waitForEndpoints_condition E svc
         (clock p + Z.of_nat j * (50 * Millisecond))).1 = false) ->
  waitForEndpoints E svc p = (inr Blocked, p) /\
  handleCreateSvc_goroutine E svc p = (inr Blocked, p) /\
  handleCreateSvc E svc p = (inl tt, add_log (created_entry svc) p).
Proof.
  intros Hpoll Hlb Hnever.
  assert (Hwait : forall q, clock q = clock p ->
                            waitForEndpoints E svc q = (inr Blocked, q)).
  { intros q Hq. unfold waitForEndpoints. rewrite Hpoll, poll_reference_never.
    - reflexivity.
    - intros j. rewrite Hq. specialize (Hnever j).
      pose proof (waitForEndpoints_condition_no_error E svc
                    (clock p + Z.of_nat j * (50 * Millisecond))) as He.
      destruct (waitForEndpoints_condition E svc _) as [b e].
      cbn in *. congruence. }
  assert (Hgo : forall q, clock q = clock p ->
                          handleCreateSvc_goroutine E svc q = (inr Blocked, q)).
  { intros q Hq. rewrite goroutine_eq.
    destruct (waitIngressIfLoadBalancer_run E svc (clock q) q)
      as [(_ & ->)|(Hl & _)]; [|contradiction].
    now rewrite Hwait. }
  split; [now apply Hwait|]. split; [now apply Hgo|].
  rewrite handleCreateSvc_eq. unfold go. now rewrite Hgo.
Qed.

Lemma waitForEndpoints_has_no_timeout_witness :
  handleCreateSvc more_samples.env_never_ready samples.svc_clusterip
    samples.proc0
  = (inl tt, add_log (created_entry samples.svc_clusterip) samples.proc0).
Proof.
  apply (waitForEndpoints_has_no_timeout more_samples.env_never_ready 1000).
  - reflexivity.
  - discriminate.
  - intros j. reflexivity.
Defined.

(** [ipAssignedLatency] is measured in steps of the polling interval:
    under the reference behaviour of the helper, the sample of a load
    balancer carries [k * 100ms], where the [k]-th poll after the first is
    the first one at which the lister shows the service with an ingress
    entry. *)
Theorem IPAssignedLatency_in_steps_of_100ms (E : Env) (fuel : nat)
    (svc : corev1.Service) (p p' : proc) :
  PollUntilContextCancel E = poll_reference fuel ->
  corev1.Spec_Type svc = corev1.ServiceTypeLoadBalancer ->
  handleCreateSvc_goroutine E svc p = (inl tt, p') ->
  exists (m : svcMetric) (k : nat),
    sl_metrics (sl p') !! corev1.UID svc = Some m /\
    IPAssignedLatency m = Z.of_nat k * (100 * Millisecond) /\
    (waitForIngress_condition E svc
       (clock p + Z.of_nat k * (100 * Millisecond))).1 = true /\
    forall j : nat,
      (j < k)%nat ->
      (waitForIngress_condition E svc
         (clock p + Z.of_nat j * (100 * Millisecond))).1 = false.
Proof.
  intros Hpoll Hlb Hrun.
  destruct (goroutine_spec E svc p) as (prs & H). rewrite Hrun in H.
  destruct H as (_ & _ & lat & p1 & p2 & Hw1 & _ & _ & _ & _ & Hsl).
  destruct (waitIngressIfLoadBalancer_run E svc (clock p) p)
    as [(Hno & _)|(_ & [Heq|[(t' & e & _ & Heq)|(t' & Hwi & Heq)]])];
    [contradiction|rewrite Heq in Hw1; discriminate
     |rewrite Heq in Hw1; discriminate|].
  rewrite Heq in Hw1. injection Hw1 as <- _.
  unfold waitForIngress in Hwi. rewrite Hpoll in Hwi.
  destruct (poll_reference fuel context_TODO (100 * Millisecond) true
              (waitForIngress_condition E svc) (clock p))
    as [[t1 err]|] eqn:HP; [|discriminate].
  injection Hwi as -> ->.
  destruct (poll_reference_first_success fuel _ _
              (waitForIngress_condition_no_error E svc) _ _ HP)
    as (k & -> & Hdone & Hbefore).
  eexists _, k. rewrite Hsl. cbn. rewrite lookup_insert_eq.
  split; [reflexivity|]. cbn. split; [lia|]. split; assumption.
Qed.

Lemma IPAssignedLatency_in_steps_of_100ms_witness :
  exists (m : svcMetric) (k : nat),
    sl_metrics (sl (handleCreateSvc_goroutine samples.env_ok samples.svc_lb
                      samples.proc0).2) !! "uid-lb" = Some m /\
    IPAssignedLatency m = Z.of_nat k * (100 * Millisecond).
Proof.
  destruct (IPAssignedLatency_in_steps_of_100ms samples.env_ok 1000
              samples.svc_lb samples.proc0
              (handleCreateSvc_goroutine samples.env_ok samples.svc_lb
                 samples.proc0).2) as (m & k & Hm & Hlat & _).
  - reflexivity.
  - reflexivity.
  - vm_compute. reflexivity.
  - exists m, k. split; assumption.
Defined.

(* ===================================================================== *)
(** ** Indexing, normalisation and the life cycle of the measurement      *)
(* ===================================================================== *)

Lemma index_metricMap_entries (E : Env) (s : serviceLatency) :
  map_to_list (index_metricMap E s)
  ≡ₚ if decide (ServiceLatencyMetrics (sl_config s) = types_Quantiles E)
     then [(svcLatencyQuantilesMeasurement, latencyQuantiles s)]
     else [(svcLatencyQuantilesMeasurement, latencyQuantiles s);
           (svcLatencyMetric, normLatencies s)].
Proof.
  unfold index_metricMap.
  destruct (decide (ServiceLatencyMetrics (sl_config s) = types_Quantiles E)).
  - rewrite delete_insert_ne by discriminate.
    rewrite delete_insert_eq, delete_empty, insert_empty.
    now rewrite map_to_list_singleton.
  - rewrite map_to_list_insert.
    + rewrite insert_empty, map_to_list_singleton. reflexivity.
    + rewrite lookup_insert_ne by discriminate. apply lookup_empty.
Qed.

(** With [serviceLatencyMetrics] set to the quantiles, the samples do not
    reach the indexer: [index] makes one call, with the summaries.
    Otherwise it makes two, in either order: one with the samples and
    one with the summaries, each under its metric name followed by a dash
    and the name of the job. *)
Theorem index_sends_what_is_configured (E : Env) (p : proc)
    (order : list (string * list document)) :
  order ≡ₚ map_to_list (index_metricMap E (sl p)) ->
  let quantiles :=
    ({| Opts_MetricName := svcLatencyQuantilesMeasurement +:+ "-"
                           +:+ config.Name (factory_jobConfig E) |},
     latencyQuantiles (sl p)) in
  let samples :=
    ({| Opts_MetricName := svcLatencyMetric +:+ "-"
                           +:+ config.Name (factory_jobConfig E) |},
     normLatencies (sl p)) in
  (ServiceLatencyMetrics (sl_config (sl p)) = types_Quantiles E ->
   indexed (index E order p).2 = indexed p ++ [quantiles]) /\
  (ServiceLatencyMetrics (sl_config (sl p)) <> types_Quantiles E ->
   indexed (index E order p).2 = indexed p ++ [quantiles; samples] \/
   indexed (index E order p).2 = indexed p ++ [samples; quantiles]).
Proof.
  intros Horder. cbv zeta. unfold index. rewrite index_range_run. cbn.
  rewrite index_metricMap_entries in Horder.
  split; intros Hcfg;
    destruct (decide (ServiceLatencyMetrics (sl_config (sl p))
                      = types_Quantiles E)); try contradiction.
  - apply Permutation_singleton_r in Horder. rewrite Horder. reflexivity.
  - symmetry in Horder. apply Permutation_length_2_inv in Horder.
    destruct Horder as [->| ->]; [left|right]; reflexivity.
Qed.

Lemma index_sends_what_is_configured_witness :
  let p := set_sl more_samples.sl_quantiles samples.proc0 in
  length (indexed (index samples.env_ok
                     (map_to_list (index_metricMap samples.env_ok (sl p)))
                     p).2) = 1%nat.
Proof.
  cbv zeta.
  destruct (index_sends_what_is_configured samples.env_ok
              (set_sl more_samples.sl_quantiles samples.proc0)
              (map_to_list
                 (index_metricMap samples.env_ok
                    (sl (set_sl more_samples.sl_quantiles samples.proc0)))))
    as (H & _).
  - reflexivity.
  - rewrite H; reflexivity.
Defined.

(** *** normalizeMetrics *)

Lemma normalizeMetrics_range_eq (K : Env2) (entries : list (string * svcMetric)) :
  forall (latencies ipAssignedLatencies : list float64)
         (norm : list document),
    normalizeMetrics_range K entries latencies ipAssignedLatencies norm
    = (latencies
       ++ map (fun entry => float64_of_duration K (ReadyLatency entry.2)) entries,
       ipAssignedLatencies
       ++ map (fun entry => float64_of_duration K (IPAssignedLatency entry.2))
              (filter (fun entry => IPAssignedLatency entry.2 <> 0) entries),
       norm ++ metric_documents entries).
Proof.
  induction entries as [|[uid metric] rest IH]; intros lat ips norm.
  - cbn. now rewrite !app_nil_r.
  - cbn [normalizeMetrics_range]. rewrite IH, filter_cons. cbn [snd].
    unfold metric_documents. cbn [map snd].
    destruct (decide (IPAssignedLatency metric <> 0));
      cbn [map snd]; rewrite <- ?app_assoc; reflexivity.
Qed.

Lemma normalizeMetrics_run (K : Env2) (p : proc) :
  let entries := rangeMetrics K (sl_metrics (sl p)) in
  let ready :=
    DocLatencyQuantiles
      (calcSummary K (clock p) "Ready"
         (map (fun entry => float64_of_duration K (ReadyLatency entry.2))
              entries)) in
  let assigned :=
    filter (fun entry => IPAssignedLatency entry.2 <> 0) entries in
  normalizeMetrics K p
  = (inl tt,
     set_sl {| sl_config := sl_config (sl p);
               sl_metrics := sl_metrics (sl p);
               latencyQuantiles :=
                 match assigned with
                 | [] => [ready]
                 | _ :: _ =>
                     [ready;
                      DocLatencyQuantiles
                        (calcSummary K (clock p) "IPAssigned"
                           (map (fun entry =>
                                   float64_of_duration K
                                     (IPAssignedLatency entry.2))
                                assigned))]
                 end;
               normLatencies :=
                 normLatencies (sl p) ++ metric_documents entries |} p).
Proof.
  cbv zeta. unfold normalizeMetrics. rewrite normalizeMetrics_range_eq.
  cbn [app].
  destruct (filter _ (rangeMetrics K (sl_metrics (sl p)))); reflexivity.
Qed.

(** [normalizeMetrics] turns the samples into documents and summaries.
    The documents are appended to those already there, one per sample
    of the map; the summaries are replaced: one for the ready latencies
    of all the samples, followed by one for the IP assignment exactly when
    some sample has a non-zero [IPAssignedLatency].  The map of samples
    and the configuration are not touched. *)
Theorem normalizeMetrics_documents_and_summaries (K : Env2) (p p' : proc) :
  rangeMetrics K (sl_metrics (sl p)) ≡ₚ map_to_list (sl_metrics (sl p)) ->
  (normalizeMetrics K p).2 = p' ->
  (normalizeMetrics K p).1 = inl tt /\
  sl_metrics (sl p') = sl_metrics (sl p) /\
  sl_config (sl p') = sl_config (sl p) /\
  normLatencies (sl p')
  = normLatencies (sl p)
    ++ metric_documents (rangeMetrics K (sl_metrics (sl p))) /\
  length (normLatencies (sl p'))
  = (length (normLatencies (sl p)) + size (sl_metrics (sl p)))%nat /\
  (forall metric,
      DocSvcMetric metric ∈ metric_documents (rangeMetrics K (sl_metrics (sl p)))
      <-> exists uid, sl_metrics (sl p) !! uid = Some metric) /\
  forallb is_summary (latencyQuantiles (sl p')) = true /\
  (length (latencyQuantiles (sl p')) = 2%nat
   <-> exists uid metric,
         sl_metrics (sl p) !! uid = Some metric /\
         IPAssignedLatency metric <> 0) /\
  (length (latencyQuantiles (sl p')) = 1%nat
   <-> forall uid metric,
         sl_metrics (sl p) !! uid = Some metric ->
         IPAssignedLatency metric = 0).
Proof.
  intros Hperm <-. rewrite normalizeMetrics_run. cbn.
  set (entries := rangeMetrics K (sl_metrics (sl p))) in *.
  assert (Hmem : forall uid metric,
            (uid, metric) ∈ entries <-> sl_metrics (sl p) !! uid = Some metric).
  { intros uid metric. rewrite Hperm. apply elem_of_map_to_list. }
  assert (Hassigned :
            filter (fun entry : string * svcMetric =>
                      IPAssignedLatency entry.2 <> 0) entries <> []
            <-> exists uid metric,
                 sl_metrics (sl p) !! uid = Some metric /\
                 IPAssignedLatency metric <> 0).
  { split.
    - intros Hne.
      destruct (filter _ entries) as [|[uid metric] l] eqn:Hf; [contradiction|].
      assert (Hin : (uid, metric) ∈ filter (fun entry : string * svcMetric =>
                        IPAssignedLatency entry.2 <> 0) entries).
      { rewrite Hf. apply list_elem_of_here. }
      apply list_elem_of_filter in Hin. destruct Hin as (Hnz & Hin).
      exists uid, metric. split; [now apply Hmem|exact Hnz].
    - intros (uid & metric & Hm & Hnz) Hnil.
      assert (Hin : (uid, metric) ∈ filter (fun entry : string * svcMetric =>
                        IPAssignedLatency entry.2 <> 0) entries).
      { apply list_elem_of_filter. split; [exact Hnz|now apply Hmem]. }
      rewrite Hnil in Hin. now apply elem_of_nil in Hin. }
  repeat split; auto.
  - rewrite length_app. unfold metric_documents. rewrite length_map.
    rewrite Hperm, length_map_to_list. reflexivity.
  - intros Hin. unfold metric_documents in Hin.
    apply list_elem_of_In, in_map_iff in Hin.
    destruct Hin as ([uid m] & [= <-] & Hin).
    exists uid. apply Hmem. now apply list_elem_of_In.
  - intros (uid & Hm). apply Hmem in Hm. unfold metric_documents.
    apply list_elem_of_In, in_map_iff. exists (uid, metric).
    split; [reflexivity|now apply list_elem_of_In].
  - destruct (filter _ entries); reflexivity.
  - intros Hlen. apply Hassigned. destruct (filter _ entries); [discriminate|].
    discriminate.
  - intros Hex. apply Hassigned in Hex.
    destruct (filter _ entries); [contradiction|reflexivity].
  - intros Hlen uid metric Hm.
    destruct (decide (IPAssignedLatency metric = 0)) as [|Hnz]; [assumption|].
    assert (Hne : filter (fun entry : string * svcMetric =>
                            IPAssignedLatency entry.2 <> 0) entries <> []).
    { apply Hassigned. eauto. }
    destruct (filter _ entries); [contradiction|discriminate].
  - intros Hall.
    destruct (filter _ entries) as [|e l]; [reflexivity|]. exfalso.
    destruct (proj1 Hassigned ltac:(discriminate)) as (uid & metric & Hm & Hnz).
    apply Hnz. eapply Hall. exact Hm.
Qed.

Lemma normalizeMetrics_documents_and_summaries_witness :
  let p := (handleCreateSvc_all samples.env_ok
              [samples.svc_clusterip; samples.svc_lb] samples.proc0).2 in
  length (normLatencies (sl (normalizeMetrics lifecycle_samples.env2_ok p).2))
  = (0 + size (sl_metrics (sl p)))%nat.
Proof.
  cbv zeta.
  destruct (normalizeMetrics_documents_and_summaries lifecycle_samples.env2_ok
              (handleCreateSvc_all samples.env_ok
                 [samples.svc_clusterip; samples.svc_lb] samples.proc0).2
              (normalizeMetrics lifecycle_samples.env2_ok
                 (handleCreateSvc_all samples.env_ok
                    [samples.svc_clusterip; samples.svc_lb] samples.proc0).2).2)
    as (_ & _ & _ & _ & H & _).
  - reflexivity.
  - reflexivity.
  - exact H.
Defined.

(** Nothing in the file empties [normLatencies] or the map of samples, and
    the measurement is one object for the whole process: a second
    normalisation appends a document for every sample again, while the
    summaries are computed afresh. *)
Theorem normalizeMetrics_appends_again (K : Env2) (p : proc) :
  rangeMetrics K (sl_metrics (sl p)) ≡ₚ map_to_list (sl_metrics (sl p)) ->
  let p1 := (normalizeMetrics K p).2 in
  let p2 := (normalizeMetrics K p1).2 in
  sl_metrics (sl p2) = sl_metrics (sl p) /\
  length (normLatencies (sl p2))
  = (length (normLatencies (sl p)) + 2 * size (sl_metrics (sl p)))%nat /\
  (forall d, d ∈ normLatencies (sl p1) -> d ∈ normLatencies (sl p2)) /\
  length (latencyQuantiles (sl p2)) = length (latencyQuantiles (sl p1)).
Proof.
  intros Hperm. cbv zeta.
  rewrite (normalizeMetrics_run K (normalizeMetrics K p).2).
  rewrite (normalizeMetrics_run K p). cbn.
  repeat split.
  - rewrite !length_app. unfold metric_documents. rewrite !length_map.
    rewrite Hperm, length_map_to_list. lia.
  - intros d Hd. apply elem_of_app. now left.
Qed.

Lemma normalizeMetrics_appends_again_witness :
  let p := (handleCreateSvc_all samples.env_ok
              [samples.svc_clusterip; samples.svc_lb] samples.proc0).2 in
  length (normLatencies
            (sl (normalizeMetrics lifecycle_samples.env2_ok
                   (normalizeMetrics lifecycle_samples.env2_ok p).2).2))
  = (0 + 2 * size (sl_metrics (sl p)))%nat.
Proof.
  cbv zeta.
  destruct (normalizeMetrics_appends_again lifecycle_samples.env2_ok
              (handleCreateSvc_all samples.env_ok
                 [samples.svc_clusterip; samples.svc_lb] samples.proc0).2)
    as (_ & H & _).
  - reflexivity.
  - exact H.
Defined.

(** *** stop *)

Lemma MK_bind_run {A B : Type} (m : MK A) (f : A -> MK B) (k : kproc) :
  (m ≫= f) k =
  match m k with
  | (inl a, k') => f a k'
  | (inr sg, k') => (inr sg, k')
  end.
Proof. reflexivity. Qed.

(** The lines that [stop] writes for the summaries. *)
Lemma logQuantiles_run (K : Env2) (quantiles : list document) :
  forallb is_summary quantiles = true ->
  forall p : proc,
    exists entries,
      length entries = length quantiles /\
      Forall (fun e => Level_of e = InfoLevel) entries /\
      logQuantiles K quantiles p
      = (inl tt,
         {| clock := clock p; logs := logs p ++ entries; probes := probes p;
            indexed := indexed p; sl := sl p |}).
Proof.
  induction quantiles as [|d rest IH]; intros Hall p.
  - exists []. rewrite app_nil_r. destruct p. repeat split; constructor.
  - destruct d as [m|pq|js]; try discriminate Hall.
    cbn [logQuantiles]. rewrite bind_run.
    destruct (IH Hall (add_log (quantile_entry K pq) p))
      as (entries & Hlen & Hlev & ->).
    exists (quantile_entry K pq :: entries). cbn.
    split; [now rewrite Hlen|]. split; [constructor; auto|].
    now rewrite <- app_assoc.
Qed.

Lemma logQuantiles_inl (K : Env2) (quantiles : list document) :
  forallb is_summary quantiles = true ->
  forall p : proc,
    logQuantiles K quantiles p = (inl tt, (logQuantiles K quantiles p).2).
Proof.
  intros Hall p. destruct (logQuantiles_run K quantiles Hall p)
    as (entries & _ & _ & ->). reflexivity.
Qed.

Lemma logQuantiles_frame (K : Env2) (quantiles : list document) :
  forallb is_summary quantiles = true ->
  forall p : proc,
    sl (logQuantiles K quantiles p).2 = sl p /\
    probes (logQuantiles K quantiles p).2 = probes p /\
    indexed (logQuantiles K quantiles p).2 = indexed p.
Proof.
  intros Hall p. destruct (logQuantiles_run K quantiles Hall p)
    as (entries & _ & _ & ->). auto.
Qed.

Lemma normalizeMetrics_summaries (K : Env2) (p : proc) :
  forallb is_summary (latencyQuantiles (sl (normalizeMetrics K p).2)) = true.
Proof.
  rewrite normalizeMetrics_run. cbn.
  destruct (filter _ (rangeMetrics K (sl_metrics (sl p)))); reflexivity.
Qed.

Lemma MK_bind_inl {A B : Type} (m : MK A) (f : A -> MK B) (k k' : kproc)
    (a : A) :
  m k = (inl a, k') -> (m ≫= f) k = f a k'.
Proof. intros H. rewrite MK_bind_run, H. reflexivity. Qed.

Lemma MK_bind_inr {A B : Type} (m : MK A) (f : A -> MK B) (k k' : kproc) sg :
  m k = (inr sg, k') -> (m ≫= f) k = (inr sg, k').
Proof. intros H. rewrite MK_bind_run, H. reflexivity. Qed.

Lemma api_run (c : api_call) (k : kproc) :
  api c k = (inl tt, {| kbase := kbase k; api_calls := api_calls k ++ [c];
                        wg_done := wg_done k |}).
Proof. reflexivity. Qed.

Lemma lift_res {A : Type} (m : M A) (k : kproc) r (p' : proc) :
  m (kbase k) = (r, p') ->
  lift m k = (r, {| kbase := p'; api_calls := api_calls k;
                    wg_done := wg_done k |}).
Proof. intros H. unfold lift. rewrite H. reflexivity. Qed.

(** One step of a computation that was lifted from [M]. *)
Ltac lift_step H :=
  erewrite MK_bind_inl
    by (apply lift_res; cbn [kbase]; first [apply H | reflexivity]).

(** What [stop] leaves, apart from the log. *)
Lemma stop_run (K : Env2) (k : kproc) :
  let pn := (normalizeMetrics K (kbase k)).2 in
  exists k',
    stop K k = (inl None, k') /\
    api_calls k'
    = api_calls k ++ [StopWatcher "svcWatcher"; StopWatcher "epWatcher";
                      DeleteNamespace (SvcLatencyNs_Name K)] /\
    wg_done k' = wg_done k /\
    sl (kbase k') = sl pn /\
    probes (kbase k') = probes (kbase k) /\
    indexed (kbase k')
    = indexed (kbase k)
      ++ (if decide (globalCfg_IndexerConfig_Type K <> EmptyString) then
            if config.SkipIndexing (factory_jobConfig (env K)) then []
            else map (index_call (env K))
                     (rangeMetricMap K (index_metricMap (env K) (sl pn)))
          else []).
Proof.
  cbv zeta. unfold stop.
  rewrite (MK_bind_inl _ _ _ _ _ (api_run _ _)).
  rewrite (MK_bind_inl _ _ _ _ _ (api_run _ _)).
  rewrite (MK_bind_inl _ _ _ _ _ (api_run _ _)).
  cbn [kbase api_calls wg_done].
  assert (Hn : normalizeMetrics K (kbase k)
               = (inl tt, (normalizeMetrics K (kbase k)).2)).
  { rewrite normalizeMetrics_run. reflexivity. }
  lift_step Hn.
  set (pn := (normalizeMetrics K (kbase k)).2).
  assert (Hpn : probes pn = probes (kbase k) /\ indexed pn = indexed (kbase k)).
  { unfold pn. rewrite normalizeMetrics_run. split; reflexivity. }
  destruct Hpn as (Hpr & Hix).
  pose proof (normalizeMetrics_summaries K (kbase k)) as Hsum. fold pn in Hsum.
  rewrite <- app_assoc. cbn [app].
  destruct (decide (globalCfg_IndexerConfig_Type K <> EmptyString)).
  - destruct (config.SkipIndexing (factory_jobConfig (env K))).
    + lift_step log_run. lift_step (@eq_refl (serviceLatency + signal)).
      cbn [kbase api_calls wg_done add_log sl].
      lift_step (logQuantiles_inl K _ Hsum).
      eexists. split; [reflexivity|]. cbn [kbase api_calls wg_done].
      match goal with
      | |- context [logQuantiles K ?qs ?q] =>
          destruct (logQuantiles_frame K qs Hsum q) as (-> & -> & ->)
      end.
      cbn. rewrite ?app_nil_r, <- ?app_assoc, ?Hix. repeat split; auto.
    + rewrite MK_bind_run.
      lift_step log_run. lift_step (@eq_refl (serviceLatency + signal)).
      cbn [kbase api_calls wg_done add_log sl].
      unfold index.
      erewrite lift_res by apply index_range_run.
      lift_step (@eq_refl (serviceLatency + signal)).
      cbn [kbase api_calls wg_done add_log sl clock logs probes indexed].
      lift_step (logQuantiles_inl K _ Hsum).
      eexists. split; [reflexivity|]. cbn [kbase api_calls wg_done].
      match goal with
      | |- context [logQuantiles K ?qs ?q] =>
          destruct (logQuantiles_frame K qs Hsum q) as (-> & -> & ->)
      end.
      cbn. rewrite ?app_nil_r, <- ?app_assoc, ?Hix. repeat split; auto.
  - erewrite MK_bind_inl by reflexivity.
    lift_step (@eq_refl (serviceLatency + signal)).
    cbn [kbase api_calls wg_done add_log sl].
    lift_step (logQuantiles_inl K _ Hsum).
    eexists. split; [reflexivity|]. cbn [kbase api_calls wg_done].
    match goal with
    | |- context [logQuantiles K ?qs ?q] =>
        destruct (logQuantiles_frame K qs Hsum q) as (-> & -> & ->)
    end.
    cbn. rewrite ?app_nil_r, <- ?app_assoc, ?Hix. repeat split; auto.
Qed.

(** [stop] cannot fail: whatever the state and the surroundings, it
    returns nil after having stopped the two watchers and asked for the
    deletion of the namespace, in this order.  The type assertion of its
    last loop never panics, because [normalizeMetrics] has just left
    summaries only; the indexer is not called when no indexer is
    configured or when the job skips indexing; the samples stay in the
    map. *)
Theorem stop_always_returns_nil (K : Env2) (k : kproc) :
  (stop K k).1 = inl None /\
  api_calls (stop K k).2
  = api_calls k ++ [StopWatcher "svcWatcher"; StopWatcher "epWatcher";
                    DeleteNamespace (SvcLatencyNs_Name K)] /\
  wg_done (stop K k).2 = wg_done k /\
  sl_metrics (sl (kbase (stop K k).2)) = sl_metrics (sl (kbase k)) /\
  probes (kbase (stop K k).2) = probes (kbase k) /\
  (globalCfg_IndexerConfig_Type K = EmptyString \/
   config.SkipIndexing (factory_jobConfig (env K)) = true ->
   indexed (kbase (stop K k).2) = indexed (kbase k)).
Proof.
  destruct (stop_run K k) as (k' & -> & Hapi & Hwg & Hsl & Hpr & Hix).
  cbn [fst snd]. rewrite Hsl, normalizeMetrics_run. cbn.
  repeat split; auto.
  intros Hoff. rewrite Hix.
  destruct (decide (globalCfg_IndexerConfig_Type K <> EmptyString)) as [Hne|];
    [|apply app_nil_r].
  destruct Hoff as [Hoff| ->]; [contradiction|apply app_nil_r].
Qed.

(** When an indexer is configured, the job does not skip indexing, the
    samples are asked for and no document is left from an earlier run,
    [stop] hands the indexer one document for every sample of the map,
    under ["svcLatencyMeasurement-<job>"], and the summaries under
    ["svcLatencyQuantilesMeasurement-<job>"], in either order. *)
Theorem stop_indexes_every_sample (K : Env2) (k : kproc) :
  ranges_fairly K ->
  globalCfg_IndexerConfig_Type K <> EmptyString ->
  config.SkipIndexing (factory_jobConfig (env K)) = false ->
  ServiceLatencyMetrics (sl_config (sl (kbase k))) <> types_Quantiles (env K) ->
  normLatencies (sl (kbase k)) = [] ->
  exists docs quantiles,
    let samples :=
      ({| Opts_MetricName := svcLatencyMetric +:+ "-"
                             +:+ config.Name (factory_jobConfig (env K)) |},
       docs) in
    let summaries :=
      ({| Opts_MetricName := svcLatencyQuantilesMeasurement +:+ "-"
                             +:+ config.Name (factory_jobConfig (env K)) |},
       quantiles) in
    (indexed (kbase (stop K k).2) = indexed (kbase k) ++ [summaries; samples] \/
     indexed (kbase (stop K k).2) = indexed (kbase k) ++ [samples; summaries]) /\
    docs ≡ₚ map (fun entry => DocSvcMetric entry.2)
              (map_to_list (sl_metrics (sl (kbase k)))) /\
    forallb is_summary quantiles = true.
Proof.
  intros (Hr1 & Hr2) Hcfg Hskip Hq Hnorm.
  destruct (stop_run K k) as (k' & -> & _ & _ & _ & _ & Hix).
  cbn [fst snd]. rewrite Hix. clear Hix.
  destruct (decide (globalCfg_IndexerConfig_Type K <> EmptyString));
    [|contradiction].
  rewrite Hskip.
  pose proof (normalizeMetrics_summaries K (kbase k)) as Hsum.
  set (pn := (normalizeMetrics K (kbase k)).2) in *.
  assert (Hcfgn : sl_config (sl pn) = sl_config (sl (kbase k))).
  { unfold pn. rewrite normalizeMetrics_run. reflexivity. }
  assert (Hdocs : normLatencies (sl pn)
                  = metric_documents (rangeMetrics K (sl_metrics (sl (kbase k))))).
  { unfold pn. rewrite normalizeMetrics_run. cbn. now rewrite Hnorm. }
  pose proof (Hr2 (index_metricMap (env K) (sl pn))) as Horder.
  rewrite index_metricMap_entries in Horder. rewrite Hcfgn in Horder.
  destruct (decide (ServiceLatencyMetrics (sl_config (sl (kbase k)))
                    = types_Quantiles (env K))); [contradiction|].
  exists (normLatencies (sl pn)), (latencyQuantiles (sl pn)). cbv zeta.
  split; [|split; [|exact Hsum]].
  - symmetry in Horder. apply Permutation_length_2_inv in Horder.
    destruct Horder as [-> | ->]; [left|right]; reflexivity.
  - rewrite Hdocs. unfold metric_documents. apply Permutation_map, Hr1.
Qed.

Lemma stop_indexes_every_sample_witness :
  let k := {| kbase := (handleCreateSvc_all samples.env_ok
                          [samples.svc_clusterip; samples.svc_lb]
                          samples.proc0).2;
              api_calls := []; wg_done := 0 |} in
  exists docs quantiles,
    length (indexed (kbase (stop lifecycle_samples.env2_ok k).2)) = 2%nat /\
    docs ≡ₚ map (fun entry => DocSvcMetric entry.2)
              (map_to_list (sl_metrics (sl (kbase k)))) /\
    forallb is_summary quantiles = true.
Proof.
  cbv zeta.
  destruct (stop_indexes_every_sample lifecycle_samples.env2_ok
              {| kbase := (handleCreateSvc_all samples.env_ok
                             [samples.svc_clusterip; samples.svc_lb]
                             samples.proc0).2;
                 api_calls := []; wg_done := 0 |})
    as (docs & quantiles & Hix & Hdocs & Hsum).
  - split; intros m; reflexivity.
  - discriminate.
  - reflexivity.
  - discriminate.
  - vm_compute. reflexivity.
  - exists docs, quantiles. split; [|split; assumption].
    cbv zeta in Hix.
    assert (Hnone : indexed (kbase {| kbase := (handleCreateSvc_all samples.env_ok
                             [samples.svc_clusterip; samples.svc_lb]
                             samples.proc0).2;
                 api_calls := []; wg_done := 0 |}) = []).
    { vm_compute. reflexivity. }
    rewrite Hnone in Hix. destruct Hix as [-> | ->]; reflexivity.
Defined.

(** *** deployAssets and start *)

(** The warning written for an answer that is tolerated. *)
Lemma deployAssets_run (K : Env2) (k : kproc) :
  let ns := Namespaces_Create K (SvcLatencyNs_Name K) in
  let pod := Pods_Create K (SvcLatencyNs_Name K) (SvcLatencyChecker_Name K) in
  let warn (r : option apiError) (p : proc) :=
    match r with
    | Some err =>
        if IsAlreadyExists err
        then add_log {| Level_of := WarnLevel; Message := api_err err |} p
        else p
    | None => p
    end in
  let fatal (r : option apiError) :=
    match r with
    | Some err => if IsAlreadyExists err then None else Some err
    | None => None
    end in
  deployAssets K k
  = match fatal ns with
    | Some err =>
        (inl (Some err),
         {| kbase := kbase k;
            api_calls := api_calls k ++ [CreateNamespace (SvcLatencyNs_Name K)];
            wg_done := wg_done k |})
    | None =>
        (inl (fatal pod),
         {| kbase := warn pod (warn ns (kbase k));
            api_calls :=
              api_calls k
              ++ [CreateNamespace (SvcLatencyNs_Name K);
                  CreatePod (SvcLatencyNs_Name K) (SvcLatencyChecker_Name K)];
            wg_done := wg_done k |})
    end.
Proof.
  cbv zeta. unfold deployAssets.
  rewrite (MK_bind_inl _ _ _ _ _ (api_run _ _)). rewrite MK_bind_run.
  destruct (Namespaces_Create K (SvcLatencyNs_Name K)) as [[e1 [|]]|];
    cbn [IsAlreadyExists api_err].
  - rewrite (MK_bind_inl _ _ _ _ _ (lift_res _ _ _ _ (log_run _ _ _))).
    cbn [mret MK_ret].
    rewrite (MK_bind_inl _ _ _ _ _ (api_run _ _)).
    destruct (Pods_Create K _ _) as [[e2 [|]]|];
      cbn [IsAlreadyExists api_err].
    + rewrite (MK_bind_inl _ _ _ _ _ (lift_res _ _ _ _ (log_run _ _ _))).
      cbn. now rewrite <- app_assoc.
    + cbn. now rewrite <- app_assoc.
    + cbn. now rewrite <- app_assoc.
  - reflexivity.
  - cbn [mret MK_ret].
    rewrite (MK_bind_inl _ _ _ _ _ (api_run _ _)).
    destruct (Pods_Create K _ _) as [[e2 [|]]|];
      cbn [IsAlreadyExists api_err].
    + rewrite (MK_bind_inl _ _ _ _ _ (lift_res _ _ _ _ (log_run _ _ _))).
      cbn. now rewrite <- app_assoc.
    + cbn. now rewrite <- app_assoc.
    + cbn. now rewrite <- app_assoc.
Qed.

(** [deployAssets] tolerates an AlreadyExists answer, with a warning, and
    returns any other error at once: when the creation of the namespace
    fails for another reason, the creation of the checker pod is not even
    attempted.  It never ends the process itself. *)
Theorem deployAssets_tolerates_AlreadyExists (K : Env2) (k : kproc) :
  let ns := Namespaces_Create K (SvcLatencyNs_Name K) in
  let pod := Pods_Create K (SvcLatencyNs_Name K) (SvcLatencyChecker_Name K) in
  (exists r, (deployAssets K k).1 = inl r) /\
  wg_done (deployAssets K k).2 = wg_done k /\
  sl (kbase (deployAssets K k).2) = sl (kbase k) /\
  (fatal_api_error ns ->
   (deployAssets K k).1 = inl ns /\
   kbase (deployAssets K k).2 = kbase k /\
   api_calls (deployAssets K k).2
   = api_calls k ++ [CreateNamespace (SvcLatencyNs_Name K)]) /\
  (~ fatal_api_error ns ->
   api_calls (deployAssets K k).2
   = api_calls k ++ [CreateNamespace (SvcLatencyNs_Name K);
                     CreatePod (SvcLatencyNs_Name K) (SvcLatencyChecker_Name K)]
   /\ (fatal_api_error pod -> (deployAssets K k).1 = inl pod)
   /\ (~ fatal_api_error pod -> (deployAssets K k).1 = inl None)
   /\ (forall err,
          ns = Some err \/ pod = Some err ->
          IsAlreadyExists err = true ->
          {| Level_of := WarnLevel; Message := api_err err |}
            ∈ logs (kbase (deployAssets K k).2))).
Proof.
  cbv zeta. rewrite deployAssets_run. cbv zeta. unfold fatal_api_error.
  destruct (Namespaces_Create K (SvcLatencyNs_Name K)) as [[e1 [|]]|];
    destruct (Pods_Create K (SvcLatencyNs_Name K) (SvcLatencyChecker_Name K))
      as [[e2 [|]]|];
    cbn [IsAlreadyExists api_err fst snd kbase api_calls wg_done];
    (split; [eauto|]); (split; [reflexivity|]); (split; [reflexivity|]);
    (split;
     [ intros (err & [= <-] & Hex); cbn in Hex; try discriminate; auto
     | intros Hnf;
       try (exfalso; apply Hnf; eexists; split; reflexivity) ]);
    try (split; [reflexivity|]);
    try (split; [intros (err & [= <-] & Hex); cbn in Hex; try discriminate; auto|]);
    try (split; [intros Hnf2; try reflexivity;
                 exfalso; apply Hnf2; eexists; split; reflexivity|]);
    try (intros err [[= <-]|[= <-]] Hex; cbn in Hex; try discriminate;
         cbn; rewrite ?elem_of_app, ?list_elem_of_singleton; auto).
  all: try (intros (err & Hn & _); discriminate Hn).
Qed.

Lemma deployAssets_tolerates_AlreadyExists_witness :
  (deployAssets lifecycle_samples.env2_forbidden lifecycle_samples.kproc0).1
  = inl (Some lifecycle_samples.forbidden) /\
  api_calls (deployAssets lifecycle_samples.env2_forbidden
               lifecycle_samples.kproc0).2
  = [CreateNamespace "kube-burner-service-latency"].
Proof.
  destruct (deployAssets_tolerates_AlreadyExists
              lifecycle_samples.env2_forbidden lifecycle_samples.kproc0)
    as (_ & _ & _ & H & _).
  destruct H as (Hr & _ & Hcalls).
  - exists lifecycle_samples.forbidden. split; reflexivity.
  - split; [exact Hr|exact Hcalls].
Defined.

Lemma startWatcher_run (K : Env2) (name resource labelSelector : string)
    (k : kproc) :
  startWatcher K name resource labelSelector k
  = (inl (StartAndCacheSync K name),
     {| kbase := kbase k;
        api_calls := api_calls k ++ [StartWatcher name resource labelSelector];
        wg_done := wg_done k |}).
Proof. reflexivity. Qed.

Lemma deployAssets_inl (K : Env2) (k : kproc) :
  exists r, deployAssets K k = (inl r, (deployAssets K k).2).
Proof.
  rewrite deployAssets_run. cbv zeta.
  destruct (match Namespaces_Create K (SvcLatencyNs_Name K) with
            | Some err => if IsAlreadyExists err then None else Some err
            | None => None
            end); eexists; reflexivity.
Qed.

Lemma deployAssets_frame (K : Env2) (k : kproc) :
  wg_done (deployAssets K k).2 = wg_done k /\
  sl (kbase (deployAssets K k).2) = sl (kbase k).
Proof.
  rewrite deployAssets_run. cbv zeta.
  destruct (Namespaces_Create K (SvcLatencyNs_Name K)) as [[e1 [|]]|];
    destruct (Pods_Create K (SvcLatencyNs_Name K) (SvcLatencyChecker_Name K))
      as [[e2 [|]]|]; split; reflexivity.
Qed.

(** [start] ends the process when the assets cannot be deployed: the fatal
    line carries the error, no watcher is started, and the deferred
    [measurementWg.Done()] never runs.  Otherwise it returns, having called
    [Done] exactly once: it starts the service watcher, restricted to the
    objects labelled with the run id, and then the endpoints watcher; the
    first watcher whose cache does not sync gives the error, prefixed with
    ["Service Latency measurement error: "], and when that is the service
    watcher the endpoints watcher is not started. *)
Theorem start_cases (K : Env2) (k : kproc) :
  let kd := (deployAssets K k).2 in
  let svcWatcher :=
    StartWatcher "svcWatcher" "services"
                 ("kube-burner-runid=" +:+ globalCfg_RUNID K) in
  let epWatcher := StartWatcher "epWatcher" "endpoints" EmptyString in
  (forall e,
      (deployAssets K k).1 = inl (Some e) ->
      (start K k).1 = inr (Exited 1) /\
      wg_done (start K k).2 = wg_done k /\
      api_calls (start K k).2 = api_calls kd /\
      logs (kbase (start K k).2)
      = logs (kbase kd) ++ [{| Level_of := FatalLevel; Message := api_err e |}])
  /\
  ((deployAssets K k).1 = inl None ->
   wg_done (start K k).2 = S (wg_done k) /\
   sl (kbase (start K k).2) = sl (kbase k) /\
   match StartAndCacheSync K "svcWatcher" with
   | Some e =>
       (start K k).1
       = inl (Some ("Service Latency measurement error: " +:+ e)) /\
       api_calls (start K k).2 = api_calls kd ++ [svcWatcher]
   | None =>
       api_calls (start K k).2 = api_calls kd ++ [svcWatcher; epWatcher] /\
       (start K k).1
       = inl match StartAndCacheSync K "epWatcher" with
             | Some e => Some ("Service Latency measurement error: " +:+ e)
             | None => None
             end
   end).
Proof.
  cbv zeta.
  pose proof (deployAssets_frame K k) as (Hwg & Hsl).
  destruct (deployAssets_inl K k) as (r & Hd).
  split.
  - intros e He. rewrite Hd in He. injection He as ->.
    unfold start. rewrite MK_bind_run.
    rewrite (MK_bind_inl _ _ _ _ _ Hd).
    rewrite (MK_bind_inr _ _ _ _ _ (lift_res _ _ _ _ (log_Fatal_run _ _))).
    cbn. auto.
  - intros He. rewrite Hd in He. injection He as ->.
    unfold start. rewrite MK_bind_run.
    rewrite (MK_bind_inl _ _ _ _ _ Hd).
    rewrite (MK_bind_inl _ _ _ _ _ (eq_refl : (mret tt : MK unit) _ = (inl tt, _))).
    rewrite (MK_bind_inl _ _ _ _ _ (lift_res _ _ _ _ (log_run _ _ _))).
    rewrite (MK_bind_inl _ _ _ _ _ (startWatcher_run _ _ _ _ _)).
    destruct (StartAndCacheSync K "svcWatcher") as [e|].
    + cbv [mret MK_ret mbind MK_bind wg_Done].
      cbn [fst snd wg_done kbase api_calls sl add_log].
      rewrite Hwg, Hsl. auto.
    + rewrite (MK_bind_inl _ _ _ _ _ (startWatcher_run _ _ _ _ _)).
      destruct (StartAndCacheSync K "epWatcher") as [e|];
        cbv [mret MK_ret mbind MK_bind wg_Done];
        cbn [fst snd wg_done kbase api_calls sl add_log];
        rewrite Hwg, Hsl, <- app_assoc; auto.
Qed.

Lemma start_cases_witness :
  (start lifecycle_samples.env2_sync_failing lifecycle_samples.kproc0).1
  = inl (Some ("Service Latency measurement error: "
               +:+ "timed out waiting for caches to sync")) /\
  wg_done (start lifecycle_samples.env2_sync_failing
             lifecycle_samples.kproc0).2 = 1%nat /\
  (start lifecycle_samples.env2_forbidden lifecycle_samples.kproc0).1
  = inr (Exited 1) /\
  wg_done (start lifecycle_samples.env2_forbidden
             lifecycle_samples.kproc0).2 = 0%nat.
Proof.
  destruct (start_cases lifecycle_samples.env2_sync_failing
              lifecycle_samples.kproc0) as (_ & Hreturns).
  destruct (start_cases lifecycle_samples.env2_forbidden
              lifecycle_samples.kproc0) as (Hexits & _).
  destruct (Hreturns eq_refl) as (Hwg & _ & Hr & _).
  destruct (Hexits lifecycle_samples.forbidden eq_refl) as (Hx & Hwg0 & _).
  repeat split; assumption.
Defined.

Lemma stop_always_returns_nil_witness :
  (stop lifecycle_samples.env2_ok lifecycle_samples.kproc0).1 = inl None /\
  api_calls (stop lifecycle_samples.env2_ok lifecycle_samples.kproc0).2
  = [StopWatcher "svcWatcher"; StopWatcher "epWatcher";
     DeleteNamespace "kube-burner-service-latency"].
Proof.
  destruct (stop_always_returns_nil lifecycle_samples.env2_ok
              lifecycle_samples.kproc0) as (Hr & Hcalls & _).
  split; [exact Hr|exact Hcalls].
Defined.
